(** * VideoTranscoder: a shallow embedding of [video-processor/transcoder.py]

    The transcoder drives two external tools (ffprobe, ffmpeg) and assembles
    an HLS master manifest from the renditions that encoded.  The embedding
    keeps the shape of the Python code:

    - Python values are an inductive type [pyval]; dictionaries are
      association lists in insertion order, as [dict] iterates;
    - exceptions are an error result, threaded by a small monad that also
      carries the chronological log of everything the run did to the outside
      world (processes started, files written, warnings);
    - the outside world is a record [Env]: which paths exist, how each
      external command answers given the history so far, and what Python's
      [eval] makes of text outside the arithmetic fragment modelled here.

    Python floats are modelled by the exact rationals they approximate
    (type [Q]): rounding and overflow of binary64 are not part of the model,
    except in the section on thumbnail timestamps, where the sampling formula
    is also run on the kernel's binary64 numbers.

    Two more parts of the source are embedded after the transcoder: the
    example program at the end of the file, and the class
    [S3VideoUploader], whose outside world is the walk of a directory and
    the S3 client. *)

From Stdlib Require Import ZArith QArith Qabs List String Ascii Bool Lia.
From Stdlib Require Import Permutation Sorted.
From Stdlib Require Import DecimalString DecimalFacts DecimalPos DecimalN DecimalZ.
From Stdlib Require Import Floats.
Import ListNotations.

Set Warnings "-register-all".

Local Open Scope string_scope.
Local Open Scope Z_scope.

(* ================================================================== *)
(** ** Exceptions and results *)

Inductive exn : Type :=
| FileNotFoundError
| CalledProcessError
| JSONDecodeError
| KeyError
| TypeError
| ValueError
| AttributeError
| ZeroDivisionError
| SyntaxError
| OtherError (name : string).

Inductive result (A : Type) : Type :=
| Ok (a : A)
| Raise (e : exn).

Arguments Ok {A} a.
Arguments Raise {A} e.

Definition rbind {A B} (r : result A) (k : A -> result B) : result B :=
  match r with
  | Ok a => k a
  | Raise e => Raise e
  end.

Definition rmap {A B} (f : A -> B) (r : result A) : result B :=
  rbind r (fun a => Ok (f a)).

Definition is_ok {A} (r : result A) : bool :=
  match r with Ok _ => true | Raise _ => false end.

(* ================================================================== *)
(** ** Python values *)

(** The values that travel through the transcoder: what [json.loads]
    builds, what [eval] returns, what ends up in the metadata dictionary. *)
Inductive pyval : Type :=
| PNone
| PBool (b : bool)
| PInt (n : Z)
| PFloat (q : Q)
| PStr (s : string)
| PList (l : list pyval)
| PDict (d : list (string * pyval)).

(** A [dict] with string keys, in insertion order. *)
Definition dict (V : Type) : Type := list (string * V).

Fixpoint dict_get {V} (d : dict V) (k : string) : option V :=
  match d with
  | [] => None
  | (k', v) :: d' => if String.eqb k k' then Some v else dict_get d' k
  end.

Definition dict_mem {V} (d : dict V) (k : string) : bool :=
  match dict_get d k with Some _ => true | None => false end.

(** [d[k] = v]: an existing key keeps its position, a new key goes last. *)
Fixpoint dict_set {V} (d : dict V) (k : string) (v : V) : dict V :=
  match d with
  | [] => [(k, v)]
  | (k', v') :: d' =>
      if String.eqb k k' then (k', v) :: d' else (k', v') :: dict_set d' k v
  end.

Definition dict_keys {V} (d : dict V) : list string := map fst d.

(** [d.update(e)]. *)
Definition dict_update {V} (d e : dict V) : dict V :=
  fold_left (fun acc kv => dict_set acc (fst kv) (snd kv)) e d.

(** [d.get(k, default)] *)
Definition get_default {V} (d : dict V) (k : string) (default : V) : V :=
  match dict_get d k with Some v => v | None => default end.

(** [d.get(k)], with [None] for a missing key. *)
Definition get_or_none (d : dict pyval) (k : string) : pyval :=
  get_default d k PNone.

(** [x[k]] for a string key [k]. *)
Definition subscript (x : pyval) (k : string) : result pyval :=
  match x with
  | PDict d => match dict_get d k with Some v => Ok v | None => Raise KeyError end
  | _ => Raise TypeError
  end.

(** [x.get]: only dictionaries have the method. *)
Definition as_dict (x : pyval) : result (dict pyval) :=
  match x with
  | PDict d => Ok d
  | _ => Raise AttributeError
  end.

Fixpoint chars (s : string) : list pyval :=
  match s with
  | EmptyString => []
  | String c r => PStr (String c EmptyString) :: chars r
  end.

(** [for s in x]: lists yield their items, dictionaries their keys,
    strings their characters; nothing else is iterable here. *)
Definition py_iter (x : pyval) : result (list pyval) :=
  match x with
  | PList l => Ok l
  | PDict d => Ok (map (fun kv => PStr (fst kv)) d)
  | PStr s => Ok (chars s)
  | _ => Raise TypeError
  end.

(** [x == 'text'] *)
Definition eq_str (x : pyval) (s : string) : bool :=
  match x with
  | PStr t => String.eqb t s
  | _ => false
  end.

(** Truth value of [x] in an [if]. *)
Definition truthy (x : pyval) : bool :=
  match x with
  | PNone => false
  | PBool b => b
  | PInt n => negb (n =? 0)
  | PFloat q => negb (Qnum q =? 0)
  | PStr s => negb (String.eqb s "")
  | PList l => match l with [] => false | _ => true end
  | PDict d => match d with [] => false | _ => true end
  end.

(* ================================================================== *)
(** ** Text and numbers *)

(** [str(n)] for an integer. *)
Definition py_str_int (n : Z) : string :=
  NilZero.string_of_int (Z.to_int n).

(** [s.replace(c, new)] for a one-character pattern [c]. *)
Fixpoint str_replace (c : ascii) (new : string) (s : string) : string :=
  match s with
  | EmptyString => EmptyString
  | String a r =>
      if Ascii.eqb a c then new ++ str_replace c new r
      else String a (str_replace c new r)
  end.

(** [int(s)] on text: an optional sign and one or more decimal digits.
    (Python also accepts surrounding blanks and single underscores between
    digits; the transcoder never builds such text and they are read as
    [ValueError] here.) *)
Definition py_int_str (s : string) : result Z :=
  let body :=
    match s with
    | String "+"%char r =>
        match r with
        | String "-"%char _ => None
        | _ => option_map Decimal.Pos (NilZero.uint_of_string r)
        end
    | _ => NilZero.int_of_string s
    end in
  match body with
  | Some i => Ok (Z.of_int i)
  | None => Raise ValueError
  end.

(** Split text at its first dot. *)
Fixpoint split_dot (s : string) : string * option string :=
  match s with
  | EmptyString => (EmptyString, None)
  | String c r =>
      if Ascii.eqb c "." then (EmptyString, Some r)
      else let '(a, b) := split_dot r in (String c a, b)
  end.

(** Unsigned decimal text [digits], [digits.], [.digits] or
    [digits.digits] as a rational. *)
Definition decimal_text (s : string) : option Q :=
  let '(ip, fp) := split_dot s in
  let fp := match fp with Some f => f | None => EmptyString end in
  match NilEmpty.uint_of_string ip, NilEmpty.uint_of_string fp with
  | Some i, Some f =>
      match Decimal.app i f with
      | Decimal.Nil => None
      | digits =>
          Some (Qmake (Z.of_uint digits)
                      (Nat.iter (Decimal.nb_digits f) (Pos.mul 10) 1%positive))
      end
  | _, _ => None
  end.

(** [float(s)] on text: an optional sign and plain decimal text, the form
    in which ffprobe prints durations.  (Exponents, [inf], [nan], blanks
    and underscores, which Python also reads, are [ValueError] here.) *)
Definition py_float_str (s : string) : result Q :=
  let '(neg, body) :=
    match s with
    | String "-"%char r => (true, r)
    | String "+"%char r => (false, r)
    | _ => (false, s)
    end in
  match decimal_text body with
  | Some q => Ok (if neg then Qopp q else q)
  | None => Raise ValueError
  end.

(** [float(x)] *)
Definition py_float (x : pyval) : result Q :=
  match x with
  | PInt n => Ok (inject_Z n)
  | PBool b => Ok (inject_Z (if b then 1 else 0))
  | PFloat q => Ok q
  | PStr s => py_float_str s
  | _ => Raise TypeError
  end.

(** [int(x)]: floats are truncated towards zero. *)
Definition py_int (x : pyval) : result Z :=
  match x with
  | PInt n => Ok n
  | PBool b => Ok (if b then 1 else 0)
  | PFloat q => Ok (Z.quot (Qnum q) (Zpos (Qden q)))
  | PStr s => py_int_str s
  | _ => Raise TypeError
  end.

(* ================================================================== *)
(** ** Python's [eval] on arithmetic text

    [eval] runs whatever expression its argument spells.  The part of the
    expression language decided here is integer arithmetic without blanks
    or brackets: decimal literals, unary and binary [+] and [-], [*] and
    true division [/].  Text with any other character, or with the
    two-character operators [**] and [//], is left to the environment. *)

Inductive number : Type :=
| NInt (n : Z)
| NFloat (q : Q).

Definition to_Q (x : number) : Q :=
  match x with
  | NInt n => inject_Z n
  | NFloat q => q
  end.

Definition pyval_of_number (x : number) : pyval :=
  match x with
  | NInt n => PInt n
  | NFloat q => PFloat q
  end.

Definition num_is_zero (x : number) : bool :=
  match x with
  | NInt n => n =? 0
  | NFloat q => Qnum q =? 0
  end.

Inductive addop : Type := OpAdd | OpSub.
Inductive mulop : Type := OpMul | OpDiv.

Definition apply_add (op : addop) (x y : number) : number :=
  match op, x, y with
  | OpAdd, NInt a, NInt b => NInt (a + b)
  | OpSub, NInt a, NInt b => NInt (a - b)
  | OpAdd, _, _ => NFloat (Qplus (to_Q x) (to_Q y))
  | OpSub, _, _ => NFloat (Qminus (to_Q x) (to_Q y))
  end.

(** [x * y] and [x / y]; [/] is true division and always gives a float. *)
Definition apply_mul (op : mulop) (x y : number) : result number :=
  match op with
  | OpMul =>
      match x, y with
      | NInt a, NInt b => Ok (NInt (a * b))
      | _, _ => Ok (NFloat (Qmult (to_Q x) (to_Q y)))
      end
  | OpDiv =>
      if num_is_zero y then Raise ZeroDivisionError
      else Ok (NFloat (Qdiv (to_Q x) (to_Q y)))
  end.

(** What has been read of an expression: the sum so far with the additive
    operator that follows it, the product so far with the multiplicative
    operator that follows it, and whether an odd number of unary minus
    signs precedes the factor being read.  Values are results, because a
    division by zero only matters once the whole text has proved to be
    well formed. *)
Record partial : Type := mkPartial {
  sum_so_far : option (result number * addop);
  term_so_far : option (result number * mulop);
  negated : bool
}.

Definition start : partial := mkPartial None None false.

Inductive mode : Type :=
| Operand                         (* a factor must follow *)
| Literal (rev_digits : Decimal.uint).  (* inside a literal; last digit first *)

(** A decimal literal has no leading zero unless it is all zeros. *)
Definition literal_value (rev_digits : Decimal.uint) : option Z :=
  let digits := Decimal.rev rev_digits in
  match digits with
  | Decimal.D0 _ =>
      match Decimal.nzhead digits with
      | Decimal.Nil => Some 0
      | _ => None
      end
  | _ => Some (Z.of_uint digits)
  end.

Definition close_factor (p : partial) (n : Z) : result number :=
  let f := NInt (if negated p then - n else n) in
  match term_so_far p with
  | None => Ok f
  | Some (t, op) => rbind t (fun x => apply_mul op x f)
  end.

Definition close_term (p : partial) (t : result number) : result number :=
  match sum_so_far p with
  | None => t
  | Some (s, op) => rbind s (fun x => rbind t (fun y => Ok (apply_add op x y)))
  end.

Definition digit_of (c : ascii) : option (Decimal.uint -> Decimal.uint) :=
  match c with
  | "0" => Some Decimal.D0 | "1" => Some Decimal.D1 | "2" => Some Decimal.D2
  | "3" => Some Decimal.D3 | "4" => Some Decimal.D4 | "5" => Some Decimal.D5
  | "6" => Some Decimal.D6 | "7" => Some Decimal.D7 | "8" => Some Decimal.D8
  | "9" => Some Decimal.D9
  | _ => None
  end%char.

Fixpoint eval_arith (s : string) (p : partial) (m : mode) : result number :=
  match s, m with
  | EmptyString, Operand => Raise SyntaxError
  | EmptyString, Literal ds =>
      match literal_value ds with
      | None => Raise SyntaxError
      | Some n => close_term p (close_factor p n)
      end
  | String c r, Operand =>
      match digit_of c with
      | Some d => eval_arith r p (Literal (d Decimal.Nil))
      | None =>
          if Ascii.eqb c "+" then eval_arith r p Operand
          else if Ascii.eqb c "-" then
            eval_arith r (mkPartial (sum_so_far p) (term_so_far p)
                                    (negb (negated p))) Operand
          else Raise SyntaxError
      end
  | String c r, Literal ds =>
      match digit_of c with
      | Some d => eval_arith r p (Literal (d ds))
      | None =>
          match literal_value ds with
          | None => Raise SyntaxError
          | Some n =>
              let t := close_factor p n in
              if Ascii.eqb c "*" then
                eval_arith r (mkPartial (sum_so_far p) (Some (t, OpMul)) false)
                           Operand
              else if Ascii.eqb c "/" then
                eval_arith r (mkPartial (sum_so_far p) (Some (t, OpDiv)) false)
                           Operand
              else if Ascii.eqb c "+" then
                eval_arith r (mkPartial (Some (close_term p t, OpAdd)) None false)
                           Operand
              else if Ascii.eqb c "-" then
                eval_arith r (mkPartial (Some (close_term p t, OpSub)) None false)
                           Operand
              else Raise SyntaxError
          end
      end
  end.

(** Is the text inside the fragment: only digits and [+ - * /], and
    neither [**] nor [//]? *)
Fixpoint arithmetic_text (s : string) : bool :=
  match s with
  | EmptyString => true
  | String c r =>
      match digit_of c with
      | Some _ => arithmetic_text r
      | None =>
          let doubled :=
            match r with
            | String c' _ => Ascii.eqb c c'
            | EmptyString => false
            end in
          if Ascii.eqb c "+" || Ascii.eqb c "-" then arithmetic_text r
          else if Ascii.eqb c "*" || Ascii.eqb c "/" then
            negb doubled && arithmetic_text r
          else false
      end
  end.

(* ================================================================== *)
(** ** Paths *)

(** [os.path.join(a, b)] on POSIX; [Path(a) / b] is read the same way
    (pathlib's normalisation of the text is not modelled: paths are only
    handed on to the tools). *)
Definition ends_with_slash (s : string) : bool :=
  match s with
  | EmptyString => true
  | _ => String.eqb (substring (String.length s - 1) 1 s) "/"
  end.

Definition path_join (a b : string) : string :=
  match b with
  | String "/"%char _ => b
  | _ => if ends_with_slash a then a ++ b else a ++ "/" ++ b
  end.

Arguments path_join : simpl never.

(* ================================================================== *)
(** ** The catalog of presets *)

Record preset : Type := mkPreset {
  width : Z;
  height : Z;
  bitrate : string;
  audio_bitrate : string
}.

(** [self.quality_presets], in declaration order (lines 25-31). *)
Definition quality_presets : dict preset :=
  [ ("2160p", mkPreset 3840 2160 "15000k" "192k");
    ("1080p", mkPreset 1920 1080 "5000k" "128k");
    ("720p", mkPreset 1280 720 "2500k" "128k");
    ("480p", mkPreset 854 480 "1000k" "96k");
    ("360p", mkPreset 640 360 "600k" "96k") ].

(** The object state of a [VideoTranscoder]. *)
Record transcoder : Type := mkTranscoder {
  input_dir : string;
  output_dir : string;
  presets : dict preset
}.

(** [VideoTranscoder()] with the constructor's defaults. *)
Definition default_transcoder : transcoder :=
  mkTranscoder "./uploads" "./transcoded" quality_presets.

(** [int(preset['bitrate'].replace('k', ''))] *)
Definition bitrate_kbps (p : preset) : result Z :=
  py_int_str (str_replace "k" "" (bitrate p)).

(* ================================================================== *)
(** ** The outside world *)

(** The external commands the transcoder starts, by purpose, with the
    values each command line is built from. *)
Inductive command : Type :=
| Ffprobe (input_file : string)
| FfmpegEncode (input_file output_file resolution : string)
               (w h : Z) (video_rate bufsize audio_rate : string)
| FfmpegHls (video_file segment_pattern variant_path resolution : string)
| FfmpegThumb (timestamp : number) (input_file output_file : string)
| FfmpegPreview (input_file : string) (seconds : Z) (output_file : string).

Inductive arg : Type :=
| Text (s : string)
| Repr (x : number).   (* [str(x)] of a number *)

(** The command line of each command, as the source spells it. *)
Definition argv (c : command) : list arg :=
  match c with
  | Ffprobe f =>
      map Text ["ffprobe"; "-v"; "quiet"; "-print_format"; "json";
                "-show_format"; "-show_streams"; f]
  | FfmpegEncode i o _ w h vb buf ab =>
      map Text ["ffmpeg"; "-i"; i;
                "-vf"; "scale=" ++ py_str_int w ++ ":" ++ py_str_int h;
                "-c:v"; "libx264"; "-preset"; "medium";
                "-b:v"; vb; "-maxrate"; vb; "-bufsize"; buf;
                "-c:a"; "aac"; "-b:a"; ab;
                "-movflags"; "+faststart"; "-y"; o]
  | FfmpegHls v seg p _ =>
      map Text ["ffmpeg"; "-i"; v; "-c"; "copy"; "-start_number"; "0";
                "-hls_time"; "6"; "-hls_list_size"; "0"; "-f"; "hls";
                "-hls_segment_filename"; seg; "-y"; p]
  | FfmpegThumb t i o =>
      [Text "ffmpeg"; Text "-ss"; Repr t; Text "-i"; Text i;
       Text "-vframes"; Text "1"; Text "-vf"; Text "scale=320:-1";
       Text "-y"; Text o]
  | FfmpegPreview i d o =>
      map Text ["ffmpeg"; "-i"; i; "-t"; py_str_int d;
                "-vf"; "scale=640:-1"; "-c:v"; "libx264"; "-preset"; "fast";
                "-b:v"; "500k"; "-c:a"; "aac"; "-b:a"; "96k";
                "-movflags"; "+faststart"; "-y"; o]
  end.

(** What [subprocess.run] gets back.  Standard output is kept as the value
    [json.loads] builds from it, [None] when it is not a JSON document. *)
Record completed : Type := mkCompleted {
  returncode : Z;
  stdout_json : option pyval
}.

Inductive level : Type := INFO | WARNING | ERROR.

(** Everything a run does that can be observed from outside. *)
Inductive event : Type :=
| Ran (c : command) (r : completed)
| Wrote (path text : string)
| MadeDir (path : string)
| Logged (l : level) (msg : string).

(** The environment of a run.  [respond] is the answer of an external
    command given everything that happened before it; [eval_other] is
    Python's [eval] on text outside the arithmetic fragment.  Both tools
    are taken to be installed, and directory creation and the writing of
    the manifest to succeed. *)
Record Env : Type := mkEnv {
  path_exists : string -> bool;
  respond : list event -> command -> completed;
  eval_other : string -> result pyval
}.

(** [eval(s)] *)
Definition py_eval (env : Env) (s : string) : result pyval :=
  if arithmetic_text s then rmap pyval_of_number (eval_arith s start Operand)
  else eval_other env s.

(* ================================================================== *)
(** ** The monad of a run

    A computation reads the history of the run so far and returns a value
    or an exception together with the events it added. *)

Definition M (A : Type) : Type := list event -> result A * list event.

Definition ret {A} (a : A) : M A := fun _ => (Ok a, []).

Definition raise {A} (e : exn) : M A := fun _ => (Raise e, []).

Definition lift {A} (r : result A) : M A := fun _ => (r, []).

Definition emit (e : event) : M unit := fun _ => (Ok tt, [e]).

Definition bind {A B} (m : M A) (k : A -> M B) : M B :=
  fun h =>
    match m h with
    | (Ok a, o) => let '(r, o') := k a (h ++ o)%list in (r, (o ++ o')%list)
    | (Raise e, o) => (Raise e, o)
    end.

Notation "x <- m ;; k" := (bind m (fun x => k))
  (at level 61, m at next level, right associativity).
Notation "m ;;; k" := (bind m (fun _ => k))
  (at level 61, right associativity).

(** [try: body except subprocess.CalledProcessError: handler] *)
Definition except_called_process_error {A} (body handler : M A) : M A :=
  fun h =>
    match body h with
    | (Raise CalledProcessError, o) =>
        let '(r, o') := handler (h ++ o)%list in (r, (o ++ o')%list)
    | other => other
    end.

(** [for x in l: s = body(s, x)] *)
Fixpoint for_each {A S} (body : S -> A -> M S) (l : list A) (s : S) : M S :=
  match l with
  | [] => ret s
  | x :: l' => s' <- body s x ;; for_each body l' s'
  end.

Definition log_info (msg : string) : M unit := emit (Logged INFO msg).
Definition log_warning (msg : string) : M unit := emit (Logged WARNING msg).
Definition log_error (msg : string) : M unit := emit (Logged ERROR msg).

(** [range(a, b)] *)
Definition py_range (a b : Z) : list Z :=
  map (fun k => a + Z.of_nat k) (seq 0 (Z.to_nat (b - a))).

(** [f"{i:02d}"] *)
Definition fmt_02d (i : Z) : string :=
  let s := py_str_int i in
  if (String.length s <? 2)%nat then "0" ++ s else s.

(** [sorted(l, key=key, reverse=True)]: descending by key, and items with
    equal keys stay in their original order. *)
Fixpoint insert_desc {A} (key : A -> Z) (x : A) (l : list A) : list A :=
  match l with
  | [] => [x]
  | y :: l' =>
      if key x <? key y then y :: insert_desc key x l' else x :: y :: l'
  end.

Definition sorted_reverse {A} (key : A -> Z) (l : list A) : list A :=
  fold_right (insert_desc key) [] l.

Definition nl : string := String (ascii_of_nat 10) EmptyString.

(* ================================================================== *)
(** ** The transcoder *)

(** One entry of [variant_playlists]. *)
Record variant : Type := mkVariant {
  v_resolution : string;
  v_bandwidth : Z;
  v_playlist : string
}.

(** The dictionary [transcode_video] returns. *)
Record results : Type := mkResults {
  r_video_id : string;
  r_metadata : dict pyval;
  r_resolutions : dict string;
  r_thumbnails : list string;
  r_preview : option string;
  r_hls_playlist : string
}.

(** [json.loads(result.stdout)] *)
Definition json_loads (r : completed) : result pyval :=
  match stdout_json r with
  | Some v => Ok v
  | None => Raise JSONDecodeError
  end.

(** [next((s for s in streams if s['codec_type'] == kind), None)]: the
    generator is consumed up to the first match only. *)
Fixpoint first_stream (kind : string) (streams : list pyval) : result pyval :=
  match streams with
  | [] => Ok PNone
  | s :: rest =>
      rbind (subscript s "codec_type")
            (fun c => if eq_str c kind then Ok s else first_stream kind rest)
  end.

(** [x == 0] *)
Definition eq_zero (x : pyval) : bool :=
  match x with
  | PInt n => n =? 0
  | PBool b => negb b
  | PFloat q => Qnum q =? 0
  | _ => false
  end.

Definition as_number (x : pyval) : result number :=
  match x with
  | PInt n => Ok (NInt n)
  | PBool b => Ok (NInt (if b then 1 else 0))
  | PFloat q => Ok (NFloat q)
  | _ => Raise TypeError
  end.

Section Transcoder.

Variable env : Env.
Variable self : transcoder.

(** [subprocess.run(cmd, check=True, capture_output=True)] *)
Definition run (c : command) : M completed :=
  fun h =>
    let r := respond env h c in
    if returncode r =? 0 then (Ok r, [Ran c r])
    else (Raise CalledProcessError, [Ran c r]).

(** [eval(x)] as line 153 calls it. *)
Definition eval_value (x : pyval) : result pyval :=
  match x with
  | PStr s => py_eval env s
  | _ => Raise TypeError
  end.

(** Lines 148-154: the fields taken from the video stream. *)
Definition video_fields (video_stream : pyval) : result (dict pyval) :=
  rbind (as_dict video_stream) (fun vs =>
  rbind (py_int (get_default vs "width" (PInt 0))) (fun w =>
  rbind (py_int (get_default vs "height" (PInt 0))) (fun h =>
  let codec := get_or_none vs "codec_name" in
  rbind (eval_value (get_default vs "r_frame_rate" (PStr "0/1"))) (fun fps =>
  Ok [("width", PInt w); ("height", PInt h); ("codec", codec);
      ("fps", fps)])))).

(** Lines 129-160: from the prober's output to the metadata. *)
Definition extract_metadata (stdout : completed) : result (dict pyval) :=
  rbind (json_loads stdout) (fun data =>
  rbind (rbind (subscript data "streams") py_iter) (fun streams =>
  rbind (first_stream "video" streams) (fun video_stream =>
  rbind (first_stream "audio" streams) (fun audio_stream =>
  rbind (rbind (subscript data "format") as_dict) (fun fmt =>
  rbind (py_float (get_default fmt "duration" (PInt 0))) (fun duration =>
  rbind (py_int (get_default fmt "size" (PInt 0))) (fun size =>
  rbind (py_int (get_default fmt "bit_rate" (PInt 0))) (fun bit_rate =>
  let metadata :=
    [("duration", PFloat duration); ("size", PInt size);
     ("bitrate", PInt bit_rate); ("format", get_or_none fmt "format_name")] in
  rbind (if truthy video_stream
         then rmap (dict_update metadata) (video_fields video_stream)
         else Ok metadata) (fun metadata =>
  rbind (if truthy audio_stream
         then rmap (fun a =>
                      dict_set
                        (dict_set metadata "audio_codec"
                                  (get_or_none a "codec_name"))
                        "audio_channels" (get_or_none a "channels"))
                   (as_dict audio_stream)
         else Ok metadata) (fun metadata =>
  Ok metadata)))))))))).

(** Lines 116-164. *)
Definition _get_video_metadata (input_file : string) : M (dict pyval) :=
  except_called_process_error
    (stdout <- run (Ffprobe input_file) ;;
     lift (extract_metadata stdout))
    (log_error "Error getting video metadata" ;;;
     ret []).

(** Lines 166-193. *)
Definition _transcode_resolution (input_file output_dir resolution : string)
           (p : preset) : M (option string) :=
  let output_file := path_join output_dir (resolution ++ ".mp4") in
  kbps <- lift (bitrate_kbps p) ;;
  let cmd :=
    FfmpegEncode input_file output_file resolution (width p) (height p)
                 (bitrate p) (py_str_int (kbps * 2) ++ "k")
                 (audio_bitrate p) in
  except_called_process_error
    (run cmd ;;;
     log_info ("Successfully transcoded to " ++ resolution) ;;;
     ret (Some output_file))
    (log_error ("Error transcoding to " ++ resolution) ;;;
     ret None).

(** [self.quality_presets[resolution]] *)
Definition preset_of (resolution : string) : result preset :=
  match dict_get (presets self) resolution with
  | Some p => Ok p
  | None => Raise KeyError
  end.

(** Lines 206-232: one turn of the loop over the renditions. *)
Definition hls_variant (hls_dir : string) (variant_playlists : list variant)
           (item : string * string) : M (list variant) :=
  let '(resolution, video_file) := item in
  p <- lift (preset_of resolution) ;;
  let variant_name := resolution ++ ".m3u8" in
  let variant_path := path_join hls_dir variant_name in
  let cmd :=
    FfmpegHls video_file (path_join hls_dir (resolution ++ "_%03d.ts"))
              variant_path resolution in
  except_called_process_error
    (run cmd ;;;
     kbps <- lift (bitrate_kbps p) ;;
     ret (variant_playlists
            ++ [mkVariant resolution (kbps * 1000) variant_name])%list)
    (log_error ("Error generating HLS for " ++ resolution) ;;;
     ret variant_playlists).

(** Lines 242-245: the two lines of one variant in the master playlist. *)
Definition stream_inf (v : variant) : result string :=
  rbind (preset_of (v_resolution v)) (fun p =>
  Ok ("#EXT-X-STREAM-INF:BANDWIDTH=" ++ py_str_int (v_bandwidth v)
      ++ ",RESOLUTION=" ++ py_str_int (width p) ++ "x"
      ++ py_str_int (height p) ++ nl
      ++ v_playlist v ++ nl ++ nl)).

Fixpoint stream_infs (vs : list variant) : result string :=
  match vs with
  | [] => Ok ""
  | v :: rest =>
      rbind (stream_inf v) (fun a =>
      rbind (stream_infs rest) (fun b => Ok (a ++ b)))
  end.

(** The order in which the master playlist lists the variants. *)
Definition master_order (variant_playlists : list variant) : list variant :=
  sorted_reverse v_bandwidth variant_playlists.

(** Lines 235-245: the text of the master playlist. *)
Definition master_text (variant_playlists : list variant) : result string :=
  rmap (fun body => "#EXTM3U" ++ nl ++ "#EXT-X-VERSION:3" ++ nl ++ nl ++ body)
       (stream_infs (master_order variant_playlists)).

(** Lines 195-248. *)
Definition _generate_hls_playlist (output_dir : string)
           (resolutions : dict string) : M string :=
  let hls_dir := path_join output_dir "hls" in
  emit (MadeDir hls_dir) ;;;
  let master_playlist := path_join hls_dir "master.m3u8" in
  variant_playlists <- for_each (hls_variant hls_dir) resolutions [] ;;
  text <- lift (master_text variant_playlists) ;;
  emit (Wrote master_playlist text) ;;;
  log_info "HLS playlist generated successfully" ;;;
  ret master_playlist.

(** Lines 266-284: one turn of the loop over the thumbnail indices. *)
Definition thumbnail (input_file thumbnails_dir : string) (interval : number)
           (thumbnails : list string) (i : Z) : M (list string) :=
  timestamp <- lift (apply_mul OpMul interval (NInt i)) ;;
  let output_file := path_join thumbnails_dir ("thumb_" ++ fmt_02d i ++ ".jpg") in
  except_called_process_error
    (run (FfmpegThumb timestamp input_file output_file) ;;;
     ret (thumbnails ++ [output_file])%list)
    (log_error ("Error generating thumbnail " ++ py_str_int i) ;;;
     ret thumbnails).

(** Lines 250-287. *)
Definition _generate_thumbnails (input_file output_dir : string) (count : Z)
  : M (list string) :=
  let thumbnails_dir := path_join output_dir "thumbnails" in
  emit (MadeDir thumbnails_dir) ;;;
  metadata <- _get_video_metadata input_file ;;
  let duration := get_default metadata "duration" (PInt 0) in
  if eq_zero duration then ret []
  else
    d <- lift (as_number duration) ;;
    interval <- lift (apply_mul OpDiv d (NInt (count + 1))) ;;
    thumbnails <- for_each (thumbnail input_file thumbnails_dir interval)
                           (py_range 1 (count + 1)) [] ;;
    log_info ("Generated "
              ++ py_str_int (Z.of_nat (List.length thumbnails))
              ++ " thumbnails") ;;;
    ret thumbnails.

(** Lines 289-315. *)
Definition _generate_preview (input_file output_dir : string) (duration : Z)
  : M (option string) :=
  let output_file := path_join output_dir "preview.mp4" in
  except_called_process_error
    (run (FfmpegPreview input_file duration output_file) ;;;
     log_info "Preview clip generated successfully" ;;;
     ret (Some output_file))
    (log_error "Error generating preview" ;;;
     ret None).

(** Lines 72-87: one turn of the loop over the requested resolutions;
    [continue] leaves the renditions as they are. *)
Definition transcode_one (input_path video_output_dir : string)
           (resolutions : dict string) (resolution : string)
  : M (dict string) :=
  match dict_get (presets self) resolution with
  | None =>
      log_warning ("Unknown resolution: " ++ resolution ++ ", skipping") ;;;
      ret resolutions
  | Some p =>
      log_info ("Transcoding to " ++ resolution) ;;;
      output_file <- _transcode_resolution input_path video_output_dir
                                           resolution p ;;
      match output_file with
      | Some f =>
          if truthy (PStr f) then ret (dict_set resolutions resolution f)
          else ret resolutions
      | None => ret resolutions
      end
  end.

(** Lines 33-114. *)
Definition transcode_video (input_file video_id : string)
           (resolutions : option (list string)) : M results :=
  let resolutions :=
    match resolutions with
    | None => dict_keys (presets self)
    | Some l => l
    end in
  let input_path := path_join (input_dir self) input_file in
  if negb (path_exists env input_path) then raise FileNotFoundError
  else
    log_info ("Starting transcoding for video " ++ video_id) ;;;
    metadata <- _get_video_metadata input_path ;;
    let video_output_dir := path_join (output_dir self) video_id in
    emit (MadeDir video_output_dir) ;;;
    renditions <- for_each (transcode_one input_path video_output_dir)
                           resolutions [] ;;
    hls_playlist <- _generate_hls_playlist video_output_dir renditions ;;
    thumbnails <- _generate_thumbnails input_path video_output_dir 10 ;;
    preview <- _generate_preview input_path video_output_dir 30 ;;
    log_info ("Transcoding completed for video " ++ video_id) ;;;
    ret (mkResults video_id metadata renditions thumbnails preview
                   hls_playlist).

End Transcoder.

(* ================================================================== *)
(** * The example program (lines 368-389) *)

(** What [print] is given: text, [str] of a value, or [str] of a list of
    labels. *)
Inductive shown : Type :=
| Str (s : string)
| Value (v : pyval)
| Labels (l : list string).

(** The labels the example asks for (line 381). *)
Definition example_resolutions : list string :=
  ["1080p"; "720p"; "480p"; "360p"].

(** The lines printed before the duration is looked up (lines 384-385),
    and those printed from there on (lines 386-389). *)
Definition first_lines (r : results) : list (list shown) :=
  [ [Str (nl ++ "Transcoding Results:")];
    [Str "Video ID: "; Str (r_video_id r)] ].

Definition last_lines (r : results) (duration : pyval) : list (list shown) :=
  [ [Str "Duration: "; Value duration; Str " seconds"];
    [Str "Resolutions: "; Labels (dict_keys (r_resolutions r))];
    [Str "Thumbnails: "; Value (PInt (Z.of_nat (List.length (r_thumbnails r))))];
    [Str "HLS Playlist: "; Str (r_hls_playlist r)] ].

(** The program: it builds a transcoder with the default directories,
    which the constructor makes (lines 21-22), runs it on
    [sample_video.mp4], and prints what the run returned.  Besides the
    result and the log it gives the lines printed. *)
Definition main (env : Env) (h : list event)
  : result unit * list event * list (list shown) :=
  let made := [MadeDir (input_dir default_transcoder);
               MadeDir (output_dir default_transcoder)] in
  match transcode_video env default_transcoder "sample_video.mp4" "video_123"
                        (Some example_resolutions) (h ++ made)%list with
  | (Raise e, o) => (Raise e, (made ++ o)%list, [])
  | (Ok r, o) =>
      match dict_get (r_metadata r) "duration" with
      | None => (Raise KeyError, (made ++ o)%list, first_lines r)
      | Some duration =>
          (Ok tt, (made ++ o)%list, (first_lines r ++ last_lines r duration)%list)
      end
  end.

(* ================================================================== *)
(** * S3VideoUploader

    The uploader walks a directory and hands every regular file in it to
    the S3 client.  The walk and the client are the outside world of this
    class. *)

(** ** Names and suffixes *)

(** [s.split(c)] *)
Fixpoint split_on (c : ascii) (s : string) : list string :=
  match s with
  | EmptyString => [EmptyString]
  | String a r =>
      if Ascii.eqb a c then EmptyString :: split_on c r
      else match split_on c r with
           | x :: rest => String a x :: rest
           | [] => [String a EmptyString]
           end
  end.

(** [Path(s).name] on POSIX: the last component of the path, empty
    components and single dots left aside. *)
Definition path_name (s : string) : string :=
  last (filter (fun part => negb (String.eqb part "" || String.eqb part "."))
               (split_on "/" s))
       "".

(** The text after the last occurrence of [c], when there is one. *)
Fixpoint after_last (c : ascii) (s : string) : option string :=
  match s with
  | EmptyString => None
  | String a r =>
      match after_last c r with
      | Some t => Some t
      | None => if Ascii.eqb a c then Some r else None
      end
  end.

(** [Path(s).suffix], as pathlib computes it up to Python 3.13: with [i]
    the position of the last dot of the name, the name from [i] on when
    [0 < i < len(name) - 1], and the empty string otherwise. *)
Definition path_suffix (s : string) : string :=
  match path_name s with
  | EmptyString => ""
  | String _ r =>
      match after_last "." r with
      | Some EmptyString => ""
      | Some t => String "." t
      | None => ""
      end
  end.

(** [s.lower()] on ASCII text. *)
Definition lower_char (c : ascii) : ascii :=
  let n := nat_of_ascii c in
  if ((65 <=? n) && (n <=? 90))%nat then ascii_of_nat (n + 32) else c.

Fixpoint lower (s : string) : string :=
  match s with
  | EmptyString => EmptyString
  | String c r => String (lower_char c) (lower r)
  end.

(** ** Content types *)

(** Lines 357-363. *)
Definition content_types : dict string :=
  [ (".mp4", "video/mp4");
    (".m3u8", "application/vnd.apple.mpegurl");
    (".ts", "video/mp2t");
    (".jpg", "image/jpeg");
    (".png", "image/png") ].

(** Lines 354-364. *)
Definition _get_content_type (file_path : string) : string :=
  let extension := lower (path_suffix file_path) in
  get_default content_types extension "application/octet-stream".

(** ** The walk and the client *)

(** The object state of an [S3VideoUploader]; its client is part of the
    environment. *)
Record uploader : Type := mkUploader {
  bucket_name : string
}.

(** The arguments of one call of [s3_client.upload_file]. *)
Record upload : Type := mkUpload {
  u_filename : string;
  u_bucket : string;
  u_key : string;
  u_content_type : string
}.

(** How a call of [upload_file] ends: it returns, it raises
    [ClientError] (or a subclass), or it raises something else. *)
Inductive upload_outcome : Type :=
| Stored
| RaisedClientError
| RaisedOther (e : exn).

Inductive s3_event : Type :=
| Uploaded (u : upload) (outcome : upload_outcome)
| S3Logged (l : level) (msg : string).

(** The environment of an upload.  [rglob] is what
    [Path(local_dir).rglob('*')] yields, each path given relative to
    [local_dir] with the answer of its [is_file()]; [upload_file] is the
    outcome of a call of the client given everything that happened
    before it. *)
Record S3Env : Type := mkS3Env {
  rglob : string -> list (string * bool);
  upload_file : list s3_event -> upload -> upload_outcome
}.

(** Line 334. *)
Definition s3_key (video_id relative_path : string) : string :=
  "videos/" ++ video_id ++ "/" ++ relative_path.

(** Line 344. *)
Definition s3_url (bucket key : string) : string :=
  "https://" ++ bucket ++ ".s3.amazonaws.com/" ++ key.

(** The call of lines 337-342 for the file at [relative_path]. *)
Definition upload_of (self : uploader) (video_id local_dir relative_path : string)
  : upload :=
  let file_path := path_join local_dir relative_path in
  mkUpload file_path (bucket_name self) (s3_key video_id relative_path)
           (_get_content_type file_path).

(** Lines 331-350: the loop over the paths of the walk.  The messages are
    those of lines 347 and 350, the second without the text of the
    exception. *)
Fixpoint upload_loop (s3 : S3Env) (self : uploader) (video_id local_dir : string)
         (paths : list (string * bool)) (uploaded_files : dict string)
         (h : list s3_event) : result (dict string) * list s3_event :=
  match paths with
  | [] => (Ok uploaded_files, [])
  | (relative_path, is_file) :: rest =>
      if is_file then
        let u := upload_of self video_id local_dir relative_path in
        match upload_file s3 h u with
        | Stored =>
            let url := s3_url (bucket_name self) (s3_key video_id relative_path) in
            let o := [Uploaded u Stored;
                      S3Logged INFO ("Uploaded " ++ relative_path ++ " to S3")] in
            let '(r, o') :=
              upload_loop s3 self video_id local_dir rest
                          (dict_set uploaded_files relative_path url)
                          (h ++ o)%list in
            (r, (o ++ o')%list)
        | RaisedClientError =>
            let o := [Uploaded u RaisedClientError;
                      S3Logged ERROR ("Error uploading " ++ relative_path)] in
            let '(r, o') :=
              upload_loop s3 self video_id local_dir rest uploaded_files
                          (h ++ o)%list in
            (r, (o ++ o')%list)
        | RaisedOther e => (Raise e, [Uploaded u (RaisedOther e)])
        end
      else upload_loop s3 self video_id local_dir rest uploaded_files h
  end.

(** Lines 325-352. *)
Definition upload_video_files (s3 : S3Env) (self : uploader)
           (video_id local_dir : string) (h : list s3_event)
  : result (dict string) * list s3_event :=
  upload_loop s3 self video_id local_dir (rglob s3 local_dir) [] h.


(* ================================================================== *)
(** * The words of the statements *)

(** ** What a log shows

    Projections of a log: the encodes, segmentations and still-frame
    extractions that were attempted, each with its outcome, the files
    written and the warnings. *)

(** The command exited with zero. *)
Definition succeeded (r : completed) : bool := returncode r =? 0.

Definition encode_of (e : event) : list (string * bool) :=
  match e with
  | Ran (FfmpegEncode _ _ resolution _ _ _ _ _) r => [(resolution, succeeded r)]
  | _ => []
  end.

Definition hls_of (e : event) : list (string * bool) :=
  match e with
  | Ran (FfmpegHls _ _ _ resolution) r => [(resolution, succeeded r)]
  | _ => []
  end.

Definition thumb_of (e : event) : list (number * bool) :=
  match e with
  | Ran (FfmpegThumb t _ _) r => [(t, succeeded r)]
  | _ => []
  end.

Definition preview_of (e : event) : list bool :=
  match e with
  | Ran (FfmpegPreview _ _ _) r => [succeeded r]
  | _ => []
  end.

Definition write_of (e : event) : list (string * string) :=
  match e with
  | Wrote path text => [(path, text)]
  | _ => []
  end.

Definition warning_of (e : event) : list string :=
  match e with
  | Logged WARNING msg => [msg]
  | _ => []
  end.

Definition encode_attempts (o : list event) := flat_map encode_of o.

Definition hls_attempts (o : list event) := flat_map hls_of o.

Definition thumb_attempts (o : list event) := flat_map thumb_of o.

Definition preview_attempts (o : list event) := flat_map preview_of o.

Definition writes (o : list event) := flat_map write_of o.

Definition warnings (o : list event) := flat_map warning_of o.

(** The labels whose attempt succeeded, in order. *)
Definition successes {K} (attempts : list (K * bool)) : list K :=
  map fst (filter snd attempts).

Arguments succeeded : simpl never.

(** The timestamps of the still frames a run asked for, in order. *)
Definition timestamps (o : list event) : list Q :=
  map (fun a => to_Q (fst a)) (thumb_attempts o).

(** A computation is quiet for a projection when nothing it adds to the
    log shows under it. *)
Definition quiet {X A} (p : event -> list X) (m : M A) : Prop :=
  forall h, flat_map p (snd (m h)) = [].

(** ** Paths, commands and messages of the source *)

(** The command of lines 171-185 for a preset whose bit rate is [kbps]. *)
Definition encode_command (input_file output_dir resolution : string)
           (p : preset) (kbps : Z) : command :=
  FfmpegEncode input_file (path_join output_dir (resolution ++ ".mp4"))
               resolution (width p) (height p) (bitrate p)
               (py_str_int (kbps * 2) ++ "k") (audio_bitrate p).

(** Is the label in the catalog? *)
Definition known (self : transcoder) (l : string) : bool :=
  dict_mem (presets self) l.

(** The warning of line 74. *)
Definition skip_message (l : string) : string :=
  "Unknown resolution: " ++ l ++ ", skipping".

(** The file a rendition is encoded to (line 169). *)
Definition rendition_path (video_output_dir l : string) : string :=
  path_join video_output_dir (l ++ ".mp4").

(** A variant as the loop of lines 206-232 builds it from the catalog. *)
Definition variant_ok (self : transcoder) (v : variant) : Prop :=
  exists p kbps,
    dict_get (presets self) (v_resolution v) = Some p /\
    bitrate_kbps p = Ok kbps /\
    v_bandwidth v = kbps * 1000 /\
    v_playlist v = v_resolution v ++ ".m3u8".

(** The first two lines of every master playlist (lines 236-237). *)
Definition header : string :=
  "#EXTM3U" ++ nl ++ "#EXT-X-VERSION:3" ++ nl ++ nl.

(** Where the master playlist goes (lines 198-201). *)
Definition master_path (output_dir : string) : string :=
  path_join (path_join output_dir "hls") "master.m3u8".

(** ** Sampling times *)

(** Lines 263 and 267 over any kind of number: [interval = duration /
    (count + 1)], then [interval * i] for [i] in [range(1, count + 1)]. *)
Definition sample_times {F} (div mul : F -> Z -> F) (duration : F) (count : Z)
  : list F :=
  let interval := div duration (count + 1) in
  map (fun i => mul interval i) (py_range 1 (count + 1)).

(** Division and multiplication of a float by an int, floats being
    rationals. *)
Definition Qdiv_int (q : Q) (z : Z) : Q := Qdiv q (inject_Z z).

Definition Qmul_int (q : Q) (z : Z) : Q := Qmult q (inject_Z z).

(** [thumb_NN.jpg] in the thumbnails directory (line 268). *)
Definition thumb_path (thumbnails_dir : string) (i : Z) : string :=
  path_join thumbnails_dir ("thumb_" ++ fmt_02d i ++ ".jpg").

(** ** Runs *)

(** The labels the run goes through (lines 46-47). *)
Definition requested (self : transcoder) (resolutions : option (list string))
  : list string :=
  match resolutions with
  | None => dict_keys (presets self)
  | Some l => l
  end.

(** [input_path] and [video_output_dir] of lines 49 and 60. *)
Definition input_path (self : transcoder) (input_file : string) : string :=
  path_join (input_dir self) input_file.

Definition video_output_dir (self : transcoder) (video_id : string) : string :=
  path_join (output_dir self) video_id.

(** The run wrote exactly one file, at [path], and it is the master
    playlist whose stream entries are those of [vs], in that order. *)
Definition manifest_lists (self : transcoder) (o : list event) (path : string)
           (vs : list variant) : Prop :=
  exists body,
    stream_infs self vs = Ok body /\
    writes o = [(path, header ++ body)].

(** The labels of the default catalog, in declaration order. *)
Definition ladder : list string := ["2160p"; "1080p"; "720p"; "480p"; "360p"].

(** ** Orders on variants *)

Definition key_ge {A} (key : A -> Z) (a b : A) : Prop := key a >= key b.

Definition bandwidth_gt (a b : variant) : Prop := v_bandwidth a > v_bandwidth b.

(** Every preset of the catalog has a bit rate [int] can read once the
    [k] is removed. *)
Definition catalog_ok (self : transcoder) : Prop :=
  forall l p, dict_get (presets self) l = Some p -> is_ok (bitrate_kbps p) = true.

(** The first thing a run logs (line 54). *)
Definition start_message (video_id : string) : event :=
  Logged INFO ("Starting transcoding for video " ++ video_id).

(** ** Binary64 *)

(** A Python [int] as a [float]; exact for the integers from 0 to
    [2^53], far beyond the counts the sampler is given. *)
Definition f64_of_int (z : Z) : float := PrimFloat.of_uint63 (Uint63.of_Z z).

(** [x / n] and [x * n] for a float [x] and an int [n]. *)
Definition f64_div_int (x : float) (n : Z) : float :=
  PrimFloat.div x (f64_of_int n).

Definition f64_mul_int (x : float) (n : Z) : float :=
  PrimFloat.mul x (f64_of_int n).

(** The rational a finite binary64 number stands for. *)
Definition f64_exact (x : float) : option Q :=
  match Prim2SF x with
  | SpecFloat.S754_zero _ => Some (inject_Z 0)
  | SpecFloat.S754_finite s m e =>
      let magnitude :=
        match e with
        | Z0 => inject_Z (Zpos m)
        | Zpos p => inject_Z (Zpos m * 2 ^ Zpos p)
        | Zneg p => Qmake (Zpos m) (2 ^ p)
        end in
      Some (if s then Qopp magnitude else magnitude)
  | _ => None
  end.

(** [|x - q| <= tolerance] *)
Definition f64_close (tolerance : Q) (x : float) (q : Q) : bool :=
  match f64_exact x with
  | Some v => Qle_bool (Qabs (Qminus v q)) tolerance
  | None => false
  end.

(** Each number is less than the next. *)
Fixpoint f64_increasing (l : list float) : bool :=
  match l with
  | x :: ((y :: _) as rest) => PrimFloat.ltb x y && f64_increasing rest
  | _ => true
  end.

(** The timestamps the formula gives for 30 seconds and 10 frames:
    [30 * i / 11] for [i] from 1 to 10. *)
Definition thirty_seconds_ten_frames : list Q :=
  map (fun i => Qmake (30 * i) 11) (py_range 1 11).

(** The variants of the default catalog, in declaration order. *)
Definition default_variants : list variant :=
  [ mkVariant "2160p" 15000000 "2160p.m3u8";
    mkVariant "1080p" 5000000 "1080p.m3u8";
    mkVariant "720p" 2500000 "720p.m3u8";
    mkVariant "480p" 1000000 "480p.m3u8";
    mkVariant "360p" 600000 "360p.m3u8" ].




(** The variants of 1080p, 720p and 480p, and their master playlist. *)
Definition three_variants : list variant :=
  [ mkVariant "1080p" 5000000 "1080p.m3u8";
    mkVariant "720p" 2500000 "720p.m3u8";
    mkVariant "480p" 1000000 "480p.m3u8" ].

Definition three_variant_manifest : string :=
  "#EXTM3U" ++ nl ++
  "#EXT-X-VERSION:3" ++ nl ++ nl ++
  "#EXT-X-STREAM-INF:BANDWIDTH=5000000,RESOLUTION=1920x1080" ++ nl ++
  "1080p.m3u8" ++ nl ++ nl ++
  "#EXT-X-STREAM-INF:BANDWIDTH=2500000,RESOLUTION=1280x720" ++ nl ++
  "720p.m3u8" ++ nl ++ nl ++
  "#EXT-X-STREAM-INF:BANDWIDTH=1000000,RESOLUTION=854x480" ++ nl ++
  "480p.m3u8" ++ nl ++ nl.

(** ** Frame rates *)

(** [str(a) + "/" + str(b)] *)
Definition fraction (a b : Z) : string := py_str_int a ++ "/" ++ py_str_int b.

(** Results that are not the exception line 162 catches. *)
Definition tame {A} (r : result A) : Prop := r <> Raise CalledProcessError.

(** Split text at its first slash. *)
Fixpoint split_slash (s : string) : option (string * string) :=
  match s with
  | EmptyString => None
  | String c r =>
      if Ascii.eqb c "/" then Some (EmptyString, r)
      else match split_slash r with
           | Some (a, b) => Some (String c a, b)
           | None => None
           end
  end.

(** Text of the form [a/b] with [a] an integer and [b] a positive
    integer, both in decimal. *)
Definition fraction_text (s : string) : bool :=
  match split_slash s with
  | Some (a, b) =>
      match NilZero.int_of_string a, NilZero.int_of_string b with
      | Some _, Some d => 0 <? Z.of_int d
      | _, _ => false
      end
  | None => false
  end.

(** The prober's output has a video stream whose frame rate is the text
    [s]. *)
Definition video_frame_rate (stdout : completed) (s : string) : Prop :=
  exists data streams vs,
    json_loads stdout = Ok data /\
    rbind (subscript data "streams") py_iter = Ok streams /\
    first_stream "video" streams = Ok (PDict vs) /\
    dict_get vs "r_frame_rate" = Some (PStr s).

(** ** More of what a log shows *)

(** The stage of a run that starts a command. *)
Inductive stage : Type :=
| Probing
| Encoding
| Segmenting
| Sampling
| Previewing.

Definition stage_of (c : command) : stage :=
  match c with
  | Ffprobe _ => Probing
  | FfmpegEncode _ _ _ _ _ _ _ _ => Encoding
  | FfmpegHls _ _ _ _ => Segmenting
  | FfmpegThumb _ _ _ => Sampling
  | FfmpegPreview _ _ _ => Previewing
  end.

Definition command_of (e : event) : list command :=
  match e with
  | Ran c _ => [c]
  | _ => []
  end.

(** The external commands of a log, in the order they were started. *)
Definition commands (o : list event) : list command := flat_map command_of o.

Definition dir_of (e : event) : list string :=
  match e with
  | MadeDir path => [path]
  | _ => []
  end.

(** The directories a log shows being made. *)
Definition made_dirs (o : list event) : list string := flat_map dir_of o.

Definition thumb_file_of (e : event) : list (string * bool) :=
  match e with
  | Ran (FfmpegThumb _ _ output_file) r => [(output_file, succeeded r)]
  | _ => []
  end.

(** The still frames a log shows being asked for, by output file. *)
Definition thumb_files (o : list event) : list (string * bool) :=
  flat_map thumb_file_of o.

(** Every command of the log that exited non-zero is followed at once by
    an error message. *)
Fixpoint failures_logged (o : list event) : bool :=
  match o with
  | [] => true
  | Ran _ r :: rest =>
      (succeeded r
       || match rest with
          | Logged ERROR _ :: _ => true
          | _ => false
          end)
      && failures_logged rest
  | _ :: rest => failures_logged rest
  end.

(** A computation from which the exception of a failed command never
    comes out. *)
Definition contained {A} (m : M A) : Prop := forall h, tame (fst (m h)).


(** [keys] with [k] added at the end unless it is there already: what
    [d[k] = v] does to the keys of [d]. *)
Definition add_key (keys : list string) (k : string) : list string :=
  if existsb (String.eqb k) keys then keys else (keys ++ [k])%list.

(** The items of a list in the order of their first occurrence. *)
Definition first_occurrences (l : list string) : list string :=
  fold_left add_key l [].

(** The encode of [resolution] with the preset the catalog has for it. *)
Definition encodes_with_preset (self : transcoder)
           (input_file output_dir : string) (c : command) : Prop :=
  exists resolution p kbps,
    dict_get (presets self) resolution = Some p /\
    bitrate_kbps p = Ok kbps /\
    c = encode_command input_file output_dir resolution p kbps.

(** A computation whose log accounts for every failed command. *)
Definition accounted {A} (m : M A) : Prop :=
  forall h, failures_logged (snd (m h)) = true.

(** Where the preview clip goes (line 292). *)
Definition preview_path (output_dir : string) : string :=
  path_join output_dir "preview.mp4".

(** Where the variant playlist and the segments of a label go
    (lines 208-219). *)
Definition variant_path (output_dir l : string) : string :=
  path_join (path_join output_dir "hls") (l ++ ".m3u8").

Definition segment_pattern (output_dir l : string) : string :=
  path_join (path_join output_dir "hls") (l ++ "_%03d.ts").

(** The last thing a run logs (line 112). *)
Definition completed_message (video_id : string) : event :=
  Logged INFO ("Transcoding completed for video " ++ video_id).

(** ** The keys of the metadata *)

(** The entries every metadata dictionary built by lines 141-146 has,
    those lines 149-154 add for a video stream, and those lines 157-158
    add for an audio stream. *)
Definition format_keys : list string := ["duration"; "size"; "bitrate"; "format"].

Definition video_keys : list string := ["width"; "height"; "codec"; "fps"].

Definition audio_keys : list string := ["audio_codec"; "audio_channels"].

(** The stream is not of the kind looked for, and says so. *)
Definition other_kind (kind : string) (s : pyval) : Prop :=
  exists c, subscript s "codec_type" = Ok c /\ eq_str c kind = false.

(** ** Words about uploads *)

Definition upload_event_of (e : s3_event) : list (upload * upload_outcome) :=
  match e with
  | Uploaded u outcome => [(u, outcome)]
  | S3Logged _ _ => []
  end.

(** The calls of the client a log shows, each with its outcome. *)
Definition uploads (o : list s3_event) : list (upload * upload_outcome) :=
  flat_map upload_event_of o.

(** The regular files of a walk. *)
Definition regular_files (paths : list (string * bool)) : list string :=
  map fst (filter snd paths).

(** The character does not occur in the text. *)
Fixpoint no_char (c : ascii) (s : string) : bool :=
  match s with
  | EmptyString => true
  | String a r => negb (Ascii.eqb a c) && no_char c r
  end.

(** A file name stem: not empty, no slash in it, and not starting with a
    dot. *)
Definition plain_stem (s : string) : bool :=
  match s with
  | EmptyString => false
  | String a _ => negb (Ascii.eqb a ".") && no_char "/" s
  end.

(* ================================================================== *)
(** ** Sample environments *)

(** What ffprobe prints for a clip with one video and one audio stream. *)
Definition probe_output (duration frame_rate : string) : pyval :=
  PDict
    [("streams",
      PList
        [PDict [("codec_type", PStr "video"); ("codec_name", PStr "h264");
                ("width", PInt 1920); ("height", PInt 1080);
                ("r_frame_rate", PStr frame_rate)];
         PDict [("codec_type", PStr "audio"); ("codec_name", PStr "aac");
                ("channels", PInt 2)]]);
     ("format",
      PDict [("format_name", PStr "mov,mp4,m4a,3gp,3g2,mj2");
             ("duration", PStr duration); ("size", PStr "1048576");
             ("bit_rate", PStr "279620")])].

(** An evaluator that knows no name: outside arithmetic, [eval] raises. *)
Definition no_eval (s : string) : result pyval :=
  Raise (OtherError "NameError").

(** Every file exists, the prober prints [probe_output], every ffmpeg
    command exits with [ffmpeg_exit] of it. *)
Definition sample_env (duration frame_rate : string) (ffmpeg_exit : command -> Z)
  : Env :=
  mkEnv (fun _ => true)
        (fun _ c =>
           match c with
           | Ffprobe _ => mkCompleted 0 (Some (probe_output duration frame_rate))
           | _ => mkCompleted (ffmpeg_exit c) None
           end)
        no_eval.

(** A 30 second clip at 30000/1001 frames per second; all tools succeed. *)
Definition studio : Env := sample_env "30.000000" "30000/1001" (fun _ => 0).

(** As [studio], but the encoder fails on 720p. *)
Definition studio_720p_fails : Env :=
  sample_env "30.000000" "30000/1001"
             (fun c => match c with
                       | FfmpegEncode _ _ "720p" _ _ _ _ _ => 1
                       | _ => 0
                       end).

(** As [studio], but the encoder fails on every label. *)
Definition studio_no_encoder : Env :=
  sample_env "30.000000" "30000/1001"
             (fun c => match c with
                       | FfmpegEncode _ _ _ _ _ _ _ _ => 1
                       | _ => 0
                       end).

(** As [studio], but the prober exits with 1. *)
Definition studio_no_prober : Env :=
  mkEnv (fun _ => true)
        (fun _ c =>
           match c with
           | Ffprobe _ => mkCompleted 1 None
           | _ => mkCompleted 0 None
           end)
        no_eval.

(** As [studio], but what the prober prints is not JSON. *)
Definition studio_garbled_prober : Env :=
  mkEnv (fun _ => true) (fun _ _ => mkCompleted 0 None) no_eval.


(** A clip whose frame rate the prober gives as the text [1+1]. *)
Definition studio_sum_rate : Env := sample_env "30.000000" "1+1" (fun _ => 0).

(** A transcoder whose only preset gives its bit rate in megabits, which
    line 179 cannot read. *)
Definition mislabelled : transcoder :=
  mkTranscoder "./uploads" "./transcoded"
               [("720p", mkPreset 1280 720 "2.5M" "128k")].


(** A clip whose frame rate the prober gives as [0/0]. *)
Definition studio_unknown_rate : Env :=
  sample_env "30.000000" "0/0" (fun _ => 0).

(** A walk that finds a directory and three files; the client stores all
    but the thumbnail, on which it raises [ClientError]. *)
Definition sample_s3 : S3Env :=
  mkS3Env (fun _ => [("hls", false); ("hls/master.m3u8", true);
                     ("thumbnails/thumb_01.jpg", true); ("720p.MP4", true)])
          (fun _ u =>
             if String.eqb (u_content_type u) "image/jpeg"
             then RaisedClientError else Stored).

(* ================================================================== *)
(** * Reasoning about runs *)

(** ** The monad *)

Lemma bind_inv {A B} (m : M A) (k : A -> M B) h r o :
  bind m k h = (r, o) ->
  (exists e, m h = (Raise e, o) /\ r = Raise e) \/
  (exists a o1 o2,
      m h = (Ok a, o1) /\ k a (h ++ o1)%list = (r, o2) /\ o = (o1 ++ o2)%list).
Proof.
  unfold bind. destruct (m h) as [[a | e] o1].
  - destruct (k a (h ++ o1)%list) as [r' o2] eqn:K. intros [= <- <-].
    right. exists a, o1, o2. auto.
  - intros [= <- <-]. left. exists e. auto.
Qed.

Lemma bind_ok_inv {A B} (m : M A) (k : A -> M B) h b o :
  bind m k h = (Ok b, o) ->
  exists a o1 o2,
    m h = (Ok a, o1) /\ k a (h ++ o1)%list = (Ok b, o2) /\ o = (o1 ++ o2)%list.
Proof.
  intros H. apply bind_inv in H.
  destruct H as [(e & _ & E) | H]; [discriminate | exact H].
Qed.

Lemma bind_lift_ok {A B} (a : A) (k : A -> M B) h :
  bind (lift (Ok a)) k h = k a h.
Proof.
  unfold bind, lift. rewrite List.app_nil_r. destruct (k a h). reflexivity.
Qed.

Lemma bind_lift_raise {A B} (e : exn) (k : A -> M B) h :
  bind (lift (Raise e)) k h = (Raise e, []).
Proof. reflexivity. Qed.

(** ** Computations that leave a projection empty *)

Section Quiet.

Context {X : Type} (p : event -> list X).

Lemma quiet_ret {A} (a : A) : quiet p (ret a).
Proof. intros h. reflexivity. Qed.

Lemma quiet_raise {A} (e : exn) : quiet p (@raise A e).
Proof. intros h. reflexivity. Qed.

Lemma quiet_lift {A} (r : result A) : quiet p (lift r).
Proof. intros h. reflexivity. Qed.

Lemma quiet_emit (e : event) : p e = [] -> quiet p (emit e).
Proof. intros E h. simpl. rewrite E. reflexivity. Qed.

Lemma quiet_bind {A B} (m : M A) (k : A -> M B) :
  quiet p m -> (forall a, quiet p (k a)) -> quiet p (bind m k).
Proof.
  intros Hm Hk h. unfold bind. specialize (Hm h).
  destruct (m h) as [[a | e] o1]; simpl in *; [| exact Hm].
  specialize (Hk a (h ++ o1)%list).
  destruct (k a (h ++ o1)%list) as [r o2]. simpl in *.
  rewrite flat_map_app, Hm, Hk. reflexivity.
Qed.

Lemma quiet_except {A} (body handler : M A) :
  quiet p body -> quiet p handler ->
  quiet p (except_called_process_error body handler).
Proof.
  intros Hb Hh h. unfold except_called_process_error. specialize (Hb h).
  destruct (body h) as [[a | e] o1]; simpl in *; [exact Hb |].
  destruct e; simpl; try exact Hb.
  specialize (Hh (h ++ o1)%list).
  destruct (handler (h ++ o1)%list) as [r o2]. simpl in *.
  rewrite flat_map_app, Hb, Hh. reflexivity.
Qed.

Lemma quiet_for_each {A S} (body : S -> A -> M S) (l : list A) :
  (forall s x, quiet p (body s x)) -> forall s, quiet p (for_each body l s).
Proof.
  intros Hb. induction l as [| x l IH]; intros s; simpl.
  - apply quiet_ret.
  - apply quiet_bind; auto.
Qed.

Lemma quiet_run env (c : command) :
  (forall r, p (Ran c r) = []) -> quiet p (run env c).
Proof.
  intros E h. unfold run.
  destruct (returncode (respond env h c) =? 0); simpl; rewrite E; reflexivity.
Qed.

Lemma quiet_if {A} (b : bool) (m1 m2 : M A) :
  quiet p m1 -> quiet p m2 -> quiet p (if b then m1 else m2).
Proof. destruct b; auto. Qed.

End Quiet.

Ltac quiet_tac :=
  repeat (intros; first
    [ apply quiet_ret | apply quiet_raise | apply quiet_lift
    | apply quiet_emit; reflexivity
    | apply quiet_run; intros; reflexivity
    | apply quiet_bind | apply quiet_except | apply quiet_for_each
    | apply quiet_if
    | match goal with
      | |- quiet _ (match ?x with _ => _ end) => destruct x
      | |- quiet _ (let '(_, _) := ?x in _) => destruct x
      end ]).

Section QuietStages.

Variable env : Env.
Variable self : transcoder.

Lemma probe_quiet {X} (p : event -> list X) input_file :
  (forall r, p (Ran (Ffprobe input_file) r) = []) ->
  (forall l msg, p (Logged l msg) = []) ->
  quiet p (_get_video_metadata env input_file).
Proof.
  intros E1 E2. unfold _get_video_metadata, log_error.
  apply quiet_except; apply quiet_bind; intros;
    try apply quiet_lift; try apply quiet_ret.
  - apply quiet_run. exact E1.
  - apply quiet_emit. apply E2.
Qed.

End QuietStages.

(** ** The stages, one external command at a time *)

Section Stages.

Variable env : Env.
Variable self : transcoder.

Lemma run_eq c h :
  run env c h =
  (if succeeded (respond env h c) then Ok (respond env h c)
   else Raise CalledProcessError,
   [Ran c (respond env h c)]).
Proof.
  unfold run, succeeded. destruct (returncode (respond env h c) =? 0); reflexivity.
Qed.

(** The prober: a non-zero exit is logged and answered with an empty
    dictionary; otherwise the metadata is whatever the extraction gives,
    exceptions included. *)
Lemma get_video_metadata_eq input_file h :
  _get_video_metadata env input_file h =
  let c := Ffprobe input_file in
  let r := respond env h c in
  let failed := (Ok [], [Ran c r; Logged ERROR "Error getting video metadata"]) in
  if succeeded r then
    match extract_metadata env r with
    | Raise CalledProcessError => failed
    | other => (other, [Ran c r])
    end
  else failed.
Proof.
  unfold _get_video_metadata, except_called_process_error, bind.
  rewrite run_eq. cbv zeta.
  destruct (succeeded (respond env h (Ffprobe input_file))); [| reflexivity].
  unfold lift.
  destruct (extract_metadata env (respond env h (Ffprobe input_file)))
    as [md | e]; [reflexivity |].
  destruct e; reflexivity.
Qed.

Lemma transcode_resolution_eq input_file output_dir resolution p h :
  _transcode_resolution env input_file output_dir resolution p h =
  match bitrate_kbps p with
  | Raise e => (Raise e, [])
  | Ok kbps =>
      let c := encode_command input_file output_dir resolution p kbps in
      let r := respond env h c in
      if succeeded r then
        (Ok (Some (path_join output_dir (resolution ++ ".mp4"))),
         [Ran c r; Logged INFO ("Successfully transcoded to " ++ resolution)])
      else
        (Ok None,
         [Ran c r; Logged ERROR ("Error transcoding to " ++ resolution)])
  end.
Proof.
  unfold _transcode_resolution.
  destruct (bitrate_kbps p) as [kbps | e]; [| reflexivity].
  rewrite bind_lift_ok. fold (encode_command input_file output_dir resolution p kbps).
  unfold except_called_process_error, bind. rewrite run_eq. cbv zeta.
  destruct (succeeded _); reflexivity.
Qed.

Lemma generate_preview_eq input_file output_dir seconds h :
  _generate_preview env input_file output_dir seconds h =
  let out := path_join output_dir "preview.mp4" in
  let c := FfmpegPreview input_file seconds out in
  let r := respond env h c in
  if succeeded r then
    (Ok (Some out), [Ran c r; Logged INFO "Preview clip generated successfully"])
  else (Ok None, [Ran c r; Logged ERROR "Error generating preview"]).
Proof.
  unfold _generate_preview, except_called_process_error, bind.
  rewrite run_eq. cbv zeta. destruct (succeeded _); reflexivity.
Qed.

Lemma path_join_nonempty a b : b <> "" -> path_join a b <> "".
Proof.
  intros Hb. unfold path_join. destruct b as [| c b]; [congruence |].
  assert (forall x : string, x ++ String c b <> "") as N
      by (intros x; destruct x; discriminate).
  destruct (ends_with_slash a).
  - destruct c as [[|] [|] [|] [|] [|] [|] [|] [|]]; try apply N; discriminate.
  - assert (a ++ "/" ++ String c b <> "") by (destruct a; discriminate).
    destruct c as [[|] [|] [|] [|] [|] [|] [|] [|]]; try assumption; discriminate.
Qed.

Lemma rendition_path_truthy output_dir resolution :
  truthy (PStr (path_join output_dir (resolution ++ ".mp4"))) = true.
Proof.
  simpl. apply negb_true_iff, String.eqb_neq, path_join_nonempty.
  destruct resolution; discriminate.
Qed.

(** One turn of the loop over the requested labels. *)
Lemma transcode_one_eq input_path video_output_dir resolutions resolution h :
  transcode_one env self input_path video_output_dir resolutions resolution h =
  match dict_get (presets self) resolution with
  | None =>
      (Ok resolutions,
       [Logged WARNING ("Unknown resolution: " ++ resolution ++ ", skipping")])
  | Some p =>
      let started := Logged INFO ("Transcoding to " ++ resolution) in
      match bitrate_kbps p with
      | Raise e => (Raise e, [started])
      | Ok kbps =>
          let c := encode_command input_path video_output_dir resolution p kbps in
          let r := respond env (h ++ [started])%list c in
          if succeeded r then
            (Ok (dict_set resolutions resolution
                          (path_join video_output_dir (resolution ++ ".mp4"))),
             [started; Ran c r;
              Logged INFO ("Successfully transcoded to " ++ resolution)])
          else
            (Ok resolutions,
             [started; Ran c r;
              Logged ERROR ("Error transcoding to " ++ resolution)])
      end
  end.
Proof.
  unfold transcode_one.
  destruct (dict_get (presets self) resolution) as [p |]; [| reflexivity].
  unfold log_info, bind, emit. rewrite transcode_resolution_eq.
  destruct (bitrate_kbps p) as [kbps | e]; [| reflexivity].
  cbv zeta. destruct (succeeded _); [| reflexivity].
  rewrite rendition_path_truthy. reflexivity.
Qed.

End Stages.

(** ** Dictionaries *)

Lemma dict_mem_set {V} (d : dict V) k v l :
  dict_mem (dict_set d k v) l = dict_mem d l || String.eqb l k.
Proof.
  unfold dict_mem. induction d as [| [k' v'] d IH]; simpl.
  - destruct (String.eqb l k); reflexivity.
  - destruct (String.eqb k k') eqn:E; simpl.
    + apply String.eqb_eq in E. subst k'.
      destruct (String.eqb l k); [reflexivity |].
      rewrite orb_false_r. reflexivity.
    + destruct (String.eqb l k'); [reflexivity | exact IH].
Qed.

Lemma dict_get_set {V} (d : dict V) k v l :
  dict_get (dict_set d k v) l = if String.eqb l k then Some v else dict_get d l.
Proof.
  induction d as [| [k' v'] d IH]; simpl.
  - reflexivity.
  - destruct (String.eqb k k') eqn:E; simpl.
    + apply String.eqb_eq in E. subst k'. destruct (String.eqb l k); reflexivity.
    + destruct (String.eqb l k') eqn:E'; [| exact IH].
      apply String.eqb_eq in E'. subst k'.
      rewrite String.eqb_sym, E. reflexivity.
Qed.

Lemma dict_mem_keys {V} (d : dict V) l :
  dict_mem d l = true <-> In l (dict_keys d).
Proof.
  unfold dict_mem. induction d as [| [k v] d IH]; simpl.
  - split; [discriminate | tauto].
  - destruct (String.eqb l k) eqn:E.
    + apply String.eqb_eq in E. subst. split; auto.
    + apply String.eqb_neq in E. rewrite IH. split; [auto |].
      intros [H | H]; [congruence | exact H].
Qed.

Lemma dict_keys_set {V} (d : dict V) k v :
  dict_keys (dict_set d k v) =
  if dict_mem d k then dict_keys d else (dict_keys d ++ [k])%list.
Proof.
  unfold dict_mem. induction d as [| [k' v'] d IH]; simpl.
  - reflexivity.
  - destruct (String.eqb k k') eqn:E; simpl.
    + apply String.eqb_eq in E. subst. reflexivity.
    + rewrite IH. destruct (dict_get d k); reflexivity.
Qed.

Lemma dict_keys_set_NoDup {V} (d : dict V) k v :
  NoDup (dict_keys d) -> NoDup (dict_keys (dict_set d k v)).
Proof.
  intros H. rewrite dict_keys_set. destruct (dict_mem d k) eqn:E; [exact H |].
  apply NoDup_app; [exact H | repeat constructor; intros [] | ].
  intros x Hx [<- | []]. apply dict_mem_keys in Hx. congruence.
Qed.

(** ** Projections of concatenated logs *)

Lemma successes_app {K} (a b : list (K * bool)) :
  successes (a ++ b) = (successes a ++ successes b)%list.
Proof. unfold successes. rewrite filter_app, map_app. reflexivity. Qed.

Lemma encode_attempts_app a b :
  encode_attempts (a ++ b) = (encode_attempts a ++ encode_attempts b)%list.
Proof. apply flat_map_app. Qed.

Lemma hls_attempts_app a b :
  hls_attempts (a ++ b) = (hls_attempts a ++ hls_attempts b)%list.
Proof. apply flat_map_app. Qed.

Lemma thumb_attempts_app a b :
  thumb_attempts (a ++ b) = (thumb_attempts a ++ thumb_attempts b)%list.
Proof. apply flat_map_app. Qed.

Lemma writes_app a b : writes (a ++ b) = (writes a ++ writes b)%list.
Proof. apply flat_map_app. Qed.

Lemma warnings_app a b : warnings (a ++ b) = (warnings a ++ warnings b)%list.
Proof. apply flat_map_app. Qed.

Lemma thumb_attempts_cons e o :
  thumb_attempts (e :: o) = (thumb_of e ++ thumb_attempts o)%list.
Proof. reflexivity. Qed.

(** ** The loop over the requested labels (lines 72-87) *)

Section EncodeLoop.

Variable env : Env.
Variable self : transcoder.
Variables input_path video_output_dir : string.

(** What one turn shows: an unknown label leaves a warning and nothing
    else; a known one is attempted once, and kept when the encoder
    exits with zero. *)
Lemma transcode_one_inv acc x h acc1 o1 :
  transcode_one env self input_path video_output_dir acc x h = (Ok acc1, o1) ->
  (known self x = false /\ acc1 = acc /\ encode_attempts o1 = [] /\
   warnings o1 = [skip_message x])
  \/
  (known self x = true /\ warnings o1 = [] /\
   exists b, encode_attempts o1 = [(x, b)] /\
             acc1 = if b
                    then dict_set acc x (rendition_path video_output_dir x)
                    else acc).
Proof.
  rewrite transcode_one_eq. unfold known, dict_mem.
  destruct (dict_get (presets self) x) as [p |] eqn:Ep.
  - destruct (bitrate_kbps p) as [kbps | e]; [| discriminate].
    cbv zeta.
    generalize (respond env (h ++ [Logged INFO ("Transcoding to " ++ x)])%list
                        (encode_command input_path video_output_dir x p kbps)).
    intros r. destruct (succeeded r) eqn:Es; intros [= <- <-]; right;
      (split; [reflexivity |]); (split; [reflexivity |]).
    + exists true. split; [| reflexivity].
      unfold encode_attempts. simpl. rewrite Es. reflexivity.
    + exists false. split; [| reflexivity].
      unfold encode_attempts. simpl. rewrite Es. reflexivity.
  - intros [= <- <-]. left. repeat split; reflexivity.
Qed.

Lemma encode_loop_inv ls : forall acc h acc' o,
  for_each (transcode_one env self input_path video_output_dir) ls acc h
  = (Ok acc', o) ->
  map fst (encode_attempts o) = filter (known self) ls /\
  warnings o = map skip_message (filter (fun l => negb (known self l)) ls) /\
  (forall l, dict_mem acc' l =
             dict_mem acc l
             || existsb (String.eqb l) (successes (encode_attempts o))) /\
  (forall l f, dict_get acc' l = Some f ->
               dict_get acc l = Some f \/ f = rendition_path video_output_dir l) /\
  (NoDup (dict_keys acc) -> NoDup (dict_keys acc')).
Proof.
  induction ls as [| x ls IH]; intros acc h acc' o H.
  - simpl in H. injection H as <- <-. simpl.
    repeat split; auto. intros l. rewrite orb_false_r. reflexivity.
  - simpl in H. apply bind_ok_inv in H.
    destruct H as (acc1 & o1 & o2 & H1 & H2 & ->).
    apply IH in H2. destruct H2 as (A2 & W2 & M2 & G2 & N2).
    apply transcode_one_inv in H1.
    rewrite encode_attempts_app, warnings_app, successes_app, map_app.
    simpl filter.
    destruct H1 as [(Kx & -> & E1 & W1) | (Kx & W1 & b & E1 & ->)];
      rewrite Kx, E1, W1; simpl negb; cbv iota.
    + repeat split; auto. simpl. f_equal. exact W2.
    + unfold successes at 1. simpl. destruct b; simpl.
      * repeat split.
        -- f_equal. exact A2.
        -- exact W2.
        -- intros l. rewrite M2, dict_mem_set, orb_assoc. reflexivity.
        -- intros l f Hf. apply G2 in Hf. rewrite dict_get_set in Hf.
           destruct (String.eqb l x) eqn:E.
           ++ apply String.eqb_eq in E. subst x.
              destruct Hf as [[= <-] | Hf]; right; auto.
           ++ exact Hf.
        -- intros Hn. apply N2, dict_keys_set_NoDup, Hn.
      * repeat split; auto. f_equal. exact A2.
Qed.

(** The loop raises only when a known self preset has a bit rate that is not
    a number. *)
Lemma encode_loop_total ls :
  (forall l p, dict_get (presets self) l = Some p -> is_ok (bitrate_kbps p) = true) ->
  forall acc h, exists acc' o,
    for_each (transcode_one env self input_path video_output_dir) ls acc h
    = (Ok acc', o).
Proof.
  intros Hc. induction ls as [| x ls IH]; intros acc h.
  - simpl. eexists _, _. reflexivity.
  - simpl. unfold bind. rewrite transcode_one_eq.
    destruct (dict_get (presets self) x) as [p |] eqn:Ep.
    + specialize (Hc x p Ep). destruct (bitrate_kbps p) as [kbps | e];
        [| discriminate].
      cbv zeta. destruct (succeeded _).
      * edestruct IH as (acc' & o & ->). eexists _, _. reflexivity.
      * edestruct IH as (acc' & o & ->). eexists _, _. reflexivity.
    + edestruct IH as (acc' & o & ->). eexists _, _. reflexivity.
Qed.

End EncodeLoop.

(** ** Building the manifest (lines 195-248) *)

Lemma bitrate_kbps_raises p e : bitrate_kbps p = Raise e -> e = ValueError.
Proof.
  unfold bitrate_kbps, py_int_str.
  destruct (match str_replace "k" "" (bitrate p) with
            | String "+"%char r =>
                match r with
                | String "-"%char _ => None
                | _ => option_map Decimal.Pos (NilZero.uint_of_string r)
                end
            | _ => NilZero.int_of_string (str_replace "k" "" (bitrate p))
            end); congruence.
Qed.

Section Manifest.

Variable env : Env.
Variable self : transcoder.

Lemma hls_variant_inv hls_dir acc l video_file h acc1 o1 :
  hls_variant env self hls_dir acc (l, video_file) h = (Ok acc1, o1) ->
  exists b, hls_attempts o1 = [(l, b)] /\
            if b then exists v, v_resolution v = l /\ variant_ok self v /\
                                acc1 = (acc ++ [v])%list
            else acc1 = acc.
Proof.
  unfold hls_variant, preset_of.
  destruct (dict_get (presets self) l) as [p |] eqn:Ep;
    [| rewrite bind_lift_raise; discriminate].
  rewrite bind_lift_ok.
  unfold except_called_process_error, bind. rewrite run_eq.
  generalize (respond env h
                (FfmpegHls video_file (path_join hls_dir (l ++ "_%03d.ts"))
                   (path_join hls_dir (l ++ ".m3u8")) l)).
  intros r. destruct (succeeded r) eqn:Es.
  - unfold lift. destruct (bitrate_kbps p) as [kbps | e] eqn:Ek.
    + simpl. intros [= <- <-]. exists true. split.
      * unfold hls_attempts. simpl. rewrite Es. reflexivity.
      * eexists. split; [| split; [| reflexivity]]; [reflexivity |].
        exists p, kbps. simpl. auto.
    + apply bitrate_kbps_raises in Ek. subst e. simpl. discriminate.
  - simpl. intros [= <- <-]. exists false. split; [| reflexivity].
    unfold hls_attempts. simpl. rewrite Es. reflexivity.
Qed.

Lemma hls_loop_inv hls_dir items : forall acc h acc' o,
  for_each (hls_variant env self hls_dir) items acc h = (Ok acc', o) ->
  map fst (hls_attempts o) = dict_keys items /\
  exists new, acc' = (acc ++ new)%list /\
              map v_resolution new = successes (hls_attempts o) /\
              Forall (variant_ok self) new.
Proof.
  induction items as [| [l f] items IH]; intros acc h acc' o H.
  - simpl in H. injection H as <- <-. split; [reflexivity |].
    exists []. rewrite List.app_nil_r. repeat split. constructor.
  - simpl in H. apply bind_ok_inv in H.
    destruct H as (acc1 & o1 & o2 & H1 & H2 & ->).
    apply hls_variant_inv in H1. destruct H1 as (b & E1 & Hb).
    apply IH in H2. destruct H2 as (A2 & new & -> & R2 & F2).
    rewrite hls_attempts_app, successes_app, map_app, E1, A2.
    split; [reflexivity |]. unfold successes at 1. simpl.
    destruct b; simpl.
    + destruct Hb as (v & <- & Hv & ->). exists (v :: new).
      rewrite <- List.app_assoc. simpl. repeat split.
      * f_equal. exact R2.
      * constructor; assumption.
    + subst acc1. exists new. auto.
Qed.

Lemma hls_loop_silent {X} (p : event -> list X) hls_dir items acc :
  (forall l msg, p (Logged l msg) = []) ->
  (forall v w x l r, p (Ran (FfmpegHls v w x l) r) = []) ->
  quiet p (for_each (hls_variant env self hls_dir) items acc).
Proof.
  intros Hl Hr. apply quiet_for_each. intros s [l f]. unfold hls_variant.
  apply quiet_bind; [apply quiet_lift |]. intros pr.
  apply quiet_except.
  - apply quiet_bind; [apply quiet_run; intros; apply Hr |].
    intros _. apply quiet_bind; [apply quiet_lift | intros; apply quiet_ret].
  - apply quiet_bind; [apply quiet_emit, Hl | intros; apply quiet_ret].
Qed.

Lemma generate_hls_playlist_inv output_dir resolutions h path o :
  _generate_hls_playlist env self output_dir resolutions h = (Ok path, o) ->
  path = master_path output_dir /\
  map fst (hls_attempts o) = dict_keys resolutions /\
  exists variant_playlists text,
    master_text self variant_playlists = Ok text /\
    writes o = [(path, text)] /\
    map v_resolution variant_playlists = successes (hls_attempts o) /\
    Forall (variant_ok self) variant_playlists.
Proof.
  unfold _generate_hls_playlist. intros H.
  apply bind_ok_inv in H. destruct H as ([] & o0 & oa & H0 & H & ->).
  injection H0 as <-.
  apply bind_ok_inv in H. destruct H as (vps & o1 & ob & H1 & H & ->).
  assert (W : writes o1 = []).
  { match type of H1 with
    | _ ?hh = _ =>
        pose proof (hls_loop_silent write_of (path_join output_dir "hls")
                      resolutions [] (fun _ _ => eq_refl)
                      (fun _ _ _ _ _ => eq_refl) hh) as Q
    end.
    rewrite H1 in Q. exact Q. }
  apply hls_loop_inv in H1. destruct H1 as (A1 & new & -> & R1 & F1).
  apply bind_ok_inv in H. destruct H as (text & o2 & oc & H2 & H & ->).
  unfold lift in H2. injection H2 as H2 <-.
  apply bind_ok_inv in H. destruct H as ([] & o3 & od & H3 & H & ->).
  injection H3 as <-.
  apply bind_ok_inv in H. destruct H as ([] & o4 & oe & H4 & H & ->).
  injection H4 as <-. injection H as <- <-.
  split; [reflexivity |].
  rewrite !hls_attempts_app, !writes_app, W. simpl.
  rewrite !List.app_nil_r.
  split; [exact A1 |]. exists new, text. auto.
Qed.

End Manifest.

(** ** Sampling thumbnails (lines 250-287) *)

Section Thumbnails.

Variable env : Env.
Variable self : transcoder.
Variables input_file thumbnails_dir : string.

Lemma thumbnail_eq interval acc i h :
  thumbnail env input_file thumbnails_dir (NFloat interval) acc i h =
  let c := FfmpegThumb (NFloat (Qmul_int interval i)) input_file
                       (thumb_path thumbnails_dir i) in
  let r := respond env h c in
  if succeeded r then (Ok (acc ++ [thumb_path thumbnails_dir i])%list, [Ran c r])
  else (Ok acc,
        [Ran c r; Logged ERROR ("Error generating thumbnail " ++ py_str_int i)]).
Proof.
  unfold thumbnail. simpl apply_mul. rewrite bind_lift_ok.
  unfold except_called_process_error, bind. rewrite run_eq. cbv zeta.
  fold (thumb_path thumbnails_dir i). fold (Qmul_int interval i).
  destruct (succeeded _); reflexivity.
Qed.

(** The loop never raises: every index is tried, whatever happened to
    the ones before. *)
Lemma thumbnail_loop interval idx : forall acc h,
  exists acc' o,
    for_each (thumbnail env input_file thumbnails_dir (NFloat interval))
             idx acc h = (Ok acc', o) /\
    timestamps o = map (Qmul_int interval) idx /\
    (List.length acc' <= List.length acc + List.length idx)%nat.
Proof.
  induction idx as [| i idx IH]; intros acc h.
  - exists acc, []. simpl. repeat split. lia.
  - simpl for_each. unfold bind. rewrite thumbnail_eq. cbv zeta.
    set (c := FfmpegThumb _ _ _).
    generalize (respond env h c). intros r.
    destruct (succeeded r).
    + destruct (IH (acc ++ [thumb_path thumbnails_dir i])%list (h ++ [Ran c r])%list)
        as (acc' & o & -> & T & L).
      eexists _, _. split; [reflexivity |]. split.
      * unfold timestamps, thumb_attempts in *. simpl. f_equal. exact T.
      * rewrite length_app in L. simpl in *. lia.
    + destruct (IH acc
                   (h ++ [Ran c r;
                          Logged ERROR ("Error generating thumbnail "
                                        ++ py_str_int i)])%list)
        as (acc' & o & -> & T & L).
      eexists _, _. split; [reflexivity |]. split.
      * unfold timestamps, thumb_attempts in *. simpl. f_equal. exact T.
      * simpl. lia.
Qed.

End Thumbnails.

Lemma probe_no_thumbs env input_file h :
  thumb_attempts (snd (_get_video_metadata env input_file h)) = [].
Proof.
  apply (probe_quiet env thumb_of); intros; reflexivity.
Qed.

Lemma Qpos_num_nonzero (q : Q) : (0 < q)%Q -> (Qnum q =? 0) = false.
Proof.
  unfold Qlt. simpl. intros H. apply Z.eqb_neq. lia.
Qed.

(** With a duration that is not zero, every index from 1 to [count] is
    sampled, at the times of [sample_times]. *)
Lemma generate_thumbnails_nonzero env input_file output_dir count h md o1 d :
  _get_video_metadata env input_file
    (h ++ [MadeDir (path_join output_dir "thumbnails")])%list = (Ok md, o1) ->
  dict_get md "duration" = Some (PFloat d) ->
  (Qnum d =? 0) = false ->
  0 <= count ->
  exists thumbnails o,
    _generate_thumbnails env input_file output_dir count h = (Ok thumbnails, o) /\
    timestamps o = sample_times Qdiv_int Qmul_int d count /\
    (List.length thumbnails <= Z.to_nat count)%nat.
Proof.
  intros Hm Hd Hpos Hc. unfold _generate_thumbnails.
  unfold bind at 1. unfold emit at 1. unfold bind at 1. rewrite Hm.
  unfold get_default. rewrite Hd. unfold eq_zero.
  rewrite Hpos. unfold as_number.
  rewrite bind_lift_ok. unfold apply_mul, num_is_zero.
  replace (count + 1 =? 0) with false by (symmetry; apply Z.eqb_neq; lia).
  rewrite bind_lift_ok. unfold bind at 1.
  match goal with
  | |- context [for_each (thumbnail _ _ _ (NFloat ?iv)) ?idx ?acc ?hh] =>
      destruct (thumbnail_loop env input_file
                  (path_join output_dir "thumbnails") iv idx acc hh)
        as (acc' & o & E & T & L)
  end.
  rewrite E. unfold log_info, bind, emit, ret. simpl.
  eexists _, _. split; [reflexivity |]. split.
  - pose proof (probe_no_thumbs env input_file
                  (h ++ [MadeDir (path_join output_dir "thumbnails")])%list) as P.
    rewrite Hm in P. simpl in P.
    unfold timestamps in *.
    rewrite thumb_attempts_cons, !thumb_attempts_app, P. simpl.
    rewrite List.app_nil_r. exact T.
  - unfold py_range in L. rewrite length_map, length_seq in L. simpl in L.
    replace (count + 1 - 1) with count in L by lia. exact L.
Qed.

(** ** The sampling formula over the rationals *)

Lemma StronglySorted_map_seq {A} (R : A -> A -> Prop) (f : nat -> A) n :
  forall a,
    (forall i j, (a <= i)%nat -> (i < j)%nat -> (j < a + n)%nat -> R (f i) (f j)) ->
    StronglySorted R (map f (seq a n)).
Proof.
  induction n as [| n IH]; intros a H; simpl.
  - constructor.
  - constructor.
    + apply IH. intros i j Hi Hij Hj. apply H; lia.
    + apply Forall_forall. intros y Hy. apply in_map_iff in Hy.
      destruct Hy as (j & <- & Hj). apply in_seq in Hj. apply H; lia.
Qed.

Section SampleTimes.

Variable d : Q.
Variable count : Z.
Hypothesis d_pos : (0 < d)%Q.
Hypothesis count_nonneg : 0 <= count.

Let interval : Q := Qdiv_int d (count + 1).

Lemma interval_pos : (0 < interval)%Q.
Proof.
  subst interval. unfold Qdiv_int. apply Qlt_shift_div_l.
  - change 0%Q with (inject_Z 0). rewrite <- Zlt_Qlt. lia.
  - rewrite Qmult_0_l. exact d_pos.
Qed.

Lemma interval_full : (Qmul_int interval (count + 1) == d)%Q.
Proof.
  subst interval. unfold Qmul_int, Qdiv_int. rewrite Qmult_comm.
  apply Qmult_div_r. intros E.
  assert (H : (inject_Z 0 < inject_Z (count + 1))%Q)
    by (rewrite <- Zlt_Qlt; lia).
  rewrite E in H. exact (Qlt_irrefl _ H).
Qed.

Lemma Qmul_int_lt i j : i < j -> (Qmul_int interval i < Qmul_int interval j)%Q.
Proof.
  intros H. unfold Qmul_int. apply Qmult_lt_l; [apply interval_pos |].
  rewrite <- Zlt_Qlt. exact H.
Qed.

Lemma sample_times_length :
  List.length (sample_times Qdiv_int Qmul_int d count) = Z.to_nat count.
Proof.
  unfold sample_times, py_range. rewrite !length_map, length_seq.
  f_equal. lia.
Qed.

Lemma sample_times_nth k :
  (k < Z.to_nat count)%nat ->
  nth_error (sample_times Qdiv_int Qmul_int d count) k =
  Some (Qmul_int (Qdiv_int d (count + 1)) (Z.of_nat k + 1)).
Proof.
  intros H. unfold sample_times, py_range. rewrite map_map.
  replace (count + 1 - 1) with count by lia.
  rewrite nth_error_map.
  rewrite nth_error_nth' with (d := 0%nat) by (rewrite length_seq; exact H).
  rewrite seq_nth by exact H. unfold option_map. rewrite Nat.add_0_l.
  do 2 f_equal. lia.
Qed.

Lemma sample_times_increasing :
  StronglySorted Qlt (sample_times Qdiv_int Qmul_int d count).
Proof.
  unfold sample_times, py_range. rewrite map_map.
  apply StronglySorted_map_seq. intros i j _ Hij _.
  apply Qmul_int_lt. lia.
Qed.

Lemma sample_times_inside :
  Forall (fun t => (0 < t)%Q /\ (t < d)%Q)
         (sample_times Qdiv_int Qmul_int d count).
Proof.
  unfold sample_times, py_range. rewrite map_map.
  apply Forall_forall. intros t Ht. apply in_map_iff in Ht.
  destruct Ht as (k & <- & Hk). apply in_seq in Hk. split.
  - assert (E : (0 == Qmul_int interval 0)%Q)
      by (unfold Qmul_int; rewrite Qmult_0_r; reflexivity).
    rewrite E. apply Qmul_int_lt. lia.
  - rewrite <- interval_full at 2. apply Qmul_int_lt. lia.
Qed.

End SampleTimes.

(** ** A whole run *)

Ltac stage_quiet :=
  unfold _generate_hls_playlist, hls_variant, _generate_thumbnails, thumbnail,
    _generate_preview, _get_video_metadata, transcode_one,
    _transcode_resolution, log_info, log_error, log_warning;
  quiet_tac.

(** Instantiate a quietness fact at the history of a stage equation. *)
Ltac silence p H :=
  match type of H with
  | ?m ?hh = (_, ?o) =>
      let Q := fresh "Q" in
      assert (Q : flat_map p o = []);
      [ let Q' := fresh in
        assert (Q' : quiet p m) by stage_quiet;
        specialize (Q' hh); rewrite H in Q'; exact Q'
      | ]
  end.

Section Run.

Variable env : Env.
Variable self : transcoder.
Variables input_file video_id : string.
Variable resolutions : option (list string).

(** A run that returns went through every stage; what its log shows of
    encodes and warnings comes from the loop over the labels, of
    segmentations and written files from the manifest stage, of still
    frames from the thumbnail stage. *)
Lemma transcode_video_inv h r o :
  transcode_video env self input_file video_id resolutions h = (Ok r, o) ->
  let source := input_path self input_file in
  let target := video_output_dir self video_id in
  path_exists env source = true /\
  r_video_id r = video_id /\
  exists h1 o1 h2 o2 h3 o3 h4 o4 h5 o5,
    _get_video_metadata env source h1 = (Ok (r_metadata r), o1) /\
    for_each (transcode_one env self source target)
             (requested self resolutions) [] h2
    = (Ok (r_resolutions r), o2) /\
    _generate_hls_playlist env self target (r_resolutions r) h3
    = (Ok (r_hls_playlist r), o3) /\
    _generate_thumbnails env source target 10 h4
    = (Ok (r_thumbnails r), o4) /\
    _generate_preview env source target 30 h5 = (Ok (r_preview r), o5) /\
    encode_attempts o = encode_attempts o2 /\
    warnings o = warnings o2 /\
    hls_attempts o = hls_attempts o3 /\
    writes o = writes o3 /\
    thumb_attempts o = thumb_attempts o4 /\
    preview_attempts o = preview_attempts o5 /\
    h1 = (h ++ [start_message video_id])%list.
Proof.
  cbv zeta. unfold transcode_video.
  fold (requested self resolutions) (input_path self input_file)
       (video_output_dir self video_id).
  destruct (path_exists env (input_path self input_file)); [| discriminate].
  simpl negb. cbv iota. intros H.
  apply bind_ok_inv in H. destruct H as ([] & oa & oa' & Ha & H & ->).
  injection Ha as <-.
  apply bind_ok_inv in H. destruct H as (md & o1 & ob & H1 & H & ->).
  apply bind_ok_inv in H. destruct H as ([] & oc & oc' & Hc & H & ->).
  injection Hc as <-.
  apply bind_ok_inv in H. destruct H as (rend & o2 & od & H2 & H & ->).
  apply bind_ok_inv in H. destruct H as (hls & o3 & oe & H3 & H & ->).
  apply bind_ok_inv in H. destruct H as (thumbs & o4 & oq & H4 & H & ->).
  apply bind_ok_inv in H. destruct H as (prev & o5 & og & H5 & H & ->).
  apply bind_ok_inv in H. destruct H as ([] & oh & oh' & Hh & H & ->).
  injection Hh as <-. injection H as <- <-.
  split; [reflexivity |]. split; [reflexivity |]. simpl.
  do 10 eexists.
  split; [exact H1 |]. split; [exact H2 |]. split; [exact H3 |].
  split; [exact H4 |]. split; [exact H5 |].
  silence encode_of H1. silence encode_of H3. silence encode_of H4.
  silence encode_of H5.
  silence warning_of H1. silence warning_of H3. silence warning_of H4.
  silence warning_of H5.
  silence hls_of H1. silence hls_of H2. silence hls_of H4. silence hls_of H5.
  silence write_of H1. silence write_of H2. silence write_of H4.
  silence write_of H5.
  silence thumb_of H1. silence thumb_of H2. silence thumb_of H3.
  silence thumb_of H5.
  silence preview_of H1. silence preview_of H2. silence preview_of H3.
  silence preview_of H4.
  unfold encode_attempts, warnings, hls_attempts, writes, thumb_attempts,
    preview_attempts.
  repeat (rewrite ?flat_map_app; cbn [flat_map]).
  repeat match goal with Q : flat_map _ _ = [] |- _ => rewrite Q; clear Q end.
  cbn [encode_of warning_of hls_of write_of thumb_of preview_of].
  rewrite ?List.app_nil_r, ?List.app_nil_l. repeat split; reflexivity.
Qed.

End Run.

(** ** Lists of attempts *)

Lemma In_successes {K} (l : K) (attempts : list (K * bool)) :
  In l (successes attempts) <-> In (l, true) attempts.
Proof.
  unfold successes. rewrite in_map_iff. split.
  - intros ([k b] & <- & H). apply filter_In in H. simpl in *.
    destruct H as [H ->]. exact H.
  - intros H. exists (l, true). split; [reflexivity |].
    apply filter_In. auto.
Qed.

Lemma successes_attempted {K} (l : K) (attempts : list (K * bool)) :
  In l (successes attempts) -> In l (map fst attempts).
Proof.
  intros H. apply In_successes in H. apply in_map_iff. exists (l, true). auto.
Qed.

Lemma existsb_eqb_In (l : string) (ls : list string) :
  existsb (String.eqb l) ls = true <-> In l ls.
Proof.
  rewrite existsb_exists. split.
  - intros (x & H & E). apply String.eqb_eq in E. subst. exact H.
  - intros H. exists l. split; [exact H | apply String.eqb_refl].
Qed.

Lemma dict_mem_get {V} (d : dict V) l :
  dict_mem d l = true <-> exists v, dict_get d l = Some v.
Proof.
  unfold dict_mem. destruct (dict_get d l) as [v |].
  - split; eauto.
  - split; [discriminate | intros (v & H); discriminate].
Qed.


Lemma dict_get_In {V} (d : dict V) l v : dict_get d l = Some v -> In (l, v) d.
Proof.
  induction d as [| [k w] d IH]; simpl; [discriminate |].
  destruct (String.eqb l k) eqn:E.
  - apply String.eqb_eq in E. intros [= ->]. subst. auto.
  - auto.
Qed.

(** ** What the master playlist lists *)

Section RunFacts.

Variable env : Env.
Variable self : transcoder.
Variables input_file video_id : string.
Variable resolutions : option (list string).
Variable h : list event.
Variable r : results.
Variable o : list event.

Hypothesis returned :
  transcode_video env self input_file video_id resolutions h = (Ok r, o).

Let labels := requested self resolutions.

(** Encodes: every known requested label is attempted once, in request
    order; the renditions are the labels with a successful attempt. *)
Lemma run_encodes :
  map fst (encode_attempts o) = filter (known self) labels /\
  warnings o = map skip_message (filter (fun l => negb (known self l)) labels) /\
  (forall l, dict_mem (r_resolutions r) l = true <->
             In (l, true) (encode_attempts o)) /\
  (forall l f, dict_get (r_resolutions r) l = Some f ->
               f = rendition_path (video_output_dir self video_id) l) /\
  NoDup (dict_keys (r_resolutions r)).
Proof.
  apply transcode_video_inv in returned.
  destruct returned as (_ & _ & h1 & o1 & h2 & o2 & h3 & o3 & h4 & o4 & h5 & o5
                        & _ & H2 & _ & _ & _ & E & W & _).
  apply encode_loop_inv in H2. destruct H2 as (A & Wn & M & G & N).
  rewrite E, W. split; [exact A |]. split; [exact Wn |]. split; [| split].
  - intros l. rewrite M. simpl. rewrite existsb_eqb_In. apply In_successes.
  - intros l f Hf. apply G in Hf. destruct Hf as [Hf | Hf]; [discriminate | exact Hf].
  - apply N. constructor.
Qed.

(** The manifest: one segmentation per rendition, and the master
    playlist lists the variants whose segmentation succeeded, each built
    from its preset, in the order [master_order] gives. *)
Lemma run_manifest :
  r_hls_playlist r = master_path (video_output_dir self video_id) /\
  map fst (hls_attempts o) = dict_keys (r_resolutions r) /\
  exists variant_playlists,
    manifest_lists self o (r_hls_playlist r) (master_order variant_playlists) /\
    map v_resolution variant_playlists = successes (hls_attempts o) /\
    Forall (variant_ok self) variant_playlists.
Proof.
  apply transcode_video_inv in returned.
  destruct returned as (_ & _ & h1 & o1 & h2 & o2 & h3 & o3 & h4 & o4 & h5 & o5
                        & _ & _ & H3 & _ & _ & _ & _ & E & W & _).
  apply generate_hls_playlist_inv in H3.
  destruct H3 as (P & A & vps & text & T & Wr & R & F).
  unfold manifest_lists. rewrite E, W. split; [exact P |]. split; [exact A |].
  exists vps. split; [| split; assumption].
  unfold master_text, rmap, rbind in T.
  destruct (stream_infs self (master_order vps)) as [body |] eqn:B;
    [| discriminate].
  injection T as <-. exists body. split; [reflexivity |]. exact Wr.
Qed.

End RunFacts.

(** C10. Called with [resolutions=None], [transcode_video] does what it
    does when asked for the five labels of the default catalog in
    declaration order, and a run that returns has attempted to encode
    exactly 2160p, 1080p, 720p, 480p and 360p, in that order. *)
Theorem default_request_is_full_ladder :
  forall env input_file video_id h,
    transcode_video env default_transcoder input_file video_id None h =
    transcode_video env default_transcoder input_file video_id (Some ladder) h /\
    forall r o,
      transcode_video env default_transcoder input_file video_id None h
      = (Ok r, o) ->
      map fst (encode_attempts o) = ladder.
Proof.
  intros env input_file video_id h. split; [reflexivity |].
  intros r o H. apply run_encodes in H. destruct H as (A & _). exact A.
Qed.

(** ** The default request *)

(** Run a closed call of the transcoder and keep the equation. *)
Ltac run_it :=
  match goal with
  | |- exists r o, ?t = (Ok r, o) /\ _ =>
      let v := eval vm_compute in t in
      match v with
      | (Ok ?r, ?o) =>
          assert (E : t = (Ok r, o)) by (vm_compute; reflexivity);
          exists r, o; split; [exact E |]
      end
  end.

(** C10, at a run in [studio]. *)
Lemma default_request_is_full_ladder_witness :
  exists r o,
    transcode_video studio default_transcoder "a.mp4" "v1" None [] = (Ok r, o) /\
    map fst (encode_attempts o) = ladder.
Proof.
  run_it.
  exact (proj2 (default_request_is_full_ladder studio "a.mp4" "v1" []) _ _ E).
Defined.

(** ** [sorted(..., reverse=True)] *)

Section SortedReverse.

Context {A : Type} (key : A -> Z).

Lemma insert_desc_perm x l : Permutation (insert_desc key x l) (x :: l).
Proof.
  induction l as [| y l IH]; simpl; [reflexivity |].
  destruct (key x <? key y); [| reflexivity].
  rewrite IH. apply perm_swap.
Qed.

Lemma insert_desc_sorted x l :
  StronglySorted (key_ge key) l -> StronglySorted (key_ge key) (insert_desc key x l).
Proof.
  induction l as [| y l IH]; intros H; simpl.
  - repeat constructor.
  - inversion H as [| ? ? Hl Hy]; subst.
    destruct (key x <? key y) eqn:E.
    + apply Z.ltb_lt in E. constructor; [apply IH, Hl |].
      apply Forall_forall. intros z Hz.
      apply (Permutation_in _ (insert_desc_perm x l)) in Hz.
      destruct Hz as [<- | Hz].
      * unfold key_ge. lia.
      * rewrite Forall_forall in Hy. apply Hy, Hz.
    + apply Z.ltb_ge in E. constructor; [exact H |].
      constructor; [unfold key_ge; lia |].
      rewrite Forall_forall in *. intros z Hz. specialize (Hy z Hz).
      unfold key_ge in *. lia.
Qed.


Lemma sorted_reverse_perm l : Permutation (sorted_reverse key l) l.
Proof.
  induction l as [| x l IH]; simpl; [reflexivity |].
  rewrite insert_desc_perm. constructor. exact IH.
Qed.

Lemma sorted_reverse_sorted l : StronglySorted (key_ge key) (sorted_reverse key l).
Proof.
  induction l as [| x l IH]; simpl; [constructor |].
  apply insert_desc_sorted, IH.
Qed.


Lemma sorted_reverse_In l a : In a (sorted_reverse key l) <-> In a l.
Proof.
  split; apply Permutation_in;
    [apply sorted_reverse_perm | symmetry; apply sorted_reverse_perm].
Qed.

End SortedReverse.



(** ** When a run returns *)

Lemma default_catalog_ok : catalog_ok default_transcoder.
Proof.
  intros l p H. apply dict_get_In in H. simpl in H.
  repeat (destruct H as [[= <- <-] | H]; [reflexivity |]). contradiction.
Qed.

Section Totality.

Variable env : Env.
Variable self : transcoder.
Hypothesis catalog : catalog_ok self.

Lemma hls_variant_eq hls_dir acc l video_file h :
  hls_variant env self hls_dir acc (l, video_file) h =
  match dict_get (presets self) l with
  | None => (Raise KeyError, [])
  | Some p =>
      let c := FfmpegHls video_file (path_join hls_dir (l ++ "_%03d.ts"))
                         (path_join hls_dir (l ++ ".m3u8")) l in
      let r := respond env h c in
      if succeeded r then
        match bitrate_kbps p with
        | Ok kbps =>
            (Ok (acc ++ [mkVariant l (kbps * 1000) (l ++ ".m3u8")])%list,
             [Ran c r])
        | Raise e => (Raise e, [Ran c r])
        end
      else (Ok acc, [Ran c r; Logged ERROR ("Error generating HLS for " ++ l)])
  end.
Proof.
  unfold hls_variant, preset_of.
  destruct (dict_get (presets self) l) as [p |]; [| reflexivity].
  rewrite bind_lift_ok.
  unfold except_called_process_error, bind. rewrite run_eq. cbv zeta.
  destruct (succeeded _); [| reflexivity].
  unfold lift. destruct (bitrate_kbps p) as [kbps | e] eqn:Ek; [reflexivity |].
  apply bitrate_kbps_raises in Ek. subst e. reflexivity.
Qed.

Lemma hls_loop_total hls_dir items :
  (forall l, In l (dict_keys items) -> known self l = true) ->
  forall acc h, exists acc' o,
      for_each (hls_variant env self hls_dir) items acc h = (Ok acc', o).
Proof.
  induction items as [| [l f] items IH]; intros K acc h.
  - eexists _, _. reflexivity.
  - assert (Kl : known self l = true) by (apply K; left; reflexivity).
    apply dict_mem_get in Kl. destruct Kl as (p & Ep).
    pose proof (catalog l p Ep) as Cp.
    destruct (bitrate_kbps p) as [kbps |] eqn:Ek; [| discriminate].
    assert (K' : forall l', In l' (dict_keys items) -> known self l' = true)
      by (intros l' Hl'; apply K; right; exact Hl').
    cbn [for_each]. unfold bind. rewrite hls_variant_eq, Ep, Ek. cbv zeta.
    destruct (succeeded _).
    + edestruct (IH K') as (acc' & o & E). rewrite E. eexists _, _. reflexivity.
    + edestruct (IH K') as (acc' & o & E). rewrite E. eexists _, _. reflexivity.
Qed.

Lemma stream_infs_total vs :
  Forall (variant_ok self) vs -> exists body, stream_infs self vs = Ok body.
Proof.
  induction 1 as [| v vs (p & kbps & Ep & _) _ (body & IH)]; simpl.
  - eexists. reflexivity.
  - unfold stream_inf, preset_of. rewrite Ep, IH. simpl. eexists. reflexivity.
Qed.

Lemma generate_hls_playlist_total output_dir renditions h :
  (forall l, In l (dict_keys renditions) -> known self l = true) ->
  exists o,
    _generate_hls_playlist env self output_dir renditions h
    = (Ok (master_path output_dir), o).
Proof.
  intros K. unfold _generate_hls_playlist.
  unfold bind at 1. unfold emit at 1. unfold bind at 1.
  match goal with
  | |- context [for_each ?b renditions ?a ?hh] =>
      destruct (hls_loop_total (path_join output_dir "hls") renditions K a hh)
        as (vps & o1 & E)
  end.
  rewrite E.
  apply hls_loop_inv in E. destruct E as (_ & new & -> & _ & F).
  destruct (stream_infs_total (master_order new)) as (body & B).
  { apply Forall_forall. intros v Hv. apply sorted_reverse_In in Hv.
    rewrite Forall_forall in F. apply F, Hv. }
  unfold bind, lift, master_text, rmap, rbind. simpl app. rewrite B.
  unfold emit, log_info, emit, ret. eexists. reflexivity.
Qed.

End Totality.

(** The metadata the prober's output gives always has a float under
    ["duration"]. *)
Ltac rbind_step H v E :=
  match type of H with
  | rbind ?x _ = Ok _ =>
      destruct x as [v |] eqn:E; [cbn [rbind] in H | discriminate H]
  end.

Lemma extract_metadata_duration env stdout md :
  extract_metadata env stdout = Ok md ->
  exists q, dict_get md "duration" = Some (PFloat q).
Proof.
  unfold extract_metadata. intros H.
  rbind_step H data E0. rbind_step H streams E1.
  rbind_step H video_stream E2. rbind_step H audio_stream E3.
  rbind_step H fmt E4. rbind_step H duration E5. rbind_step H size E6.
  rbind_step H bit_rate E7. rbind_step H m1 E8. rbind_step H m2 E9.
  injection H as <-.
  assert (D1 : dict_get m1 "duration" = Some (PFloat duration)).
  { destruct (truthy video_stream).
    - unfold rmap in E8. rbind_step E8 fields F. injection E8 as <-.
      unfold video_fields in F.
      rbind_step F vs F0. rbind_step F w F1. rbind_step F ht F2.
      rbind_step F fps F3. injection F as <-. reflexivity.
    - injection E8 as <-. reflexivity. }
  exists duration.
  destruct (truthy audio_stream).
  - unfold rmap in E9. rbind_step E9 a A. injection E9 as <-.
    rewrite !dict_get_set. simpl. exact D1.
  - injection E9 as <-. exact D1.
Qed.

(** With no duration, or a duration of zero, nothing is sampled. *)
Lemma generate_thumbnails_zero env input_file output_dir count h md o1 :
  _get_video_metadata env input_file
    (h ++ [MadeDir (path_join output_dir "thumbnails")])%list = (Ok md, o1) ->
  eq_zero (get_default md "duration" (PInt 0)) = true ->
  _generate_thumbnails env input_file output_dir count h
  = (Ok [], MadeDir (path_join output_dir "thumbnails") :: o1).
Proof.
  intros Hm Hz. unfold _generate_thumbnails.
  unfold bind at 1. unfold emit at 1. unfold bind at 1. rewrite Hm, Hz.
  unfold ret. rewrite List.app_nil_r. reflexivity.
Qed.

Lemma probe_metadata_duration env input_file h md o :
  _get_video_metadata env input_file h = (Ok md, o) ->
  md = [] \/ exists q, dict_get md "duration" = Some (PFloat q).
Proof.
  rewrite get_video_metadata_eq. cbv zeta.
  destruct (succeeded _).
  - destruct (extract_metadata env _) as [m | e] eqn:E.
    + intros [= <- <-]. right. eapply extract_metadata_duration, E.
    + destruct e; try discriminate. intros [= <- <-]. left. reflexivity.
  - intros [= <- <-]. left. reflexivity.
Qed.

Lemma generate_thumbnails_total env input_file output_dir count h :
  is_ok (fst (_get_video_metadata env input_file
                (h ++ [MadeDir (path_join output_dir "thumbnails")])%list))
  = true ->
  0 <= count ->
  exists thumbnails o,
    _generate_thumbnails env input_file output_dir count h = (Ok thumbnails, o).
Proof.
  intros Hok Hc.
  destruct (_get_video_metadata env input_file _) as [[md | e] o1] eqn:Hm;
    [| discriminate].
  destruct (probe_metadata_duration _ _ _ _ _ Hm) as [-> | (q & Hq)].
  - eexists _, _. eapply generate_thumbnails_zero; [exact Hm | reflexivity].
  - destruct (Qnum q =? 0) eqn:Z.
    + eexists _, _. eapply generate_thumbnails_zero; [exact Hm |].
      unfold get_default. rewrite Hq. exact Z.
    + destruct (generate_thumbnails_nonzero _ _ _ _ _ _ _ _ Hm Hq Z Hc)
        as (t & o & E & _).
      eexists _, _. exact E.
Qed.

Lemma bind_total {A B} (m : M A) (k : A -> M B) h (P : A -> Prop) :
  (exists a o1, m h = (Ok a, o1) /\ P a) ->
  (forall a h', P a -> exists b o2, k a h' = (Ok b, o2)) ->
  exists b o, bind m k h = (Ok b, o).
Proof.
  intros (a & o1 & E & Pa) K. unfold bind. rewrite E.
  destruct (K a (h ++ o1)%list Pa) as (b & o2 & ->). eexists _, _. reflexivity.
Qed.

Lemma emit_total e h : exists a o1, emit e h = (Ok a, o1) /\ True.
Proof. eexists _, _. split; [reflexivity | exact I]. Qed.

(** With a catalog in order, a run returns as soon as the source exists
    and the prober's output can be read each time it is asked: no
    failure of the encoder stops it. *)
Lemma run_returns env self input_file video_id resolutions h :
  catalog_ok self ->
  path_exists env (input_path self input_file) = true ->
  (forall h', is_ok (fst (_get_video_metadata env (input_path self input_file) h'))
              = true) ->
  exists r o,
    transcode_video env self input_file video_id resolutions h = (Ok r, o).
Proof.
  intros C P M. unfold transcode_video.
  fold (requested self resolutions) (input_path self input_file)
       (video_output_dir self video_id).
  rewrite P. simpl negb. cbv iota.
  eapply bind_total; [apply emit_total | intros _ h1 _].
  apply bind_total with (P := fun _ => True).
  { specialize (M h1).
    destruct (_get_video_metadata env (input_path self input_file) h1)
      as [[md | e] o1]; [| discriminate].
    eexists _, _. split; [reflexivity | exact I]. }
  intros md h2 _.
  eapply bind_total; [apply emit_total | intros _ h3 _].
  apply bind_total
    with (P := fun rend => forall l, In l (dict_keys rend) -> known self l = true).
  { destruct (encode_loop_total env self (input_path self input_file)
                (video_output_dir self video_id) (requested self resolutions)
                C [] h3) as (rend & o2 & E2).
    exists rend, o2. split; [exact E2 |].
    intros l Hl. apply dict_mem_keys in Hl.
    apply encode_loop_inv in E2. destruct E2 as (A & _ & Mm & _).
    rewrite Mm in Hl. simpl in Hl.
    apply existsb_eqb_In, successes_attempted in Hl.
    rewrite A in Hl. apply filter_In in Hl. apply Hl. }
  intros rend h4 K.
  apply bind_total with (P := fun _ => True).
  { destruct (generate_hls_playlist_total env self C (video_output_dir self video_id)
                rend h4 K) as (o3 & E3).
    eexists _, _. split; [exact E3 | exact I]. }
  intros hls h5 _.
  apply bind_total with (P := fun _ => True).
  { destruct (generate_thumbnails_total env (input_path self input_file)
                (video_output_dir self video_id) 10 h5 (M _) ltac:(lia))
      as (thumbs & o4 & E4).
    eexists _, _. split; [exact E4 | exact I]. }
  intros thumbs h6 _.
  apply bind_total with (P := fun _ => True).
  { rewrite generate_preview_eq. cbv zeta.
    destruct (succeeded _); eexists _, _; (split; [reflexivity | exact I]). }
  intros prev h7 _.
  eapply bind_total; [apply emit_total | intros _ h8 _].
  eexists _, _. reflexivity.
Qed.



(** C3, as stated, fails: with no rendition at all the manifest stage
    still returns the path of a master playlist, which holds the two
    header lines and no variant. *)
Lemma no_variants_counterexample :
  exists r o,
    transcode_video studio_no_encoder default_transcoder "a.mp4" "v1" None []
    = (Ok r, o) /\
    r_resolutions r = [] /\
    successes (hls_attempts o) = [] /\
    r_hls_playlist r = "./transcoded/v1/hls/master.m3u8" /\
    writes o = [("./transcoded/v1/hls/master.m3u8", header)].
Proof.
  vm_compute. eexists _, _. repeat split.
Qed.

(** C3, amended. The manifest stage has no error result.  Given no
    rendition it writes a master playlist of the two header lines and
    returns its path; a run that returns, in which no segmentation
    succeeded, has written that header-only playlist at the path it
    reports; and the metadata, thumbnails and preview of a run are what
    the prober, the thumbnail stage and the preview stage returned. *)
Theorem no_variants_gives_header_only_manifest :
  forall env self,
    (forall output_dir h,
        _generate_hls_playlist env self output_dir [] h
        = (Ok (master_path output_dir),
           [MadeDir (path_join output_dir "hls");
            Wrote (master_path output_dir) header;
            Logged INFO "HLS playlist generated successfully"])) /\
    (forall input_file video_id resolutions h r o,
        transcode_video env self input_file video_id resolutions h = (Ok r, o) ->
        (successes (hls_attempts o) = [] ->
         r_hls_playlist r = master_path (video_output_dir self video_id) /\
         writes o = [(r_hls_playlist r, header)]) /\
        exists h1 o1 h4 o4 h5 o5,
          _get_video_metadata env (input_path self input_file) h1
          = (Ok (r_metadata r), o1) /\
          _generate_thumbnails env (input_path self input_file)
                               (video_output_dir self video_id) 10 h4
          = (Ok (r_thumbnails r), o4) /\
          _generate_preview env (input_path self input_file)
                            (video_output_dir self video_id) 30 h5
          = (Ok (r_preview r), o5)).
Proof.
  intros env self. split; [reflexivity |].
  intros input_file video_id resolutions h r o H. split.
  - intros Z.
    pose proof (run_manifest _ _ _ _ _ _ _ _ H) as (P & _ & vps & L & R & _).
    split; [exact P |].
    rewrite Z in R. apply map_eq_nil in R. subst vps.
    destruct L as (body & B & W). simpl in B. injection B as <-.
    rewrite W. reflexivity.
  - apply transcode_video_inv in H.
    destruct H as (_ & _ & h1 & o1 & h2 & o2 & h3 & o3 & h4 & o4 & h5 & o5
                   & H1 & _ & _ & H4 & H5 & _).
    exists h1, o1, h4, o4, h5, o5. auto.
Qed.

(** C3 amended, at the run in which the encoder fails on every label. *)
Lemma no_variants_gives_header_only_manifest_witness :
  exists r o,
    transcode_video studio_no_encoder default_transcoder "a.mp4" "v1" None []
    = (Ok r, o) /\
    r_hls_playlist r = master_path (video_output_dir default_transcoder "v1") /\
    writes o = [(r_hls_playlist r, header)].
Proof.
  run_it.
  apply (proj2 (no_variants_gives_header_only_manifest studio_no_encoder
                  default_transcoder) _ _ _ _ _ _ E).
  vm_compute. reflexivity.
Defined.

(** C2, as stated, fails: the prober exits with 1, yet the probe returns
    (an empty dictionary) and the run goes on to encode the whole ladder,
    build the manifest and cut the preview. *)
Lemma probe_exit_counterexample :
  returncode (respond studio_no_prober [start_message "v1"]
                      (Ffprobe "./uploads/a.mp4")) = 1 /\
  _get_video_metadata studio_no_prober "./uploads/a.mp4" [start_message "v1"]
  = (Ok [],
     [Ran (Ffprobe "./uploads/a.mp4") (mkCompleted 1 None);
      Logged ERROR "Error getting video metadata"]) /\
  exists r o,
    transcode_video studio_no_prober default_transcoder "a.mp4" "v1" None []
    = (Ok r, o) /\
    r_metadata r = [] /\
    dict_keys (r_resolutions r) = ladder /\
    r_thumbnails r = [] /\
    r_preview r = Some "./transcoded/v1/preview.mp4".
Proof.
  split; [reflexivity |]. split; [reflexivity |].
  vm_compute. eexists _, _. repeat split.
Qed.

Lemma json_error_propagates env stdout :
  stdout_json stdout = None -> extract_metadata env stdout = Raise JSONDecodeError.
Proof.
  intros H. unfold extract_metadata, json_loads. rewrite H. reflexivity.
Qed.

(** C2, amended.  A non-zero exit of the prober is logged and answered
    with an empty dictionary, and a run that returns after it has empty
    metadata and has gone through every known requested label.  When
    the prober exits with zero and its output cannot be read -- it is not
    JSON, or an entry is missing or of the wrong kind -- the exception
    leaves [transcode_video] with nothing done but the probe: no encode,
    no manifest, no thumbnail, no preview. *)
Theorem probe_failure_handling :
  forall env self input_file video_id resolutions h,
    let probe := Ffprobe (input_path self input_file) in
    let h1 := (h ++ [start_message video_id])%list in
    let answer := respond env h1 probe in
    (returncode answer <> 0 ->
     _get_video_metadata env (input_path self input_file) h1
     = (Ok [], [Ran probe answer; Logged ERROR "Error getting video metadata"])
     /\
     forall r o,
       transcode_video env self input_file video_id resolutions h = (Ok r, o) ->
       r_metadata r = [] /\
       map fst (encode_attempts o)
       = filter (known self) (requested self resolutions)) /\
    (path_exists env (input_path self input_file) = true ->
     returncode answer = 0 ->
     forall e,
       extract_metadata env answer = Raise e ->
       e <> CalledProcessError ->
       transcode_video env self input_file video_id resolutions h
       = (Raise e, [start_message video_id; Ran probe answer])) /\
    (stdout_json answer = None ->
     extract_metadata env answer = Raise JSONDecodeError).
Proof.
  intros env self input_file video_id resolutions h probe h1 answer.
  split; [| split].
  - intros Hexit.
    assert (F : succeeded answer = false)
      by (unfold succeeded; apply Z.eqb_neq; exact Hexit).
    assert (P : _get_video_metadata env (input_path self input_file) h1
                = (Ok [], [Ran probe answer;
                           Logged ERROR "Error getting video metadata"])).
    { rewrite get_video_metadata_eq. cbv zeta. fold probe answer.
      rewrite F. reflexivity. }
    split; [exact P |].
    intros r o H. pose proof (run_encodes _ _ _ _ _ _ _ _ H) as (A & _).
    split; [| exact A].
    apply transcode_video_inv in H.
    destruct H as (_ & _ & h1' & o1 & h2 & o2 & h3 & o3 & h4 & o4 & h5 & o5
                   & H1 & _ & _ & _ & _ & _ & _ & _ & _ & _ & _ & ->).
    fold (start_message video_id) in H1. fold h1 in H1.
    rewrite P in H1. injection H1 as <- _. reflexivity.
  - intros Hp Hexit e He Hne.
    unfold transcode_video. fold (input_path self input_file).
    rewrite Hp. cbn [negb]. cbv iota.
    unfold log_info. fold (start_message video_id).
    unfold bind at 1. unfold emit at 1. unfold bind at 1. cbv beta. fold h1.
    rewrite get_video_metadata_eq. cbv zeta. fold probe answer.
    unfold succeeded. rewrite Hexit, He. simpl.
    destruct e; try reflexivity. congruence.
  - apply json_error_propagates.
Qed.

(** C2 amended, at a prober that exits with 1 and at one whose output is
    not JSON. *)
Lemma probe_failure_handling_witness :
  (exists r o,
      transcode_video studio_no_prober default_transcoder "a.mp4" "v1" None []
      = (Ok r, o) /\
      r_metadata r = [] /\
      map fst (encode_attempts o) = ladder) /\
  transcode_video studio_garbled_prober default_transcoder "a.mp4" "v1" None []
  = (Raise JSONDecodeError,
     [start_message "v1"; Ran (Ffprobe "./uploads/a.mp4") (mkCompleted 0 None)]).
Proof.
  split.
  - run_it.
    apply (proj1 (probe_failure_handling studio_no_prober default_transcoder
                    "a.mp4" "v1" None [])); [discriminate | exact E].
  - apply (proj1 (proj2 (probe_failure_handling studio_garbled_prober
                           default_transcoder "a.mp4" "v1" None [])));
      [reflexivity | reflexivity | | discriminate].
    apply (proj2 (proj2 (probe_failure_handling studio_garbled_prober
                           default_transcoder "a.mp4" "v1" None []))).
    reflexivity.
Defined.




(** ** The sampling formula over binary64 *)

(** C8. When the metadata gives a positive duration [d] and [count] is at
    least 1, [_generate_thumbnails] returns without raising after asking
    for one frame at each of the [count] times [d / (count + 1) * i],
    [i = 1..count]; over the rationals these times are strictly
    increasing and strictly between 0 and [d].  On binary64 numbers the
    same two lines give, for 30 seconds and 10 frames, 10 timestamps
    within 1e-6 of 30/11, ..., 300/11, strictly increasing and strictly
    between 0 and 30. *)
Theorem thumbnails_evenly_spaced :
  (forall env input_file output_dir count h md o1 d,
      _get_video_metadata env input_file
        (h ++ [MadeDir (path_join output_dir "thumbnails")])%list = (Ok md, o1) ->
      dict_get md "duration" = Some (PFloat d) ->
      (0 < d)%Q ->
      1 <= count ->
      exists thumbnails o,
        _generate_thumbnails env input_file output_dir count h
        = (Ok thumbnails, o) /\
        timestamps o = sample_times Qdiv_int Qmul_int d count /\
        List.length (timestamps o) = Z.to_nat count /\
        (forall k, (k < Z.to_nat count)%nat ->
                   nth_error (timestamps o) k
                   = Some (d / inject_Z (count + 1) * inject_Z (Z.of_nat k + 1))%Q) /\
        StronglySorted Qlt (timestamps o) /\
        Forall (fun t => (0 < t)%Q /\ (t < d)%Q) (timestamps o)) /\
  (let ts := sample_times f64_div_int f64_mul_int 30%float 10 in
   List.length ts = 10%nat /\
   Forall2 (fun t q => f64_close (1 # 1000000) t q = true)
           ts thirty_seconds_ten_frames /\
   f64_increasing ts = true /\
   Forall (fun t => PrimFloat.ltb 0%float t && PrimFloat.ltb t 30%float = true) ts).
Proof.
  split.
  - intros env input_file output_dir count h md o1 d Hm Hd Hpos Hc.
    destruct (generate_thumbnails_nonzero env input_file output_dir count h
                md o1 d Hm Hd (Qpos_num_nonzero d Hpos) ltac:(lia))
      as (thumbnails & o & E & T & _).
    exists thumbnails, o. split; [exact E |]. rewrite T.
    split; [reflexivity |].
    split; [apply sample_times_length; lia |].
    split; [intros k Hk; apply sample_times_nth; exact Hk |].
    split; [apply sample_times_increasing; [exact Hpos | lia] |].
    apply sample_times_inside; [exact Hpos | lia].
  - vm_compute. repeat split; repeat constructor.
Qed.

(** C8, at the 30 second clip of [studio] and 10 frames. *)
Lemma thumbnails_evenly_spaced_witness :
  exists thumbnails o,
    _generate_thumbnails studio "./uploads/a.mp4" "./transcoded/v1" 10 []
    = (Ok thumbnails, o) /\
    List.length (timestamps o) = 10%nat /\
    Forall2 Qeq (timestamps o) thirty_seconds_ten_frames.
Proof.
  destruct (proj1 thumbnails_evenly_spaced studio "./uploads/a.mp4"
                  "./transcoded/v1" 10 []
                  [("duration", PFloat (30000000 # 1000000));
                   ("size", PInt 1048576); ("bitrate", PInt 279620);
                   ("format", PStr "mov,mp4,m4a,3gp,3g2,mj2");
                   ("width", PInt 1920); ("height", PInt 1080);
                   ("codec", PStr "h264"); ("fps", PFloat (30000 # 1001));
                   ("audio_codec", PStr "aac"); ("audio_channels", PInt 2)]
                  [Ran (Ffprobe "./uploads/a.mp4")
                       (mkCompleted 0 (Some (probe_output "30.000000"
                                                          "30000/1001")))]
                  (30000000 # 1000000))
    as (thumbnails & o & E & T & L & _).
  - vm_compute. reflexivity.
  - reflexivity.
  - reflexivity.
  - lia.
  - exists thumbnails, o. split; [exact E |]. split; [exact L |].
    rewrite T. vm_compute. repeat constructor.
Defined.

(** ** The order of the master playlist *)

Lemma StronglySorted_refine {A} (R R' : A -> A -> Prop) l :
  NoDup l ->
  StronglySorted R l ->
  (forall a b, In a l -> In b l -> a <> b -> R a b -> R' a b) ->
  StronglySorted R' l.
Proof.
  induction l as [| a l IH]; intros N S H; [constructor |].
  inversion N as [| ? ? Na Nl]; subst. inversion S as [| ? ? Sl Sa]; subst.
  constructor.
  - apply IH; [exact Nl | exact Sl |]. intros x y Hx Hy. apply H; right; assumption.
  - rewrite Forall_forall in *. intros b Hb. apply H.
    + left. reflexivity.
    + right. exact Hb.
    + intros ->. contradiction.
    + apply Sa, Hb.
Qed.

(** A list sorted by a strict order is determined by its elements. *)
Lemma strictly_sorted_unique {A} (R : A -> A -> Prop) :
  (forall a b, R a b -> R b a -> False) ->
  forall l1 l2,
    StronglySorted R l1 -> StronglySorted R l2 ->
    (forall x, In x l1 <-> In x l2) ->
    l1 = l2.
Proof.
  intros asym. induction l1 as [| a l1 IH]; intros [| b l2] S1 S2 H.
  - reflexivity.
  - destruct (proj2 (H b)). left. reflexivity.
  - destruct (proj1 (H a)). left. reflexivity.
  - inversion S1 as [| ? ? S1' F1]; subst. inversion S2 as [| ? ? S2' F2]; subst.
    rewrite Forall_forall in F1, F2.
    assert (E : a = b).
    { destruct (proj1 (H a) (or_introl eq_refl)) as [E | Ha]; [auto |].
      destruct (proj2 (H b) (or_introl eq_refl)) as [E | Hb]; [auto |].
      destruct (asym a b); auto. }
    subst b. f_equal. apply IH; [assumption | assumption |].
    intros x. split; intros Hx.
    + destruct (proj1 (H x) (or_intror Hx)) as [<- | Hx']; [| exact Hx'].
      destruct (asym a a); auto.
    + destruct (proj2 (H x) (or_intror Hx)) as [<- | Hx']; [| exact Hx'].
      destruct (asym a a); auto.
Qed.

Lemma NoDup_map_filter {A B} (f : A -> B) (p : A -> bool) l :
  NoDup (map f l) -> NoDup (map f (filter p l)).
Proof.
  induction l as [| a l IH]; simpl; intros N; [constructor |].
  inversion N as [| ? ? Na Nl]; subst. destruct (p a); simpl.
  - constructor; [| apply IH, Nl].
    intros Hin. apply Na. apply in_map_iff in Hin.
    destruct Hin as (x & E & Hx). apply filter_In in Hx.
    apply in_map_iff. exists x. tauto.
  - apply IH, Nl.
Qed.

Lemma variant_ok_default v :
  variant_ok default_transcoder v -> In v default_variants.
Proof.
  intros (p & kbps & Ep & Ek & Eb & En). apply dict_get_In in Ep.
  destruct v as [l b n]. cbn [v_resolution v_bandwidth v_playlist] in *.
  simpl in Ep.
  repeat (destruct Ep as [[= <- <-] | Ep];
          [vm_compute in Ek; injection Ek as <-; subst b n; simpl; tauto |]).
  contradiction.
Qed.

Lemma default_variants_by_label a b :
  In a default_variants -> In b default_variants ->
  v_resolution a = v_resolution b -> a = b.
Proof.
  simpl. intros Ha Hb E.
  repeat (destruct Ha as [<- | Ha]; [| try contradiction]);
    repeat (destruct Hb as [<- | Hb]; [| try contradiction]);
    first [reflexivity | discriminate E].
Qed.

Lemma default_variants_by_bandwidth a b :
  In a default_variants -> In b default_variants ->
  v_bandwidth a = v_bandwidth b -> a = b.
Proof.
  simpl. intros Ha Hb E.
  repeat (destruct Ha as [<- | Ha]; [| try contradiction]);
    repeat (destruct Hb as [<- | Hb]; [| try contradiction]);
    first [reflexivity | discriminate E].
Qed.


(** With the default catalog, the master playlist of a run that returns
    lists variants of the catalog, each once, in strictly decreasing
    bandwidth; they are the labels whose segmentation succeeded. *)
Lemma default_manifest env input_file video_id resolutions h r o :
  transcode_video env default_transcoder input_file video_id resolutions h
  = (Ok r, o) ->
  exists vs,
    manifest_lists default_transcoder o (r_hls_playlist r) vs /\
    (forall v, In v vs -> In v default_variants) /\
    NoDup vs /\
    StronglySorted bandwidth_gt vs /\
    (forall l, In l (map v_resolution vs) <-> In l (successes (hls_attempts o))).
Proof.
  intros H.
  pose proof (run_encodes _ _ _ _ _ _ _ _ H) as (_ & _ & _ & _ & N).
  pose proof (run_manifest _ _ _ _ _ _ _ _ H) as (_ & A & vps & L & R & F).
  exists (master_order vps).
  assert (D : forall v, In v (master_order vps) -> In v default_variants).
  { intros v Hv. apply sorted_reverse_In in Hv. rewrite Forall_forall in F.
    apply variant_ok_default, F, Hv. }
  assert (Nv : NoDup (master_order vps)).
  { apply (Permutation_NoDup (l := vps));
      [symmetry; apply sorted_reverse_perm |].
    apply (NoDup_map_inv v_resolution). rewrite R. unfold successes.
    apply NoDup_map_filter. rewrite A. exact N. }
  split; [exact L |]. split; [exact D |]. split; [exact Nv |]. split.
  - apply (StronglySorted_refine (key_ge v_bandwidth)); [exact Nv | |].
    + apply sorted_reverse_sorted.
    + intros a b Ha Hb Hab G. unfold key_ge in G. unfold bandwidth_gt.
      destruct (Z.eq_dec (v_bandwidth a) (v_bandwidth b)) as [E | E]; [| lia].
      destruct Hab. apply default_variants_by_bandwidth; auto.
  - intros l. rewrite <- R. unfold master_order.
    split; intros Hl; apply in_map_iff in Hl; destruct Hl as (v & <- & Hv);
      apply in_map; apply sorted_reverse_In in Hv || apply sorted_reverse_In;
      exact Hv.
Qed.

(** ** The keys of the renditions *)

Lemma dict_mem_existsb {V} (d : dict V) k :
  dict_mem d k = existsb (String.eqb k) (dict_keys d).
Proof.
  unfold dict_mem. induction d as [| [k' v] d IH]; simpl; [reflexivity |].
  destruct (String.eqb k k'); [reflexivity | exact IH].
Qed.

Lemma dict_keys_add {V} (d : dict V) k v :
  dict_keys (dict_set d k v) = add_key (dict_keys d) k.
Proof.
  rewrite dict_keys_set. unfold add_key. rewrite dict_mem_existsb. reflexivity.
Qed.

Lemma encode_loop_keys env self source target ls : forall acc h acc' o,
  for_each (transcode_one env self source target) ls acc h = (Ok acc', o) ->
  dict_keys acc'
  = fold_left add_key (successes (encode_attempts o)) (dict_keys acc).
Proof.
  induction ls as [| x ls IH]; intros acc h acc' o H.
  - injection H as <- <-. reflexivity.
  - cbn [for_each] in H. apply bind_ok_inv in H.
    destruct H as (acc1 & o1 & o2 & H1 & H2 & ->).
    apply IH in H2. rewrite H2. clear H2.
    apply transcode_one_inv in H1.
    rewrite encode_attempts_app, successes_app, fold_left_app.
    destruct H1 as [(_ & -> & E1 & _) | (_ & _ & b & E1 & ->)]; rewrite E1.
    + reflexivity.
    + destruct b; [| reflexivity].
      unfold successes at 2. simpl. rewrite dict_keys_add. reflexivity.
Qed.

(** ** Which of two items comes first *)










(** C5. Every variant the master playlist of a returning run lists has
    for bandwidth 1000 times the number in its preset's video bit rate,
    a number that does not depend on the audio bit rate.  With the
    default catalog, when the segmented labels are 1080p, 720p and 480p
    the playlist lists exactly 1080p, 720p, 480p with bandwidths
    5000000, 2500000, 1000000. *)
Theorem bandwidth_is_video_bitrate_only :
  (forall env self input_file video_id resolutions h r o,
      transcode_video env self input_file video_id resolutions h = (Ok r, o) ->
      exists vs,
        manifest_lists self o (r_hls_playlist r) vs /\
        Forall (fun v =>
                  exists p kbps,
                    dict_get (presets self) (v_resolution v) = Some p /\
                    bitrate_kbps p = Ok kbps /\
                    v_bandwidth v = kbps * 1000) vs) /\
  (forall w h video audio audio',
      bitrate_kbps (mkPreset w h video audio)
      = bitrate_kbps (mkPreset w h video audio')) /\
  (forall env input_file video_id resolutions h r o,
      transcode_video env default_transcoder input_file video_id resolutions h
      = (Ok r, o) ->
      (forall l, In l (successes (hls_attempts o))
                 <-> In l ["1080p"; "720p"; "480p"]) ->
      manifest_lists default_transcoder o (r_hls_playlist r) three_variants /\
      writes o = [(r_hls_playlist r, three_variant_manifest)]).
Proof.
  split; [| split].
  - intros env self input_file video_id resolutions h r o H.
    pose proof (run_manifest _ _ _ _ _ _ _ _ H) as (_ & _ & vps & L & _ & F).
    exists (master_order vps). split; [exact L |].
    apply Forall_forall. intros v Hv. apply sorted_reverse_In in Hv.
    rewrite Forall_forall in F. destruct (F v Hv) as (p & kbps & A & B & C & _).
    exists p, kbps. auto.
  - reflexivity.
  - intros env input_file video_id resolutions h r o H Hs.
    destruct (default_manifest _ _ _ _ _ _ _ H) as (vs & L & D & N & S & I).
    assert (E : vs = three_variants).
    { apply (strictly_sorted_unique bandwidth_gt).
      - unfold bandwidth_gt. intros a b. lia.
      - exact S.
      - unfold three_variants, bandwidth_gt.
        repeat constructor; simpl; lia.
      - intros x. split; intros Hx.
        + assert (Hl : In (v_resolution x) ["1080p"; "720p"; "480p"])
            by (apply Hs, I, in_map, Hx).
          apply D in Hx. simpl in Hx, Hl. unfold three_variants. simpl.
          repeat (destruct Hx as [<- | Hx]; [simpl in Hl; intuition discriminate |]).
          contradiction.
        + assert (Hd : In x default_variants)
            by (unfold three_variants in Hx; simpl in *; tauto).
          assert (Hl : In (v_resolution x) (map v_resolution vs)).
          { apply I, Hs. unfold three_variants in Hx. simpl in Hx. simpl.
            repeat (destruct Hx as [<- | Hx]; [simpl; tauto |]). contradiction. }
          apply in_map_iff in Hl. destruct Hl as (v & El & Hv).
          rewrite <- (default_variants_by_label v x); auto. }
    subst vs. split; [exact L |].
    destruct L as (body & B & W). rewrite W.
    vm_compute in B. injection B as <-. reflexivity.
Qed.

(** C5, at a run in [studio] asked for 480p, 1080p and 720p. *)
Lemma bandwidth_is_video_bitrate_only_witness :
  exists r o,
    transcode_video studio default_transcoder "a.mp4" "v1"
                    (Some ["480p"; "1080p"; "720p"]) [] = (Ok r, o) /\
    manifest_lists default_transcoder o (r_hls_playlist r) three_variants /\
    writes o = [(r_hls_playlist r, three_variant_manifest)].
Proof.
  run_it.
  apply (proj2 (proj2 bandwidth_is_video_bitrate_only) _ _ _ _ _ _ _ E).
  vm_compute. intuition.
Defined.

(** ** [eval] on fractions *)

Lemma eval_arith_digits u : forall rest p acc,
  eval_arith (NilEmpty.string_of_uint u ++ rest) p (Literal acc)
  = eval_arith rest p (Literal (Decimal.revapp u acc)).
Proof.
  induction u; intros rest p acc; simpl; try rewrite IHu; reflexivity.
Qed.

Lemma eval_arith_literal u rest p :
  u <> Decimal.Nil ->
  eval_arith (NilEmpty.string_of_uint u ++ rest) p Operand
  = eval_arith rest p (Literal (Decimal.rev u)).
Proof.
  intros Hu. destruct u; [congruence | ..]; simpl;
    rewrite eval_arith_digits; reflexivity.
Qed.

Lemma arithmetic_text_digits u rest :
  arithmetic_text (NilEmpty.string_of_uint u ++ rest) = arithmetic_text rest.
Proof.
  induction u; simpl; try rewrite IHu; reflexivity.
Qed.

Lemma arithmetic_text_slash u rest :
  u <> Decimal.Nil ->
  arithmetic_text (String "/" (NilEmpty.string_of_uint u ++ rest))
  = arithmetic_text rest.
Proof.
  intros Hu. destruct u; [congruence | ..]; simpl;
    rewrite arithmetic_text_digits; reflexivity.
Qed.

(** The digits [str] prints for a positive number are a literal of that
    number: there is no leading zero. *)
Lemma literal_value_to_uint p :
  literal_value (Decimal.rev (Pos.to_uint p)) = Some (Zpos p).
Proof.
  unfold literal_value. rewrite rev_rev.
  pose proof (DecimalPos.Unsigned.of_to p) as OT.
  assert (V : Z.of_uint (Pos.to_uint p) = Zpos p)
    by (unfold Z.of_uint; rewrite OT; reflexivity).
  destruct (Pos.to_uint p) as [| u | u | u | u | u | u | u | u | u | u] eqn:E;
    try (rewrite V; reflexivity).
  exfalso.
  pose proof (DecimalPos.Unsigned.to_of (Pos.to_uint p)) as TO.
  rewrite E, OT in TO. simpl N.to_uint in TO. rewrite E in TO.
  unfold Decimal.unorm in TO.
  destruct (Decimal.nzhead (Decimal.D0 u)) eqn:Z;
    try (symmetry in TO; exact (nzhead_nonzero _ _ (eq_trans Z TO))).
  injection TO as ->.
  apply (DecimalPos.Unsigned.to_uint_nonzero p). exact E.
Qed.

(** The text of a number that is not negative. *)
Lemma py_str_int_nonneg a :
  0 <= a ->
  exists u, py_str_int a = NilEmpty.string_of_uint u /\
            u <> Decimal.Nil /\
            literal_value (Decimal.rev u) = Some a.
Proof.
  intros Ha. destruct a as [| p | p]; [| | lia].
  - exists (Decimal.D0 Decimal.Nil). repeat split. discriminate.
  - exists (Pos.to_uint p).
    pose proof (DecimalPos.Unsigned.to_uint_nonnil p) as N.
    split; [| split; [exact N | apply literal_value_to_uint]].
    unfold py_str_int. simpl. unfold NilZero.string_of_uint.
    destruct (Pos.to_uint p); [congruence | reflexivity ..].
Qed.

(** The text of a negative number. *)
Lemma py_str_int_neg a :
  a < 0 ->
  exists u, py_str_int a = String "-" (NilEmpty.string_of_uint u) /\
            u <> Decimal.Nil /\
            literal_value (Decimal.rev u) = Some (- a).
Proof.
  intros Ha. destruct a as [| p | p]; [lia | lia |].
  exists (Pos.to_uint p).
  pose proof (DecimalPos.Unsigned.to_uint_nonnil p) as N.
  split; [| split; [exact N | apply literal_value_to_uint]].
  unfold py_str_int. simpl. unfold NilZero.string_of_uint.
  destruct (Pos.to_uint p); [congruence | reflexivity ..].
Qed.

Lemma append_String c s t : (String c s ++ t)%string = String c (s ++ t).
Proof. reflexivity. Qed.

Lemma append_empty_r s : (s ++ "")%string = s.
Proof. induction s as [| c s IH]; simpl; [| rewrite IH]; reflexivity. Qed.

Lemma fraction_is_arithmetic a b : 0 <= b -> arithmetic_text (fraction a b) = true.
Proof.
  intros Hb. unfold fraction.
  destruct (py_str_int_nonneg b Hb) as (ub & -> & Nb & _).
  rewrite <- (append_empty_r (NilEmpty.string_of_uint ub)).
  destruct (Z_lt_le_dec a 0) as [Ha | Ha].
  - destruct (py_str_int_neg a Ha) as (ua & -> & Na & _).
    rewrite append_String. cbn [arithmetic_text digit_of].
    simpl. rewrite arithmetic_text_digits.
    change ("/" ++ NilEmpty.string_of_uint ub ++ "")%string
      with (String "/" (NilEmpty.string_of_uint ub ++ "")).
    apply arithmetic_text_slash, Nb.
  - destruct (py_str_int_nonneg a Ha) as (ua & -> & Na & _).
    rewrite arithmetic_text_digits.
    change ("/" ++ NilEmpty.string_of_uint ub ++ "")%string
      with (String "/" (NilEmpty.string_of_uint ub ++ "")).
    apply arithmetic_text_slash, Nb.
Qed.

Lemma eval_arith_fraction a b :
  0 <= b ->
  eval_arith (fraction a b) start Operand
  = if b =? 0 then Raise ZeroDivisionError
    else Ok (NFloat (inject_Z a / inject_Z b)).
Proof.
  intros Hb. unfold fraction.
  destruct (py_str_int_nonneg b Hb) as (ub & -> & Nb & Vb).
  rewrite <- (append_empty_r (NilEmpty.string_of_uint ub)).
  assert (Tail : forall p n,
             literal_value (Decimal.rev ub) = Some b ->
             term_so_far p = None -> sum_so_far p = None ->
             (if negated p then - n else n) = a ->
             forall ua, literal_value (Decimal.rev ua) = Some n ->
             eval_arith ("/" ++ NilEmpty.string_of_uint ub ++ "") p
                        (Literal (Decimal.rev ua))
             = if b =? 0 then Raise ZeroDivisionError
               else Ok (NFloat (inject_Z a / inject_Z b))).
  { intros p n Vb' Tp Sp Sg ua Va.
    change ("/" ++ NilEmpty.string_of_uint ub ++ "")%string
      with (String "/" (NilEmpty.string_of_uint ub ++ "")).
    cbn [eval_arith digit_of]. rewrite Va.
    cbn [Ascii.eqb Bool.eqb]. cbv iota.
    rewrite eval_arith_literal by exact Nb.
    cbn [eval_arith]. rewrite Vb'.
    unfold close_factor, close_term. cbn [negated term_so_far sum_so_far].
    rewrite Tp, Sp, Sg. cbn [rbind apply_mul num_is_zero to_Q].
    destruct (b =? 0); reflexivity. }
  destruct (Z_lt_le_dec a 0) as [Ha | Ha].
  - destruct (py_str_int_neg a Ha) as (ua & -> & Na & Va).
    rewrite append_String. cbn [eval_arith digit_of].
    cbn [Ascii.eqb Bool.eqb]. cbv iota.
    rewrite eval_arith_literal by exact Na.
    apply (Tail _ (- a)); try reflexivity; try assumption.
    simpl. lia.
  - destruct (py_str_int_nonneg a Ha) as (ua & -> & Na & Va).
    rewrite eval_arith_literal by exact Na.
    apply (Tail _ a); try reflexivity; assumption.
Qed.

(** [eval] of a fraction with a positive denominator is the quotient. *)
Lemma py_eval_fraction env a b :
  0 < b ->
  py_eval env (fraction a b) = Ok (PFloat (inject_Z a / inject_Z b)).
Proof.
  intros Hb. unfold py_eval.
  rewrite fraction_is_arithmetic, eval_arith_fraction by lia.
  replace (b =? 0) with false by (symmetry; apply Z.eqb_neq; lia).
  reflexivity.
Qed.

(** ** Where the frame rate comes from *)

Lemma tame_rbind {A B} (r : result A) (k : A -> result B) :
  tame r -> (forall a, tame (k a)) -> tame (rbind r k).
Proof.
  unfold tame. intros Hr Hk. destruct r as [a | e]; simpl; [apply Hk |].
  intros [= ->]. apply Hr. reflexivity.
Qed.

Lemma tame_subscript x k : tame (subscript x k).
Proof.
  unfold tame, subscript. destruct x; try discriminate.
  destruct (dict_get d k); discriminate.
Qed.

Lemma tame_py_iter x : tame (py_iter x).
Proof. unfold tame. destruct x; discriminate. Qed.

Lemma tame_as_dict x : tame (as_dict x).
Proof. unfold tame. destruct x; discriminate. Qed.

Lemma tame_first_stream kind streams : tame (first_stream kind streams).
Proof.
  induction streams as [| s rest IH]; simpl; [discriminate |].
  apply tame_rbind; [apply tame_subscript |].
  intros c. destruct (eq_str c kind); [discriminate | exact IH].
Qed.

Lemma tame_py_int_str s : tame (py_int_str s).
Proof.
  unfold tame, py_int_str.
  destruct (match s with
            | String "+"%char r =>
                match r with
                | String "-"%char _ => None
                | _ => option_map Decimal.Pos (NilZero.uint_of_string r)
                end
            | _ => NilZero.int_of_string s
            end); discriminate.
Qed.

Lemma tame_py_int x : tame (py_int x).
Proof.
  destruct x; try discriminate. apply tame_py_int_str.
Qed.

Lemma tame_py_float x : tame (py_float x).
Proof.
  destruct x; try discriminate. unfold tame. simpl. unfold py_float_str.
  destruct (match s with
            | String "-"%char r => (true, r)
            | String "+"%char r => (false, r)
            | _ => (false, s)
            end) as [neg body].
  destruct (decimal_text body); discriminate.
Qed.

Ltac tame_step H v E lemma :=
  match type of H with
  | rbind ?x _ = _ =>
      destruct x as [v | ?e] eqn:E;
      [cbn [rbind] in H
      | cbn [rbind] in H; exfalso;
        match type of H with
        | Raise ?e' = _ =>
            assert (e' = CalledProcessError) by congruence; subst;
            eapply lemma; eassumption
        end]
  end.

(** What line 153 makes of the prober's output when it has a video stream
    whose frame rate is the text [s]: the metadata records the value of
    [eval(s)], and an exception of [eval(s)] leaves the probe -- unless it
    is the one line 162 catches. *)
Lemma extract_metadata_fps env stdout data streams vs s :
  json_loads stdout = Ok data ->
  rbind (subscript data "streams") py_iter = Ok streams ->
  first_stream "video" streams = Ok (PDict vs) ->
  dict_get vs "r_frame_rate" = Some (PStr s) ->
  match extract_metadata env stdout with
  | Ok md => exists v, py_eval env s = Ok v /\ dict_get md "fps" = Some v
  | Raise CalledProcessError => py_eval env s = Raise CalledProcessError
  | Raise _ => True
  end.
Proof.
  intros Hd Hs Hv Hr.
  assert (T : truthy (PDict vs) = true)
    by (destruct vs; [discriminate | reflexivity]).
  assert (G : forall w ht,
             rbind (eval_value env (get_default vs "r_frame_rate" (PStr "0/1")))
                   (fun fps => Ok [("width", PInt w); ("height", PInt ht);
                                   ("codec", get_or_none vs "codec_name");
                                   ("fps", fps)])
             = rmap (fun fps => [("width", PInt w); ("height", PInt ht);
                                 ("codec", get_or_none vs "codec_name");
                                 ("fps", fps)]) (py_eval env s)).
  { intros w ht. unfold get_default at 1. rewrite Hr. reflexivity. }
  destruct (extract_metadata env stdout) as [md | e] eqn:H.
  - unfold extract_metadata in H. rewrite Hd in H. cbn [rbind] in H.
    rewrite Hs in H. cbn [rbind] in H. rewrite Hv in H. cbn [rbind] in H.
    rbind_step H audio_stream E3. rbind_step H fmt E4.
    rbind_step H duration E5. rbind_step H size E6. rbind_step H bit_rate E7.
    rewrite T in H. unfold video_fields at 1 in H. cbn [as_dict rbind] in H.
    unfold rmap at 1 in H.
    rbind_step H m1 E8. rbind_step H m2 E9. injection H as <-.
    rbind_step E8 fields F. injection E8 as <-.
    rbind_step F w F1. rbind_step F ht F2. rewrite G in F.
    unfold rmap in F. rbind_step F fps F3. injection F as <-.
    exists fps. split; [reflexivity |].
    destruct (truthy audio_stream).
    + unfold rmap in E9. rbind_step E9 a A. injection E9 as <-. reflexivity.
    + injection E9 as <-. reflexivity.
  - destruct e; try exact I.
    unfold extract_metadata in H. rewrite Hd in H. cbn [rbind] in H.
    rewrite Hs in H. cbn [rbind] in H. rewrite Hv in H. cbn [rbind] in H.
    tame_step H audio_stream E3 tame_first_stream.
    destruct (rbind (subscript data "format") as_dict) as [fmt | e] eqn:E4;
      [cbn [rbind] in H | cbn [rbind] in H].
    2:{ exfalso. assert (e = CalledProcessError) by congruence. subst e.
        revert E4. apply tame_rbind; [apply tame_subscript |].
        intros a. apply tame_as_dict. }
    tame_step H duration E5 tame_py_float.
    tame_step H size E6 tame_py_int.
    tame_step H bit_rate E7 tame_py_int.
    rewrite T in H. unfold video_fields at 1 in H. cbn [as_dict rbind] in H.
    unfold rmap at 1 in H.
    destruct (rbind (py_int (get_default vs "width" (PInt 0))) _)
      as [m1 | e] eqn:E8; cbn [rbind] in H.
    + destruct (truthy audio_stream).
      * destruct (as_dict audio_stream) as [a | e] eqn:A;
          [discriminate H |].
        injection H as ->. exfalso. exact (tame_as_dict _ A).
      * discriminate.
    + assert (e = CalledProcessError) by congruence. subst e. clear H.
      tame_step E8 w F1 tame_py_int. tame_step E8 ht F2 tame_py_int.
      rewrite G in E8. unfold rmap in E8.
      destruct (py_eval env s) as [fps | e]; cbn [rbind] in E8; congruence.
Qed.

(** C1, as stated, fails: [1+1] is not a fraction, yet it is not
    rejected: it is evaluated, and the metadata records 2 frames per
    second. *)
Lemma frame_rate_counterexample :
  fraction_text "1+1" = false /\
  exists md o,
    _get_video_metadata studio_sum_rate "./uploads/a.mp4" [] = (Ok md, o) /\
    dict_get md "fps" = Some (PInt 2).
Proof.
  split; [reflexivity |]. vm_compute. eexists _, _. split; reflexivity.
Qed.

(** C1, amended.  When the prober's output has a video stream with frame
    rate text [s], the frame rate in the metadata the probe returns is
    the value of [eval(s)] (the probe returns the empty dictionary
    instead when [eval(s)] raises the exception line 162 catches).  For
    [s] of the form [a/b], [a] an integer and [b] a positive integer as
    [str] prints them, that value is the quotient [a/b].  Text that is
    not such a fraction is evaluated all the same: [1+1] gives 2 and [30]
    gives 30. *)
Theorem frame_rate_is_evaluated :
  forall env,
    (forall input_file h s md o,
        let answer := respond env h (Ffprobe input_file) in
        returncode answer = 0 ->
        video_frame_rate answer s ->
        _get_video_metadata env input_file h = (Ok md, o) ->
        (exists v, py_eval env s = Ok v /\ dict_get md "fps" = Some v) \/
        (py_eval env s = Raise CalledProcessError /\ md = [])) /\
    (forall input_file h a b md o,
        let answer := respond env h (Ffprobe input_file) in
        returncode answer = 0 ->
        video_frame_rate answer (fraction a b) ->
        0 < b ->
        _get_video_metadata env input_file h = (Ok md, o) ->
        dict_get md "fps" = Some (PFloat (inject_Z a / inject_Z b))) /\
    (forall a b, 0 < b ->
                 py_eval env (fraction a b)
                 = Ok (PFloat (inject_Z a / inject_Z b))) /\
    py_eval env "1+1" = Ok (PInt 2) /\
    py_eval env "30" = Ok (PInt 30).
Proof.
  intros env.
  assert (G : forall input_file h s md o,
             returncode (respond env h (Ffprobe input_file)) = 0 ->
             video_frame_rate (respond env h (Ffprobe input_file)) s ->
             _get_video_metadata env input_file h = (Ok md, o) ->
             (exists v, py_eval env s = Ok v /\ dict_get md "fps" = Some v) \/
             (py_eval env s = Raise CalledProcessError /\ md = [])).
  { intros input_file h s md o Hexit (data & streams & vs & Hd & Hs & Hv & Hr) H.
    rewrite get_video_metadata_eq in H. cbv zeta in H.
    unfold succeeded in H. rewrite Hexit in H. simpl in H.
    pose proof (extract_metadata_fps env _ _ _ _ _ Hd Hs Hv Hr) as F.
    destruct (extract_metadata env (respond env h (Ffprobe input_file)))
      as [md' | e].
    - injection H as <- _. left. exact F.
    - destruct e; try discriminate H.
      injection H as <- _. right. auto. }
  split; [exact G |]. split; [| split; [| split; reflexivity]].
  - intros input_file h a b md o answer Hexit Hv Hb H.
    destruct (G _ _ _ _ _ Hexit Hv H) as [(v & Ev & Hf) | (Ev & _)];
      rewrite py_eval_fraction in Ev by exact Hb.
    + injection Ev as <-. exact Hf.
    + discriminate.
  - intros a b Hb. apply py_eval_fraction, Hb.
Qed.

(** C1 amended, at the clip of [studio], whose frame rate is
    30000/1001. *)
Lemma frame_rate_is_evaluated_witness :
  exists md o,
    _get_video_metadata studio "./uploads/a.mp4" [] = (Ok md, o) /\
    dict_get md "fps" = Some (PFloat (inject_Z 30000 / inject_Z 1001)).
Proof.
  assert (E : exists md o,
             _get_video_metadata studio "./uploads/a.mp4" [] = (Ok md, o)).
  { vm_compute. eexists _, _. reflexivity. }
  destruct E as (md & o & E). exists md, o. split; [exact E |].
  refine (proj1 (proj2 (frame_rate_is_evaluated studio))
                "./uploads/a.mp4" [] 30000 1001 md o _ _ _ E).
  - reflexivity.
  - do 3 eexists. repeat split; reflexivity.
  - lia.
Defined.

(* ================================================================== *)
(** * Further properties of the transcoder *)

(** ** The exception of a failed command never comes out *)

Lemma contained_ret {A} (a : A) : contained (ret a).
Proof. intros h. discriminate. Qed.

Lemma contained_emit (e : event) : contained (emit e).
Proof. intros h. discriminate. Qed.

Lemma contained_lift {A} (r : result A) : tame r -> contained (lift r).
Proof. intros H h. exact H. Qed.

Lemma contained_bind {A B} (m : M A) (k : A -> M B) :
  contained m -> (forall a, contained (k a)) -> contained (bind m k).
Proof.
  intros Hm Hk h. unfold bind. specialize (Hm h).
  destruct (m h) as [[a | e] o1].
  - specialize (Hk a (h ++ o1)%list).
    destruct (k a (h ++ o1)%list) as [r o2]. exact Hk.
  - unfold tame in *. simpl in *. intros [= ->]. apply Hm. reflexivity.
Qed.

(** Whatever the body does, a handler that contains the exception makes
    the whole [try] contain it. *)
Lemma contained_except {A} (body handler : M A) :
  contained handler -> contained (except_called_process_error body handler).
Proof.
  intros Hh h. unfold except_called_process_error.
  destruct (body h) as [[a | e] o1]; [discriminate |].
  specialize (Hh (h ++ o1)%list).
  destruct e; try discriminate.
  destruct (handler (h ++ o1)%list) as [r o2]. exact Hh.
Qed.

Lemma contained_for_each {A S} (body : S -> A -> M S) (l : list A) :
  (forall s x, contained (body s x)) -> forall s, contained (for_each body l s).
Proof.
  intros Hb. induction l as [| x l IH]; intros s; simpl.
  - apply contained_ret.
  - apply contained_bind; auto.
Qed.

Lemma tame_bitrate_kbps p : tame (bitrate_kbps p).
Proof.
  unfold tame. intros E. apply bitrate_kbps_raises in E. discriminate.
Qed.

Lemma tame_preset_of self l : tame (preset_of self l).
Proof. unfold tame, preset_of. destruct (dict_get _ _); discriminate. Qed.

Lemma tame_stream_infs self vs : tame (stream_infs self vs).
Proof.
  induction vs as [| v vs IH]; simpl; [discriminate |].
  apply tame_rbind.
  - unfold stream_inf. apply tame_rbind; [apply tame_preset_of |].
    intros p. discriminate.
  - intros a. apply tame_rbind; [exact IH | intros b; discriminate].
Qed.

Lemma tame_master_text self vs : tame (master_text self vs).
Proof.
  unfold master_text, rmap. apply tame_rbind; [apply tame_stream_infs |].
  intros body. discriminate.
Qed.

Lemma tame_apply_mul op x y : tame (apply_mul op x y).
Proof.
  unfold tame, apply_mul. destruct op.
  - destruct x, y; discriminate.
  - destruct (num_is_zero y); discriminate.
Qed.

Lemma tame_as_number x : tame (as_number x).
Proof. unfold tame. destruct x; discriminate. Qed.

Ltac contain :=
  repeat (intros; first
    [ apply contained_ret | apply contained_emit
    | apply contained_except
    | apply contained_bind | apply contained_for_each
    | apply contained_lift;
      first [ apply tame_bitrate_kbps | apply tame_preset_of
            | apply tame_master_text | apply tame_apply_mul
            | apply tame_as_number ]
    | match goal with
      | |- contained (match ?x with _ => _ end) => destruct x
      | |- contained (let '(_, _) := ?x in _) => destruct x
      | |- contained (if ?b then _ else _) => destruct b
      end ]).

Section Contained.

Variable env : Env.
Variable self : transcoder.

Lemma probe_contained input_file : contained (_get_video_metadata env input_file).
Proof. unfold _get_video_metadata, log_error. contain. Qed.

Lemma encode_contained input_file output_dir resolution p :
  contained (_transcode_resolution env input_file output_dir resolution p).
Proof. unfold _transcode_resolution, log_error, log_info. contain. Qed.

Lemma manifest_contained output_dir renditions :
  contained (_generate_hls_playlist env self output_dir renditions).
Proof.
  unfold _generate_hls_playlist, hls_variant, log_error, log_info. contain.
Qed.

Lemma thumbnails_contained input_file output_dir count :
  contained (_generate_thumbnails env input_file output_dir count).
Proof.
  unfold _generate_thumbnails, thumbnail, log_error, log_info.
  apply contained_bind; [apply contained_emit | intros _].
  apply contained_bind; [apply probe_contained | intros md].
  contain.
Qed.

Lemma preview_contained input_file output_dir seconds :
  contained (_generate_preview env input_file output_dir seconds).
Proof. unfold _generate_preview, log_error, log_info. contain. Qed.

Lemma run_contained input_file video_id resolutions :
  contained (transcode_video env self input_file video_id resolutions).
Proof.
  unfold transcode_video.
  destruct (negb _); [intros h; discriminate |].
  unfold log_info.
  apply contained_bind; [apply contained_emit | intros _].
  apply contained_bind; [apply probe_contained | intros md].
  apply contained_bind; [apply contained_emit | intros _].
  apply contained_bind.
  { apply contained_for_each. intros s x. unfold transcode_one, log_warning, log_info.
    destruct (dict_get (presets self) x).
    - apply contained_bind; [apply contained_emit | intros _].
      apply contained_bind; [apply encode_contained | intros f]. contain.
    - contain. }
  intros renditions.
  apply contained_bind; [apply manifest_contained | intros hls].
  apply contained_bind; [apply thumbnails_contained | intros th].
  apply contained_bind; [apply preview_contained | intros pv].
  contain.
Qed.

End Contained.

(** X1. No failure of ffprobe or ffmpeg comes out of the transcoder as an
    exception: neither a whole run nor any of its five stages, called on
    its own, ever raises [CalledProcessError]. *)
Theorem tool_failures_never_escape :
  forall env self,
    (forall input_file h,
        fst (_get_video_metadata env input_file h) <> Raise CalledProcessError) /\
    (forall input_file output_dir resolution p h,
        fst (_transcode_resolution env input_file output_dir resolution p h)
        <> Raise CalledProcessError) /\
    (forall output_dir renditions h,
        fst (_generate_hls_playlist env self output_dir renditions h)
        <> Raise CalledProcessError) /\
    (forall input_file output_dir count h,
        fst (_generate_thumbnails env input_file output_dir count h)
        <> Raise CalledProcessError) /\
    (forall input_file output_dir seconds h,
        fst (_generate_preview env input_file output_dir seconds h)
        <> Raise CalledProcessError) /\
    (forall input_file video_id resolutions h,
        fst (transcode_video env self input_file video_id resolutions h)
        <> Raise CalledProcessError).
Proof.
  intros env self. repeat split; intros.
  - apply probe_contained.
  - apply encode_contained.
  - apply manifest_contained.
  - apply thumbnails_contained.
  - apply preview_contained.
  - apply run_contained.
Qed.

(** ** The whole log of a run *)

Lemma commands_app a b : commands (a ++ b) = (commands a ++ commands b)%list.
Proof. apply flat_map_app. Qed.

Lemma made_dirs_app a b : made_dirs (a ++ b) = (made_dirs a ++ made_dirs b)%list.
Proof. apply flat_map_app. Qed.

Lemma thumb_files_app a b :
  thumb_files (a ++ b) = (thumb_files a ++ thumb_files b)%list.
Proof. apply flat_map_app. Qed.

Lemma preview_attempts_app a b :
  preview_attempts (a ++ b) = (preview_attempts a ++ preview_attempts b)%list.
Proof. apply flat_map_app. Qed.

(** A run that returns went through the stages in the order of the
    source, and its log is theirs, between the two messages of lines 54
    and 112. *)
Lemma transcode_video_log env self input_file video_id resolutions h r o :
  transcode_video env self input_file video_id resolutions h = (Ok r, o) ->
  let source := input_path self input_file in
  let target := video_output_dir self video_id in
  exists h1 o1 h2 o2 h3 o3 h4 o4 h5 o5,
    _get_video_metadata env source h1 = (Ok (r_metadata r), o1) /\
    for_each (transcode_one env self source target)
             (requested self resolutions) [] h2
    = (Ok (r_resolutions r), o2) /\
    _generate_hls_playlist env self target (r_resolutions r) h3
    = (Ok (r_hls_playlist r), o3) /\
    _generate_thumbnails env source target 10 h4
    = (Ok (r_thumbnails r), o4) /\
    _generate_preview env source target 30 h5 = (Ok (r_preview r), o5) /\
    o = (start_message video_id :: o1 ++ MadeDir target :: o2 ++ o3 ++ o4
           ++ o5 ++ [completed_message video_id])%list.
Proof.
  cbv zeta. unfold transcode_video.
  fold (requested self resolutions) (input_path self input_file)
       (video_output_dir self video_id).
  destruct (path_exists env (input_path self input_file)); [| discriminate].
  simpl negb. cbv iota. intros H.
  apply bind_ok_inv in H. destruct H as ([] & oa & oa' & Ha & H & ->).
  injection Ha as <-.
  apply bind_ok_inv in H. destruct H as (md & o1 & ob & H1 & H & ->).
  apply bind_ok_inv in H. destruct H as ([] & oc & oc' & Hc & H & ->).
  injection Hc as <-.
  apply bind_ok_inv in H. destruct H as (rend & o2 & od & H2 & H & ->).
  apply bind_ok_inv in H. destruct H as (hls & o3 & oe & H3 & H & ->).
  apply bind_ok_inv in H. destruct H as (thumbs & o4 & oq & H4 & H & ->).
  apply bind_ok_inv in H. destruct H as (prev & o5 & og & H5 & H & ->).
  apply bind_ok_inv in H. destruct H as ([] & oh & oh' & Hh & H & ->).
  injection Hh as <-. injection H as <- <-.
  simpl. do 10 eexists.
  split; [exact H1 |]. split; [exact H2 |]. split; [exact H3 |].
  split; [exact H4 |]. split; [exact H5 |].
  unfold start_message, completed_message.
  reflexivity.
Qed.

(** ** What each stage starts *)

Section StageCommands.

Variable env : Env.
Variable self : transcoder.

(** The prober is started once, whatever comes of it. *)
Lemma probe_log input_file h :
  let c := Ffprobe input_file in
  let r := respond env h c in
  snd (_get_video_metadata env input_file h) = [Ran c r] \/
  snd (_get_video_metadata env input_file h)
  = [Ran c r; Logged ERROR "Error getting video metadata"].
Proof.
  cbv zeta. rewrite get_video_metadata_eq. cbv zeta.
  destruct (succeeded _); [| right; reflexivity].
  destruct (extract_metadata env _) as [md | e]; [left; reflexivity |].
  destruct e; auto.
Qed.

Lemma probe_commands input_file h :
  commands (snd (_get_video_metadata env input_file h)) = [Ffprobe input_file].
Proof.
  destruct (probe_log input_file h) as [-> | ->]; reflexivity.
Qed.

Lemma probe_made_dirs input_file h :
  made_dirs (snd (_get_video_metadata env input_file h)) = [].
Proof.
  destruct (probe_log input_file h) as [-> | ->]; reflexivity.
Qed.

(** The loop over the labels starts the encoder and nothing else. *)
Lemma encode_loop_commands source target ls : forall acc h res o,
  for_each (transcode_one env self source target) ls acc h = (res, o) ->
  map stage_of (commands o) = repeat Encoding (List.length (encode_attempts o)) /\
  made_dirs o = [] /\
  Forall (encodes_with_preset self source target) (commands o).
Proof.
  induction ls as [| x ls IH]; intros acc h res o H.
  - injection H as <- <-. repeat split. constructor.
  - simpl in H. apply bind_inv in H.
    assert (T : forall a o1,
               transcode_one env self source target acc x h = (a, o1) ->
               map stage_of (commands o1)
               = repeat Encoding (List.length (encode_attempts o1)) /\
               made_dirs o1 = [] /\
               Forall (encodes_with_preset self source target) (commands o1)).
    { intros a o1. rewrite transcode_one_eq.
      destruct (dict_get (presets self) x) as [p |] eqn:Ep.
      - destruct (bitrate_kbps p) as [kbps | e] eqn:Ek.
        + cbv zeta.
          assert (P : encodes_with_preset self source target
                        (encode_command source target x p kbps))
            by (exists x, p, kbps; auto).
          destruct (succeeded _); intros [= <- <-]; repeat split;
            repeat constructor; exact P.
        + intros [= <- <-]. repeat split. constructor.
      - intros [= <- <-]. repeat split. constructor. }
    destruct H as [(e & H1 & ->) | (a & o1 & o2 & H1 & H2 & ->)].
    + apply T in H1. exact H1.
    + apply T in H1. apply IH in H2.
      destruct H1 as (C1 & D1 & F1), H2 as (C2 & D2 & F2).
      rewrite commands_app, made_dirs_app, encode_attempts_app, map_app,
        length_app, repeat_app, C1, C2, D1, D2.
      repeat split. apply Forall_app. auto.
Qed.

(** The loop over the renditions starts the segmenter once for each. *)
Lemma hls_loop_commands hls_dir items : forall acc h acc' o,
  for_each (hls_variant env self hls_dir) items acc h = (Ok acc', o) ->
  map stage_of (commands o) = repeat Segmenting (List.length items) /\
  made_dirs o = [] /\
  forall f seg vp l,
    In (FfmpegHls f seg vp l) (commands o) ->
    In (l, f) items /\
    seg = path_join hls_dir (l ++ "_%03d.ts") /\
    vp = path_join hls_dir (l ++ ".m3u8").
Proof.
  induction items as [| [l f] items IH]; intros acc h acc' o H.
  - injection H as <- <-. split; [reflexivity |]. split; [reflexivity |].
    intros ? ? ? ? [].
  - cbn [for_each] in H. apply bind_ok_inv in H.
    destruct H as (acc1 & o1 & o2 & H1 & H2 & ->).
    apply IH in H2. destruct H2 as (C2 & D2 & I2).
    rewrite hls_variant_eq in H1.
    assert (T : commands o1
                = [FfmpegHls f (path_join hls_dir (l ++ "_%03d.ts"))
                             (path_join hls_dir (l ++ ".m3u8")) l] /\
                made_dirs o1 = []).
    { destruct (dict_get (presets self) l) as [p |]; [| discriminate].
      cbv zeta in H1. destruct (succeeded _).
      - destruct (bitrate_kbps p); [| discriminate].
        injection H1 as <- <-. split; reflexivity.
      - injection H1 as <- <-. split; reflexivity. }
    destruct T as [C1 D1].
    rewrite commands_app, made_dirs_app, map_app, C1, C2, D1, D2.
    split; [reflexivity |]. split; [reflexivity |].
    intros f' seg vp l' [E | Hin].
    + injection E as <- <- <- <-. repeat split. left. reflexivity.
    + apply I2 in Hin. destruct Hin as (Hin & -> & ->).
      repeat split. right. exact Hin.
Qed.

Lemma manifest_commands output_dir renditions h path o :
  _generate_hls_playlist env self output_dir renditions h = (Ok path, o) ->
  map stage_of (commands o) = repeat Segmenting (List.length renditions) /\
  made_dirs o = [path_join output_dir "hls"] /\
  forall f seg vp l,
    In (FfmpegHls f seg vp l) (commands o) ->
    In (l, f) renditions /\
    seg = segment_pattern output_dir l /\
    vp = variant_path output_dir l.
Proof.
  unfold _generate_hls_playlist. intros H.
  apply bind_ok_inv in H. destruct H as ([] & o0 & oa & H0 & H & ->).
  injection H0 as <-.
  apply bind_ok_inv in H. destruct H as (vps & o1 & ob & H1 & H & ->).
  apply hls_loop_commands in H1. destruct H1 as (C1 & D1 & I1).
  apply bind_ok_inv in H. destruct H as (text & o2 & oc & H2 & H & ->).
  unfold lift in H2. injection H2 as H2 <-.
  apply bind_ok_inv in H. destruct H as ([] & o3 & od & H3 & H & ->).
  injection H3 as <-.
  apply bind_ok_inv in H. destruct H as ([] & o4 & oe & H4 & H & ->).
  injection H4 as <-. injection H as <- <-.
  rewrite !commands_app, !made_dirs_app, D1.
  cbn [commands made_dirs flat_map command_of dir_of app].
  rewrite !List.app_nil_r. fold (commands o1).
  split; [exact C1 |]. split; [reflexivity |].
  intros f seg vp l Hin. apply I1 in Hin. exact Hin.
Qed.

End StageCommands.

(** ** The thumbnail stage, file by file *)

Section ThumbnailFiles.

Variable env : Env.
Variables input_file thumbnails_dir : string.

Lemma thumbnail_loop_files interval idx : forall acc h acc' o,
  for_each (thumbnail env input_file thumbnails_dir (NFloat interval))
           idx acc h = (Ok acc', o) ->
  acc' = (acc ++ successes (thumb_files o))%list /\
  map fst (thumb_files o) = map (thumb_path thumbnails_dir) idx /\
  map stage_of (commands o) = repeat Sampling (List.length idx) /\
  made_dirs o = [] /\
  Forall (fun c => exists t out, c = FfmpegThumb t input_file out) (commands o).
Proof.
  induction idx as [| i idx IH]; intros acc h acc' o H.
  - injection H as <- <-. rewrite List.app_nil_r. repeat split. constructor.
  - cbn [for_each] in H. apply bind_ok_inv in H.
    destruct H as (acc1 & o1 & o2 & H1 & H2 & ->).
    apply IH in H2. destruct H2 as (-> & F2 & C2 & D2 & A2).
    rewrite thumbnail_eq in H1. cbv zeta in H1.
    rewrite thumb_files_app, commands_app, made_dirs_app, successes_app,
      !map_app, F2, C2, D2.
    revert H1. set (c := FfmpegThumb _ _ _).
    generalize (respond env h c). intros r.
    destruct (succeeded r) eqn:Es; intros [= <- <-].
    + unfold thumb_files at 1 2, successes at 1. simpl. rewrite Es. simpl.
      rewrite <- List.app_assoc. repeat split.
      constructor; [| exact A2]. subst c. eauto.
    + unfold thumb_files at 1 2, successes at 1. simpl. rewrite Es. simpl.
      repeat split.
      constructor; [| exact A2]. subst c. eauto.
Qed.

End ThumbnailFiles.

Lemma probe_thumb_files env input_file h :
  thumb_files (snd (_get_video_metadata env input_file h)) = [].
Proof.
  destruct (probe_log env input_file h) as [-> | ->]; reflexivity.
Qed.

(** The division of line 263 gives a float whenever it gives anything. *)
Lemma interval_is_float d n x :
  apply_mul OpDiv d (NInt n) = Ok x ->
  n <> 0 /\ x = NFloat (Qdiv (to_Q d) (inject_Z n)).
Proof.
  unfold apply_mul, num_is_zero. destruct (n =? 0) eqn:E; [discriminate |].
  intros [= <-]. apply Z.eqb_neq in E. auto.
Qed.

(** The thumbnail stage: it makes its directory, probes the source, and
    then either stops because the duration is zero, or asks for one frame
    per index from 1 to [count]; it returns the files of the attempts
    that succeeded, in order. *)
Lemma generate_thumbnails_inv env input_file output_dir count h thumbnails o :
  _generate_thumbnails env input_file output_dir count h = (Ok thumbnails, o) ->
  let dir := path_join output_dir "thumbnails" in
  thumbnails = successes (thumb_files o) /\
  made_dirs o = [dir] /\
  exists md cs,
    fst (_get_video_metadata env input_file (h ++ [MadeDir dir])%list) = Ok md /\
    commands o = Ffprobe input_file :: cs /\
    Forall (fun c => exists t out, c = FfmpegThumb t input_file out) cs /\
    ((eq_zero (get_default md "duration" (PInt 0)) = true /\
      cs = [] /\ thumb_files o = []) \/
     (eq_zero (get_default md "duration" (PInt 0)) = false /\
      count <> -1 /\
      List.length cs = Z.to_nat count /\
      map fst (thumb_files o) = map (thumb_path dir) (py_range 1 (count + 1)) /\
      exists before,
        o = (before
               ++ [Logged INFO
                     ("Generated "
                        ++ py_str_int (Z.of_nat (List.length thumbnails))
                        ++ " thumbnails")])%list)).
Proof.
  cbv zeta. unfold _generate_thumbnails. intros H.
  apply bind_ok_inv in H. destruct H as ([] & o0 & oa & H0 & H & ->).
  injection H0 as <-.
  apply bind_ok_inv in H. destruct H as (md & o1 & ob & H1 & H & ->).
  pose proof (probe_commands env input_file
                ([] ++ h ++ [MadeDir (path_join output_dir "thumbnails")])%list)
    as C1.
  pose proof (probe_made_dirs env input_file
                ([] ++ h ++ [MadeDir (path_join output_dir "thumbnails")])%list)
    as D1.
  pose proof (probe_thumb_files env input_file
                ([] ++ h ++ [MadeDir (path_join output_dir "thumbnails")])%list)
    as F1.
  simpl app in C1, D1, F1. rewrite H1 in C1, D1, F1. simpl snd in C1, D1, F1.
  destruct (eq_zero (get_default md "duration" (PInt 0))) eqn:Ez.
  - injection H as <- <-.
    rewrite !thumb_files_app, !made_dirs_app, !commands_app, C1, D1, F1.
    split; [reflexivity |]. split; [reflexivity |].
    exists md, []. rewrite H1. split; [reflexivity |]. split; [reflexivity |].
    split; [constructor |]. left. auto using Ez.
  - apply bind_ok_inv in H. destruct H as (d & o2 & oc & H2 & H & ->).
    unfold lift in H2. injection H2 as H2 <-.
    apply bind_ok_inv in H. destruct H as (iv & o3 & od & H3 & H & ->).
    unfold lift in H3. injection H3 as H3 <-.
    apply interval_is_float in H3. destruct H3 as [Hc ->].
    apply bind_ok_inv in H. destruct H as (ths & o4 & oe & H4 & H & ->).
    apply thumbnail_loop_files in H4.
    destruct H4 as (-> & F4 & C4 & D4 & A4).
    apply bind_ok_inv in H. destruct H as ([] & o5 & og & H5 & H & ->).
    injection H5 as <-. injection H as <- <-.
    rewrite !thumb_files_app, !made_dirs_app, !commands_app, C1, D1, F1, D4.
    cbn [thumb_files made_dirs commands flat_map thumb_file_of dir_of
         command_of app].
    rewrite !List.app_nil_r.
    split; [reflexivity |]. split; [reflexivity |].
    exists md, (commands o4). rewrite H1.
    split; [reflexivity |]. split; [reflexivity |]. split; [exact A4 |].
    right. split; [exact Ez |]. split; [lia |]. split.
    { apply (f_equal (@List.length stage)) in C4.
      rewrite length_map, repeat_length in C4. rewrite C4.
      unfold py_range. rewrite length_map, length_seq. f_equal. lia. }
    split; [exact F4 |].
    eexists (MadeDir _ :: o1 ++ o4)%list. simpl.
    rewrite <- !List.app_assoc. reflexivity.
Qed.

(** ** The order of the stages *)

Lemma In_commands c answer o : In (Ran c answer) o -> In c (commands o).
Proof.
  intros H. unfold commands. apply in_flat_map.
  exists (Ran c answer). split; [exact H | left; reflexivity].
Qed.

Lemma commands_cons e o : commands (e :: o) = (command_of e ++ commands o)%list.
Proof. reflexivity. Qed.

Lemma made_dirs_cons e o : made_dirs (e :: o) = (dir_of e ++ made_dirs o)%list.
Proof. reflexivity. Qed.

Lemma stage_of_repeat cs s n c :
  map stage_of cs = repeat s n -> In c cs -> stage_of c = s.
Proof.
  intros E H. apply (in_map stage_of) in H. rewrite E in H.
  apply repeat_spec in H. exact H.
Qed.

Lemma preview_commands env input_file output_dir seconds h :
  commands (snd (_generate_preview env input_file output_dir seconds h))
  = [FfmpegPreview input_file seconds (preview_path output_dir)] /\
  made_dirs (snd (_generate_preview env input_file output_dir seconds h)) = [].
Proof.
  rewrite generate_preview_eq. cbv zeta. destruct (succeeded _); split; reflexivity.
Qed.

(** The commands of a run that returns, stage by stage. *)
Lemma run_commands env self input_file video_id resolutions h r o :
  transcode_video env self input_file video_id resolutions h = (Ok r, o) ->
  let source := input_path self input_file in
  let target := video_output_dir self video_id in
  exists encodes segments stills,
    commands o
    = (Ffprobe source :: encodes ++ segments
         ++ Ffprobe source :: stills
         ++ [FfmpegPreview source 30 (preview_path target)])%list /\
    map stage_of encodes
    = repeat Encoding
             (List.length (filter (known self) (requested self resolutions))) /\
    map stage_of segments
    = repeat Segmenting (List.length (r_resolutions r)) /\
    (forall f seg vp l,
        In (FfmpegHls f seg vp l) segments ->
        In (l, f) (r_resolutions r) /\
        seg = segment_pattern target l /\ vp = variant_path target l) /\
    Forall (fun c => exists t out, c = FfmpegThumb t source out) stills /\
    (List.length stills = 0 \/ List.length stills = 10)%nat /\
    made_dirs o
    = [target; path_join target "hls"; path_join target "thumbnails"] /\
    Forall (encodes_with_preset self source target) encodes.
Proof.
  intros H. cbv zeta.
  apply transcode_video_log in H. cbv zeta in H.
  destruct H as (h1 & o1 & h2 & o2 & h3 & o3 & h4 & o4 & h5 & o5
                 & H1 & H2 & H3 & H4 & H5 & ->).
  pose proof (probe_commands env (input_path self input_file) h1) as C1.
  pose proof (probe_made_dirs env (input_path self input_file) h1) as D1.
  rewrite H1 in C1, D1. simpl snd in C1, D1.
  pose proof (encode_loop_inv _ _ _ _ _ _ _ _ _ H2) as (A2 & _).
  apply encode_loop_commands in H2. destruct H2 as (C2 & D2 & F2).
  apply manifest_commands in H3. destruct H3 as (C3 & D3 & I3).
  apply generate_thumbnails_inv in H4. cbv zeta in H4.
  destruct H4 as (_ & D4 & md & cs & _ & C4 & A4 & K4).
  pose proof (preview_commands env (input_path self input_file)
                (video_output_dir self video_id) 30 h5) as (C5 & D5).
  rewrite H5 in C5, D5. simpl snd in C5, D5.
  exists (commands o2), (commands o3), cs.
  rewrite commands_cons, made_dirs_cons, !commands_app, !made_dirs_app,
    commands_cons, made_dirs_cons, !commands_app, !made_dirs_app,
    C1, D1, D2, D3, C4, D4, C5, D5.
  split; [reflexivity |].
  split.
  { rewrite C2. f_equal. rewrite <- A2, length_map. reflexivity. }
  split; [exact C3 |]. split; [exact I3 |]. split; [exact A4 |].
  split; [| split; [reflexivity | exact F2]].
  destruct K4 as [(_ & -> & _) | (_ & _ & L & _)]; [left; reflexivity |].
  right. exact L.
Qed.

(** X2. A run that returns has started its commands in the order of the
    stages: the prober, one encode for each requested label of the
    catalog, one segmentation for each rendition, the prober again, the
    still frames (none or ten), and last the preview.  The prober is
    asked twice, both times about the source, and three directories are
    made: the video's, then [hls] and [thumbnails] inside it. *)
Theorem run_stage_order :
  forall env self input_file video_id resolutions h r o,
    transcode_video env self input_file video_id resolutions h = (Ok r, o) ->
    let source := input_path self input_file in
    let target := video_output_dir self video_id in
    (exists stills,
        (stills = 0 \/ stills = 10)%nat /\
        map stage_of (commands o)
        = (Probing
             :: repeat Encoding
                       (List.length
                          (filter (known self) (requested self resolutions)))
             ++ repeat Segmenting (List.length (r_resolutions r))
             ++ Probing :: repeat Sampling stills ++ [Previewing])%list) /\
    (forall f, In (Ffprobe f) (commands o) -> f = source) /\
    made_dirs o = [target; path_join target "hls"; path_join target "thumbnails"].
Proof.
  intros env self input_file video_id resolutions h r o H. cbv zeta.
  apply run_commands in H. cbv zeta in H.
  destruct H as (encodes & segments & stills & C & E & S & _ & T & L & D & _).
  assert (St : map stage_of stills = repeat Sampling (List.length stills)).
  { clear L C. induction T as [| c cs (t & out & ->) _ IH]; [reflexivity |].
    simpl. f_equal. exact IH. }
  split; [| split; [| exact D]].
  - exists (List.length stills). split; [exact L |].
    rewrite C. cbn [map]. rewrite !map_app. cbn [map]. rewrite map_app.
    rewrite E, S, St. reflexivity.
  - intros f Hf. rewrite C in Hf.
    destruct Hf as [[= <-] | Hf]; [reflexivity |].
    apply in_app_or in Hf. destruct Hf as [Hf | Hf].
    { apply (stage_of_repeat _ _ _ _ E) in Hf. discriminate. }
    apply in_app_or in Hf. destruct Hf as [Hf | Hf].
    { apply (stage_of_repeat _ _ _ _ S) in Hf. discriminate. }
    destruct Hf as [[= <-] | Hf]; [reflexivity |].
    apply in_app_or in Hf. destruct Hf as [Hf | [Hf | []]]; [| discriminate].
    apply (stage_of_repeat _ _ _ _ St) in Hf. discriminate.
Qed.

(** At a run in [studio]. *)
Lemma run_stage_order_witness :
  exists r o,
    transcode_video studio default_transcoder "a.mp4" "v1"
                    (Some ["720p"; "4320p"]) [] = (Ok r, o) /\
    made_dirs o
    = ["./transcoded/v1"; "./transcoded/v1/hls"; "./transcoded/v1/thumbnails"].
Proof.
  run_it.
  exact (proj2 (proj2 (run_stage_order _ _ _ _ _ _ _ _ E))).
Defined.

(** ** What the segmenter is given *)

Lemma dict_get_of_In {V} (d : dict V) l v :
  NoDup (dict_keys d) -> In (l, v) d -> dict_get d l = Some v.
Proof.
  induction d as [| [k w] d IH]; intros N H; [destruct H |].
  simpl in *. inversion N as [| ? ? Nk Nd]; subst.
  destruct H as [[= -> ->] | H].
  - rewrite String.eqb_refl. reflexivity.
  - destruct (String.eqb l k) eqn:E.
    + apply String.eqb_eq in E. subst k. exfalso. apply Nk.
      apply in_map_iff. exists (l, v). auto.
    + apply IH; assumption.
Qed.

(** X3. In a run that returns, every segmentation reads the file a
    successful encode of this run wrote for the same label -- the entry of
    that label in the renditions -- and writes the label's variant
    playlist and segments in the [hls] directory of the video. *)
Theorem segmenter_reads_what_was_encoded :
  forall env self input_file video_id resolutions h r o,
    transcode_video env self input_file video_id resolutions h = (Ok r, o) ->
    let target := video_output_dir self video_id in
    forall f seg vp l answer,
      In (Ran (FfmpegHls f seg vp l) answer) o ->
      f = rendition_path target l /\
      seg = segment_pattern target l /\
      vp = variant_path target l /\
      dict_get (r_resolutions r) l = Some f /\
      In (l, true) (encode_attempts o).
Proof.
  intros env self input_file video_id resolutions h r o H. cbv zeta.
  intros f seg vp l answer Hin.
  pose proof (run_encodes _ _ _ _ _ _ _ _ H) as (_ & _ & M & G & N).
  apply run_commands in H. cbv zeta in H.
  destruct H as (encodes & segments & stills & C & E & S & I & T & _ & _).
  apply In_commands in Hin. rewrite C in Hin.
  assert (Hs : In (FfmpegHls f seg vp l) segments).
  { destruct Hin as [Hin | Hin]; [discriminate |].
    apply in_app_or in Hin. destruct Hin as [Hin | Hin].
    { apply (stage_of_repeat _ _ _ _ E) in Hin. discriminate. }
    apply in_app_or in Hin. destruct Hin as [Hin | Hin]; [exact Hin |].
    destruct Hin as [Hin | Hin]; [discriminate |].
    apply in_app_or in Hin. destruct Hin as [Hin | [Hin | []]]; [| discriminate].
    rewrite Forall_forall in T. apply T in Hin.
    destruct Hin as (t & out & Hin). discriminate. }
  apply I in Hs. destruct Hs as (Hr & -> & ->).
  apply dict_get_of_In in Hr; [| exact N].
  pose proof (G _ _ Hr) as ->.
  repeat split; try reflexivity; [exact Hr |].
  apply M. unfold dict_mem. rewrite Hr. reflexivity.
Qed.

(** At a run in [studio]. *)
Lemma segmenter_reads_what_was_encoded_witness :
  exists r o,
    transcode_video studio default_transcoder "a.mp4" "v1" (Some ["720p"]) []
    = (Ok r, o) /\
    dict_get (r_resolutions r) "720p" = Some "./transcoded/v1/720p.mp4".
Proof.
  run_it.
  refine (proj1 (proj2 (proj2 (proj2
            (segmenter_reads_what_was_encoded _ _ _ _ _ _ _ _ E
               "./transcoded/v1/720p.mp4" "./transcoded/v1/hls/720p_%03d.ts"
               "./transcoded/v1/hls/720p.m3u8" "720p" (mkCompleted 0 None) _))))).
  vm_compute. tauto.
Defined.

(** ** Every failed command is logged *)

Lemma failures_logged_app a b :
  failures_logged a = true -> failures_logged b = true ->
  failures_logged (a ++ b) = true.
Proof.
  intros Ha Hb. induction a as [| e a IH]; [exact Hb |].
  destruct e as [c r | | |]; simpl in *; auto.
  apply andb_true_iff in Ha. destruct Ha as [H1 H2].
  rewrite (IH H2), andb_true_r.
  destruct (succeeded r); [reflexivity |]. simpl in *.
  destruct a as [| [| | | [| |] msg] a]; simpl in *; congruence.
Qed.

(** What [failures_logged] says, event by event. *)
Lemma failures_logged_spec o :
  failures_logged o = true ->
  forall before c answer after,
    o = (before ++ Ran c answer :: after)%list ->
    succeeded answer = false ->
    exists msg rest, after = Logged ERROR msg :: rest.
Proof.
  intros H before. revert o H.
  induction before as [| e before IH]; intros o H c answer after -> Hf.
  - simpl in H. rewrite Hf in H. simpl in H.
    destruct after as [| [| | | [| |] msg] after]; try discriminate.
    eauto.
  - apply (IH (before ++ Ran c answer :: after)%list) with (c := c) (answer := answer);
      [| reflexivity | exact Hf].
    destruct e as [c' r' | | |]; simpl in H; auto.
    apply andb_true_iff in H. tauto.
Qed.

Section Accounted.

Variable env : Env.
Variable self : transcoder.

Lemma accounted_ret {A} (a : A) : accounted (ret a).
Proof. intros h. reflexivity. Qed.

Lemma accounted_raise {A} (e : exn) : accounted (@raise A e).
Proof. intros h. reflexivity. Qed.

Lemma accounted_lift {A} (r : result A) : accounted (lift r).
Proof. intros h. reflexivity. Qed.

Lemma accounted_emit e : command_of e = [] -> accounted (emit e).
Proof. intros E h. destruct e; [discriminate | reflexivity ..]. Qed.

Lemma accounted_bind {A B} (m : M A) (k : A -> M B) :
  accounted m -> (forall a, accounted (k a)) -> accounted (bind m k).
Proof.
  intros Hm Hk h. unfold bind. specialize (Hm h).
  destruct (m h) as [[a | e] o1]; [| exact Hm].
  specialize (Hk a (h ++ o1)%list).
  destruct (k a (h ++ o1)%list) as [r o2].
  apply failures_logged_app; assumption.
Qed.

Lemma accounted_for_each {A S} (body : S -> A -> M S) (l : list A) :
  (forall s x, accounted (body s x)) -> forall s, accounted (for_each body l s).
Proof.
  intros Hb. induction l as [| x l IH]; intros s; simpl.
  - apply accounted_ret.
  - apply accounted_bind; auto.
Qed.

(** The shape of every [try] of the source: a command, what follows its
    success, and a handler that starts by logging the error. *)
Lemma accounted_try {A} c (k : completed -> M A) msg (k' : unit -> M A) :
  (forall r, accounted (k r)) -> (forall u, accounted (k' u)) ->
  accounted (except_called_process_error (bind (run env c) k)
                                         (bind (log_error msg) k')).
Proof.
  intros Hk Hk' h. unfold except_called_process_error, bind at 1.
  rewrite run_eq.
  destruct (succeeded (respond env h c)) eqn:Es.
  - specialize (Hk (respond env h c) (h ++ [Ran c (respond env h c)])%list).
    destruct (k _ _) as [[a | e] o2]; simpl in *.
    + rewrite Es. exact Hk.
    + assert (G : failures_logged (Ran c (respond env h c) :: o2) = true)
        by (simpl; rewrite Es; exact Hk).
      destruct e; try exact G.
      pose proof (accounted_bind (log_error msg) k'
                    (accounted_emit (Logged ERROR msg) eq_refl) Hk'
                    (h ++ Ran c (respond env h c) :: o2)%list) as G'.
      destruct (bind (log_error msg) k' _) as [r o3]. simpl in *.
      rewrite Es. simpl.
      change (failures_logged (o2 ++ o3) = true).
      apply failures_logged_app; assumption.
  - unfold bind, log_error, emit.
    specialize (Hk' tt ((h ++ [Ran c (respond env h c)])
                          ++ [Logged ERROR msg])%list).
    destruct (k' tt _) as [r o3]. simpl in *. rewrite Es. exact Hk'.
Qed.

Ltac account :=
  repeat (intros; first
    [ apply accounted_ret | apply accounted_raise | apply accounted_lift
    | apply accounted_emit; reflexivity
    | apply accounted_try
    | apply accounted_bind | apply accounted_for_each
    | match goal with
      | |- accounted (match ?x with _ => _ end) => destruct x
      | |- accounted (let '(_, _) := ?x in _) => destruct x
      | |- accounted (if ?b then _ else _) => destruct b
      end ]).

Lemma run_accounted input_file video_id resolutions :
  accounted (transcode_video env self input_file video_id resolutions).
Proof.
  unfold transcode_video, _generate_hls_playlist, hls_variant,
    _generate_thumbnails, thumbnail, _generate_preview, _get_video_metadata,
    transcode_one, _transcode_resolution, log_info, log_warning.
  account.
Qed.

End Accounted.

(** X4. Whatever a run comes to -- a result or an exception -- every
    external command in its log that exited non-zero is followed at once
    by an error message: no failure of a tool goes unreported. *)
Theorem failed_commands_are_logged :
  forall env self input_file video_id resolutions h outcome o,
    transcode_video env self input_file video_id resolutions h = (outcome, o) ->
    forall before c answer after,
      o = (before ++ Ran c answer :: after)%list ->
      returncode answer <> 0 ->
      exists msg rest, after = Logged ERROR msg :: rest.
Proof.
  intros env self input_file video_id resolutions h outcome o H
         before c answer after E Hr.
  pose proof (run_accounted env self input_file video_id resolutions h) as A.
  rewrite H in A. simpl in A.
  apply (failures_logged_spec o A before c answer after E).
  unfold succeeded. apply Z.eqb_neq. exact Hr.
Qed.

(** At a run in which the encoder fails on 720p. *)
Lemma failed_commands_are_logged_witness :
  exists msg rest,
    skipn 5 (snd (transcode_video studio_720p_fails default_transcoder
                                  "a.mp4" "v1" (Some ["720p"]) []))
    = Logged ERROR msg :: rest.
Proof.
  refine (failed_commands_are_logged
            studio_720p_fails default_transcoder "a.mp4" "v1" (Some ["720p"]) []
            (fst (transcode_video studio_720p_fails default_transcoder
                                  "a.mp4" "v1" (Some ["720p"]) []))
            (snd (transcode_video studio_720p_fails default_transcoder
                                  "a.mp4" "v1" (Some ["720p"]) []))
            _
            (firstn 4 (snd (transcode_video studio_720p_fails default_transcoder
                                            "a.mp4" "v1" (Some ["720p"]) [])))
            (FfmpegEncode "./uploads/a.mp4" "./transcoded/v1/720p.mp4" "720p"
                          1280 720 "2500k" "5000k" "128k")
            (mkCompleted 1 None)
            _ _ _).
  - apply surjective_pairing.
  - vm_compute. reflexivity.
  - discriminate.
Defined.

(** ** The preview and the thumbnails a run reports *)

(** X5. A run that returns has cut exactly one preview: 30 seconds of
    the source, written to [preview.mp4] in the video's directory.  The
    result reports that file when ffmpeg exited with zero and [None]
    otherwise; a failed preview does not fail the run. *)
Theorem preview_is_reported_when_it_succeeds :
  forall env self input_file video_id resolutions h r o,
    transcode_video env self input_file video_id resolutions h = (Ok r, o) ->
    let source := input_path self input_file in
    let target := video_output_dir self video_id in
    exists answer,
      In (Ran (FfmpegPreview source 30 (preview_path target)) answer) o /\
      preview_attempts o = [succeeded answer] /\
      r_preview r = if succeeded answer then Some (preview_path target) else None.
Proof.
  intros env self input_file video_id resolutions h r o H. cbv zeta.
  apply transcode_video_log in H. cbv zeta in H.
  destruct H as (h1 & o1 & h2 & o2 & h3 & o3 & h4 & o4 & h5 & o5
                 & H1 & H2 & H3 & H4 & H5 & ->).
  silence preview_of H1. silence preview_of H2. silence preview_of H3.
  silence preview_of H4.
  rewrite generate_preview_eq in H5. cbv zeta in H5.
  fold (preview_path (video_output_dir self video_id)) in H5.
  revert H5.
  set (c := FfmpegPreview _ _ _). generalize (respond env h5 c). intros answer H5.
  exists answer.
  assert (E : exists l msg, o5 = [Ran c answer; Logged l msg] /\
                            r_preview r
                            = if succeeded answer
                              then Some (preview_path
                                           (video_output_dir self video_id))
                              else None).
  { destruct (succeeded answer); injection H5 as <- <-; eauto. }
  destruct E as (l & msg & -> & Er).
  split; [| split; [| exact Er]].
  - right. apply in_or_app. right. right. apply in_or_app. right.
    apply in_or_app. right. apply in_or_app. right. left. reflexivity.
  - unfold preview_attempts in *. cbn [flat_map].
    repeat (rewrite ?flat_map_app; cbn [flat_map]).
    repeat match goal with Q : flat_map _ _ = [] |- _ => rewrite Q; clear Q end.
    reflexivity.
Qed.

(** At a run in [studio]. *)
Lemma preview_is_reported_when_it_succeeds_witness :
  exists r o,
    transcode_video studio default_transcoder "a.mp4" "v1" (Some []) []
    = (Ok r, o) /\
    exists answer,
      preview_attempts o = [succeeded answer] /\
      r_preview r = if succeeded answer
                    then Some (preview_path "./transcoded/v1") else None.
Proof.
  run_it.
  destruct (preview_is_reported_when_it_succeeds _ _ _ _ _ _ _ _ E)
    as (answer & _ & A & R).
  exists answer. split; [exact A | exact R].
Defined.

Lemma append_inj_l (a b b' : string) : a ++ b = a ++ b' -> b = b'.
Proof.
  induction a as [| c a IH]; simpl; [auto |]. intros [= H]. auto.
Qed.

(** Joining two names that do not start with a slash to the same
    directory gives different paths for different names. *)
Lemma path_join_inj a c b c' b' :
  c <> "/"%char -> c' <> "/"%char ->
  path_join a (String c b) = path_join a (String c' b') ->
  String c b = String c' b'.
Proof.
  intros Hc Hc'. unfold path_join.
  assert (E : forall x y (t u : string),
             x <> "/"%char ->
             match String x y with String "/"%char _ => t | _ => u end = u).
  { intros x y t u Hx.
    destruct x as [[|] [|] [|] [|] [|] [|] [|] [|]]; try reflexivity.
    exfalso. apply Hx. reflexivity. }
  rewrite !E by assumption.
  destruct (ends_with_slash a); intros H.
  - apply append_inj_l in H. exact H.
  - apply append_inj_l in H. injection H as -> ->. reflexivity.
Qed.

Lemma thumb_paths_distinct dir :
  NoDup (map (thumb_path dir) (py_range 1 11)).
Proof.
  change (py_range 1 11) with [1; 2; 3; 4; 5; 6; 7; 8; 9; 10].
  assert (E : forall i,
             thumb_path dir i
             = path_join dir (String "t" ("humb_" ++ fmt_02d i ++ ".jpg")))
    by reflexivity.
  assert (I : forall i j,
             thumb_path dir i = thumb_path dir j ->
             "humb_" ++ fmt_02d i ++ ".jpg" = "humb_" ++ fmt_02d j ++ ".jpg").
  { intros i j. rewrite !E. intros H.
    apply path_join_inj in H; [| discriminate | discriminate].
    injection H as H. rewrite H. reflexivity. }
  apply NoDup_map_NoDup_ForallPairs.
  - intros i j Hi Hj H. apply I in H.
    simpl in Hi, Hj.
    repeat (destruct Hi as [<- | Hi]; [| try contradiction]);
      repeat (destruct Hj as [<- | Hj]; [| try contradiction]);
      first [reflexivity | vm_compute in H; discriminate H].
  - repeat constructor; simpl; intuition discriminate.
Qed.

Lemma successes_length {K} (l : list (K * bool)) :
  (List.length (successes l) <= List.length l)%nat.
Proof. unfold successes. rewrite length_map. apply filter_length_le. Qed.

(** The thumbnail stage returns the files of the extractions that
    succeeded. *)
Lemma stage_thumbnails env input_file output_dir count h thumbnails o :
  _generate_thumbnails env input_file output_dir count h = (Ok thumbnails, o) ->
  thumbnails = successes (thumb_files o) /\
  (thumb_files o = [] \/
   map fst (thumb_files o)
   = map (thumb_path (path_join output_dir "thumbnails"))
         (py_range 1 (count + 1))) /\
  (List.length thumbnails <= Z.to_nat count)%nat.
Proof.
  intros H.
  apply generate_thumbnails_inv in H. cbv zeta in H.
  destruct H as (-> & _ & md & cs & _ & _ & _ & K).
  split; [reflexivity |].
  destruct K as [(_ & _ & ->) | (_ & _ & _ & F & _)].
  - split; [left; reflexivity | simpl; lia].
  - split; [right; exact F |].
    etransitivity; [apply successes_length |].
    rewrite <- (length_map fst), F, length_map.
    unfold py_range. rewrite length_map, length_seq. lia.
Qed.

(** The thumbnails of a run: at most ten files, all different, named
    after the indices from 1 to 10. *)
Lemma run_thumbnails env self input_file video_id resolutions h r o :
  transcode_video env self input_file video_id resolutions h = (Ok r, o) ->
  r_thumbnails r = successes (thumb_files o) /\
  NoDup (r_thumbnails r) /\
  (List.length (r_thumbnails r) <= 10)%nat /\
  forall f,
    In f (r_thumbnails r) ->
    exists i,
      1 <= i <= 10 /\
      f = thumb_path (path_join (video_output_dir self video_id)
                                "thumbnails") i.
Proof.
  intros H.
  apply transcode_video_log in H. cbv zeta in H.
  destruct H as (h1 & o1 & h2 & o2 & h3 & o3 & h4 & o4 & h5 & o5
                 & H1 & H2 & H3 & H4 & H5 & ->).
  silence thumb_file_of H1. silence thumb_file_of H2.
  silence thumb_file_of H3. silence thumb_file_of H5.
  apply stage_thumbnails in H4. destruct H4 as (E & F & L).
  assert (T : thumb_files
                (start_message video_id
                   :: o1 ++ MadeDir (video_output_dir self video_id)
                   :: o2 ++ o3 ++ o4 ++ o5 ++ [completed_message video_id])%list
              = thumb_files o4).
  { unfold thumb_files in *. cbn [flat_map].
    repeat (rewrite ?flat_map_app; cbn [flat_map]).
    repeat match goal with Q : flat_map _ _ = [] |- _ => rewrite Q; clear Q end.
    cbn [thumb_file_of start_message completed_message].
    rewrite ?List.app_nil_r. reflexivity. }
  rewrite T. split; [exact E |].
  assert (N : NoDup (map fst (thumb_files o4))).
  { destruct F as [-> | ->]; [constructor | apply thumb_paths_distinct]. }
  change (Z.to_nat 10) with 10%nat in L.
  rewrite E in L. rewrite E. split; [| split; [exact L |]].
  - unfold successes. apply NoDup_map_filter. exact N.
  - intros f Hf. apply successes_attempted in Hf.
    destruct F as [F | F]; [rewrite F in Hf; destruct Hf |].
    rewrite F in Hf. apply in_map_iff in Hf. destruct Hf as (i & <- & Hi).
    exists i. split; [| reflexivity].
    unfold py_range in Hi. apply in_map_iff in Hi.
    destruct Hi as (k & <- & Hk). apply in_seq in Hk. simpl in Hk. lia.
Qed.

(** X6. The thumbnails a stage or a run reports are the output files of
    the frame extractions that exited with zero, in the order they were
    asked for.  The files asked for are [thumb_NN.jpg] for [NN] from 1 to
    [count], or none at all; so the stage reports at most [count]
    thumbnails, and a run at most ten, all different. *)
Theorem thumbnails_are_the_frames_that_succeeded :
  (forall env input_file output_dir count h thumbnails o,
      _generate_thumbnails env input_file output_dir count h
      = (Ok thumbnails, o) ->
      thumbnails = successes (thumb_files o) /\
      (thumb_files o = [] \/
       map fst (thumb_files o)
       = map (thumb_path (path_join output_dir "thumbnails"))
             (py_range 1 (count + 1))) /\
      (List.length thumbnails <= Z.to_nat count)%nat) /\
  (forall env self input_file video_id resolutions h r o,
      transcode_video env self input_file video_id resolutions h = (Ok r, o) ->
      r_thumbnails r = successes (thumb_files o) /\
      NoDup (r_thumbnails r) /\
      (List.length (r_thumbnails r) <= 10)%nat /\
      forall f,
        In f (r_thumbnails r) ->
        exists i,
          1 <= i <= 10 /\
          f = thumb_path (path_join (video_output_dir self video_id)
                                    "thumbnails") i).
Proof.
  split.
  - apply stage_thumbnails.
  - apply run_thumbnails.
Qed.

(** At the thumbnail stage in [studio]. *)
Lemma thumbnails_are_the_frames_that_succeeded_witness :
  exists thumbnails o,
    _generate_thumbnails studio "./uploads/a.mp4" "./transcoded/v1" 2 []
    = (Ok thumbnails, o) /\
    thumbnails = successes (thumb_files o).
Proof.
  run_it.
  exact (proj1 (proj1 thumbnails_are_the_frames_that_succeeded _ _ _ _ _ _ _ E)).
Defined.

(** ** Edge values of [count] *)

(** X7. Given a source whose duration is not zero: asked for [-1]
    thumbnails the stage divides by zero and raises [ZeroDivisionError],
    having made its directory and probed the source; asked for zero or
    for less than [-1] it starts no extraction, returns the empty list
    and logs that it generated 0 thumbnails. *)
Theorem thumbnail_count_edges :
  forall env input_file output_dir h md o1 d,
    let made := MadeDir (path_join output_dir "thumbnails") in
    _get_video_metadata env input_file (h ++ [made])%list = (Ok md, o1) ->
    dict_get md "duration" = Some (PFloat d) ->
    ~ (d == 0)%Q ->
    _generate_thumbnails env input_file output_dir (-1) h
    = (Raise ZeroDivisionError, made :: o1) /\
    forall count,
      count <= 0 -> count <> -1 ->
      _generate_thumbnails env input_file output_dir count h
      = (Ok [], made :: o1 ++ [Logged INFO "Generated 0 thumbnails"])%list.
Proof.
  intros env input_file output_dir h md o1 d made Hm Hd Hz.
  assert (Ez : (Qnum d =? 0) = false).
  { apply Z.eqb_neq. intros E. apply Hz. unfold Qeq. simpl. lia. }
  split.
  - unfold _generate_thumbnails.
    unfold bind at 1. unfold emit at 1. unfold bind at 1.
    fold made. rewrite Hm.
    unfold get_default. rewrite Hd. unfold eq_zero. rewrite Ez.
    unfold as_number. rewrite bind_lift_ok.
    change (apply_mul OpDiv (NFloat d) (NInt (-1 + 1)))
      with (@Raise number ZeroDivisionError).
    rewrite bind_lift_raise. rewrite List.app_nil_r. reflexivity.
  - intros count Hc Hn. unfold _generate_thumbnails.
    unfold bind at 1. unfold emit at 1. unfold bind at 1.
    fold made. rewrite Hm.
    unfold get_default. rewrite Hd. unfold eq_zero. rewrite Ez.
    unfold as_number. rewrite bind_lift_ok. unfold apply_mul, num_is_zero.
    replace (count + 1 =? 0) with false by (symmetry; apply Z.eqb_neq; lia).
    rewrite bind_lift_ok.
    assert (R : py_range 1 (count + 1) = []).
    { unfold py_range. replace (Z.to_nat (count + 1 - 1)) with 0%nat by lia.
      reflexivity. }
    rewrite R. cbn [for_each]. unfold bind, ret, log_info, emit.
    reflexivity.
Qed.

(** At the thumbnail stage in [studio]. *)
Lemma thumbnail_count_edges_witness :
  fst (_generate_thumbnails studio "./uploads/a.mp4" "./transcoded/v1" (-1) [])
  = Raise ZeroDivisionError /\
  fst (_generate_thumbnails studio "./uploads/a.mp4" "./transcoded/v1" 0 [])
  = Ok [].
Proof.
  pose (probe := _get_video_metadata studio "./uploads/a.mp4"
                   ([] ++ [MadeDir (path_join "./transcoded/v1" "thumbnails")])%list).
  assert (P : exists md o1 d,
             probe = (Ok md, o1) /\ dict_get md "duration" = Some (PFloat d) /\
             ~ (d == 0)%Q).
  { let v := eval vm_compute in probe in
    match v with
    | (Ok ?md, ?o1) =>
        exists md, o1;
        let w := eval vm_compute in (dict_get md "duration") in
        match w with
        | Some (PFloat ?d) => exists d
        end
    end.
    split; [vm_compute; reflexivity |]. split; [vm_compute; reflexivity |].
    unfold Qeq. simpl. lia. }
  destruct P as (md & o1 & d & Hm & Hd & Hz).
  destruct (thumbnail_count_edges studio "./uploads/a.mp4" "./transcoded/v1" []
              md o1 d Hm Hd Hz) as [A B].
  split.
  - rewrite A. reflexivity.
  - rewrite (B 0); [reflexivity | lia | lia].
Defined.

(** ** Video bit rates *)

Lemma str_replace_digits u :
  str_replace "k" "" (NilEmpty.string_of_uint u) = NilEmpty.string_of_uint u.
Proof.
  induction u; simpl; try rewrite IHu; reflexivity.
Qed.

Lemma append_assoc (a b c : string) : (a ++ b) ++ c = a ++ b ++ c.
Proof.
  induction a as [| x a IH]; simpl; [reflexivity |]. rewrite IH. reflexivity.
Qed.

Lemma str_replace_app c new a b :
  str_replace c new (a ++ b) = str_replace c new a ++ str_replace c new b.
Proof.
  induction a as [| x a IH]; simpl; [reflexivity |].
  destruct (Ascii.eqb x c); simpl; rewrite IH.
  - rewrite append_assoc. reflexivity.
  - reflexivity.
Qed.

(** [str(n)] has no [k] in it. *)
Lemma str_replace_py_str_int n :
  str_replace "k" "" (py_str_int n) = py_str_int n.
Proof.
  destruct (Z_lt_le_dec n 0) as [Hn | Hn].
  - destruct (py_str_int_neg n Hn) as (u & -> & _).
    simpl. rewrite str_replace_digits. reflexivity.
  - destruct (py_str_int_nonneg n Hn) as (u & -> & _).
    apply str_replace_digits.
Qed.

(** [int(str(n)) = n] *)
Lemma py_int_str_py_str_int n : py_int_str (py_str_int n) = Ok n.
Proof.
  assert (I : NilZero.int_of_string (py_str_int n) = Some (Z.to_int n)).
  { unfold py_str_int. apply NilZero.isi; destruct n; simpl; try discriminate;
      intros [= E]; apply (Unsigned.to_uint_nonnil _ E). }
  unfold py_int_str.
  assert (S : match py_str_int n with
              | String "+"%char r =>
                  match r with
                  | String "-"%char _ => None
                  | _ => option_map Decimal.Pos (NilZero.uint_of_string r)
                  end
              | _ => NilZero.int_of_string (py_str_int n)
              end = NilZero.int_of_string (py_str_int n)).
  { destruct (Z_lt_le_dec n 0) as [Hn | Hn].
    - destruct (py_str_int_neg n Hn) as (u & -> & _). reflexivity.
    - destruct (py_str_int_nonneg n Hn) as (u & -> & Hu & _).
      destruct u; reflexivity. }
  rewrite S, I, DecimalZ.of_to. reflexivity.
Qed.

Lemma bitrate_kbps_of_text w hgt n audio :
  bitrate_kbps (mkPreset w hgt (py_str_int n ++ "k") audio) = Ok n.
Proof.
  unfold bitrate_kbps. cbn [bitrate].
  rewrite str_replace_app, str_replace_py_str_int. simpl str_replace.
  rewrite append_empty_r. apply py_int_str_py_str_int.
Qed.

(** X8. For a preset whose video bit rate is written [<n>k], the encoder
    is started once, with the command line of lines 171-185: the bit
    rate and the maximum rate are [<n>k], the buffer size is twice that,
    [<2n>k], and the picture is scaled to the preset's width and height.
    The stage returns the output file when ffmpeg exits with zero and
    [None] otherwise. *)
Theorem encoder_rates_follow_the_preset :
  forall env input_file output_dir resolution w hgt n audio h,
    let p := mkPreset w hgt (py_str_int n ++ "k") audio in
    let out := rendition_path output_dir resolution in
    exists c answer l msg,
      _transcode_resolution env input_file output_dir resolution p h
      = (Ok (if succeeded answer then Some out else None),
         [Ran c answer; Logged l msg]) /\
      argv c
      = map Text
            ["ffmpeg"; "-i"; input_file;
             "-vf"; "scale=" ++ py_str_int w ++ ":" ++ py_str_int hgt;
             "-c:v"; "libx264"; "-preset"; "medium";
             "-b:v"; py_str_int n ++ "k";
             "-maxrate"; py_str_int n ++ "k";
             "-bufsize"; py_str_int (2 * n) ++ "k";
             "-c:a"; "aac"; "-b:a"; audio;
             "-movflags"; "+faststart"; "-y"; out].
Proof.
  intros env input_file output_dir resolution w hgt n audio h p out.
  rewrite transcode_resolution_eq. subst p.
  rewrite bitrate_kbps_of_text. cbv zeta.
  set (c := encode_command _ _ _ _ _).
  exists c, (respond env h c).
  assert (A : argv c
              = map Text
                    ["ffmpeg"; "-i"; input_file;
                     "-vf"; "scale=" ++ py_str_int w ++ ":" ++ py_str_int hgt;
                     "-c:v"; "libx264"; "-preset"; "medium";
                     "-b:v"; py_str_int n ++ "k";
                     "-maxrate"; py_str_int n ++ "k";
                     "-bufsize"; py_str_int (2 * n) ++ "k";
                     "-c:a"; "aac"; "-b:a"; audio;
                     "-movflags"; "+faststart"; "-y"; out]).
  { subst c out. unfold encode_command, rendition_path. cbn [argv width height
      bitrate audio_bitrate]. rewrite (Z.mul_comm n 2). reflexivity. }
  destruct (succeeded (respond env h c)); eexists _, _; split;
    try exact A; reflexivity.
Qed.

(** ** A bit rate that cannot be read *)

Lemma encode_loop_unreadable env self source target ls : forall acc h res o,
  for_each (transcode_one env self source target) ls acc h = (res, o) ->
  (forall l p,
      dict_get (presets self) l = Some p ->
      is_ok (bitrate_kbps p) = false ->
      ~ In l (map fst (encode_attempts o))) /\
  ((exists l p,
       In l ls /\ dict_get (presets self) l = Some p /\
       is_ok (bitrate_kbps p) = false) ->
   res = Raise ValueError).
Proof.
  induction ls as [| x ls IH]; intros acc h res o H.
  - injection H as <- <-. split.
    + intros l p _ _ [].
    + intros (l & p & [] & _).
  - cbn [for_each] in H. apply bind_inv in H.
    rewrite transcode_one_eq in H.
    destruct (dict_get (presets self) x) as [px |] eqn:Ex.
    + destruct (bitrate_kbps px) as [kbps | e] eqn:Ek.
      * cbv zeta in H.
        destruct H as [(e & H1 & ->) | (a & o1 & o2 & H1 & H2 & ->)].
        { destruct (succeeded _); discriminate. }
        apply IH in H2. destruct H2 as [N2 R2].
        assert (E1 : map fst (encode_attempts o1) = [x])
          by (destruct (succeeded _); injection H1 as <- <-; reflexivity).
        rewrite encode_attempts_app, map_app, E1. split.
        -- intros l p Hl Hp [<- | Hin].
           ++ rewrite Ex in Hl. injection Hl as <-. rewrite Ek in Hp.
              discriminate.
           ++ exact (N2 l p Hl Hp Hin).
        -- intros (l & p & [<- | Hin] & Hl & Hp).
           ++ rewrite Ex in Hl. injection Hl as <-. rewrite Ek in Hp.
              discriminate.
           ++ apply R2. eauto.
      * destruct H as [(e' & H1 & ->) | (a & o1 & o2 & H1 & _)];
          [| discriminate].
        injection H1 as <- <-. apply bitrate_kbps_raises in Ek. subst e.
        split; [| reflexivity]. intros l p _ _ [].
    + destruct H as [(e & H1 & ->) | (a & o1 & o2 & H1 & H2 & ->)];
        [discriminate |].
      injection H1 as <- <-. apply IH in H2. destruct H2 as [N2 R2].
      split; [exact N2 |].
      intros (l & p & [<- | Hin] & Hl & Hp); [congruence |].
      apply R2. eauto.
Qed.

(** X9. The bit rate of a preset is read before the encoder is started,
    outside the [try].  When a requested label of the catalog has a bit
    rate [int] cannot read, a run on an existing, readable source raises
    [ValueError]: that label is never handed to the encoder, and no
    manifest, thumbnail or preview is made. *)
Theorem unreadable_bit_rate_aborts_the_run :
  forall env self input_file video_id resolutions h l p md o1,
    path_exists env (input_path self input_file) = true ->
    _get_video_metadata env (input_path self input_file)
                        (h ++ [start_message video_id])%list = (Ok md, o1) ->
    In l (requested self resolutions) ->
    dict_get (presets self) l = Some p ->
    is_ok (bitrate_kbps p) = false ->
    exists o,
      transcode_video env self input_file video_id resolutions h
      = (Raise ValueError, o) /\
      ~ In l (map fst (encode_attempts o)) /\
      hls_attempts o = [] /\
      writes o = [] /\
      thumb_attempts o = [] /\
      preview_attempts o = [].
Proof.
  intros env self input_file video_id resolutions h l p md o1 P Hm Hin Hl Hp.
  unfold transcode_video.
  fold (requested self resolutions) (input_path self input_file)
       (video_output_dir self video_id).
  rewrite P. change (negb true) with false. cbv iota.
  unfold bind at 1. unfold log_info at 1, emit at 1.
  fold (start_message video_id).
  unfold bind at 1. rewrite Hm.
  unfold bind at 1. unfold emit at 1.
  unfold bind at 1.
  match goal with
  | |- context [for_each ?b (requested self resolutions) ?a ?hh] =>
      destruct (for_each b (requested self resolutions) a hh) as [res o2] eqn:L
  end.
  silence encode_of Hm. silence hls_of Hm. silence write_of Hm.
  silence thumb_of Hm. silence preview_of Hm.
  silence hls_of L. silence write_of L. silence thumb_of L.
  silence preview_of L.
  apply encode_loop_unreadable in L. destruct L as [N R].
  rewrite R by eauto.
  eexists. split; [reflexivity |].
  unfold encode_attempts, hls_attempts, writes, thumb_attempts,
    preview_attempts in *.
  cbn [flat_map app].
  repeat (rewrite ?flat_map_app; cbn [flat_map]).
  repeat match goal with Q : flat_map _ _ = [] |- _ => rewrite Q; clear Q end.
  cbn [encode_of hls_of write_of thumb_of preview_of start_message app].
  rewrite ?List.app_nil_r.
  split; [exact (N l p Hl Hp) |]. repeat split; reflexivity.
Qed.

(** At a run of the transcoder whose preset is in megabits. *)
Lemma unreadable_bit_rate_aborts_the_run_witness :
  exists o,
    transcode_video studio mislabelled "a.mp4" "v1" None []
    = (Raise ValueError, o) /\
    writes o = [].
Proof.
  destruct (unreadable_bit_rate_aborts_the_run
              studio mislabelled "a.mp4" "v1" None [] "720p"
              (mkPreset 1280 720 "2.5M" "128k")
              (match fst (_get_video_metadata studio "./uploads/a.mp4"
                            [start_message "v1"]) with
               | Ok md => md
               | Raise _ => []
               end)
              (snd (_get_video_metadata studio "./uploads/a.mp4"
                      [start_message "v1"])))
    as (o & E & _ & _ & W & _).
  - reflexivity.
  - vm_compute. reflexivity.
  - simpl. auto.
  - reflexivity.
  - reflexivity.
  - exists o. split; [exact E | exact W].
Defined.

(** ** The manifest stage on a label that is not in the catalog *)

Lemma hls_loop_unknown env self hls_dir items :
  catalog_ok self ->
  forall acc h res o,
    for_each (hls_variant env self hls_dir) items acc h = (res, o) ->
    (forall l, dict_get (presets self) l = None ->
               ~ In l (map fst (hls_attempts o))) /\
    ((exists l, In l (dict_keys items) /\ dict_get (presets self) l = None) ->
     res = Raise KeyError).
Proof.
  intros C. induction items as [| [x f] items IH]; intros acc h res o H.
  - injection H as <- <-. split.
    + intros l _ [].
    + intros (l & [] & _).
  - cbn [for_each] in H. apply bind_inv in H.
    rewrite hls_variant_eq in H.
    destruct (dict_get (presets self) x) as [px |] eqn:Ex.
    + pose proof (C x px Ex) as Ck.
      destruct (bitrate_kbps px) as [kbps | e]; [| discriminate].
      cbv zeta in H.
      destruct H as [(e & H1 & ->) | (a & o1 & o2 & H1 & H2 & ->)].
      { destruct (succeeded _); discriminate. }
      apply IH in H2. destruct H2 as [N2 R2].
      assert (E1 : map fst (hls_attempts o1) = [x])
        by (destruct (succeeded _); injection H1 as <- <-; reflexivity).
      rewrite hls_attempts_app, map_app, E1. split.
      * intros l Hl [<- | Hin]; [congruence | exact (N2 l Hl Hin)].
      * intros (l & Hin & Hl). simpl in Hin.
        destruct Hin as [<- | Hin]; [congruence |]. apply R2. eauto.
    + destruct H as [(e & H1 & ->) | (a & o1 & o2 & H1 & _)]; [| discriminate].
      injection H1 as <- <-. split; [| reflexivity]. intros l _ [].
Qed.

(** X10. Called on renditions with a label that is not in the catalog,
    the manifest stage of a transcoder whose catalog is in order raises
    [KeyError] (line 207): it has made the [hls] directory, but it never
    segments that label and writes no master playlist. *)
Theorem manifest_stage_rejects_unknown_labels :
  forall env self output_dir renditions h l,
    catalog_ok self ->
    In l (dict_keys renditions) ->
    dict_get (presets self) l = None ->
    exists o,
      _generate_hls_playlist env self output_dir renditions h
      = (Raise KeyError, o) /\
      made_dirs o = [path_join output_dir "hls"] /\
      ~ In l (map fst (hls_attempts o)) /\
      writes o = [].
Proof.
  intros env self output_dir renditions h l C Hin Hl.
  unfold _generate_hls_playlist.
  unfold bind at 1. unfold emit at 1. unfold bind at 1.
  match goal with
  | |- context [for_each ?b renditions ?a ?hh] =>
      destruct (for_each b renditions a hh) as [res o1] eqn:L
  end.
  pose proof (hls_loop_silent env self write_of (path_join output_dir "hls")
                renditions [] (fun _ _ => eq_refl)
                (fun _ _ _ _ _ => eq_refl)
                (h ++ [MadeDir (path_join output_dir "hls")])%list) as W.
  pose proof (hls_loop_silent env self dir_of (path_join output_dir "hls")
                renditions [] (fun _ _ => eq_refl)
                (fun _ _ _ _ _ => eq_refl)
                (h ++ [MadeDir (path_join output_dir "hls")])%list) as D.
  rewrite L in W, D. simpl snd in W, D.
  apply (hls_loop_unknown env self _ _ C) in L. destruct L as [N R].
  rewrite R by eauto.
  eexists. split; [reflexivity |].
  unfold made_dirs, writes. cbn [flat_map dir_of write_of app].
  rewrite D, W. split; [reflexivity |]. split; [| reflexivity].
  exact (N l Hl).
Qed.

(** At the manifest stage of the default transcoder. *)
Lemma manifest_stage_rejects_unknown_labels_witness :
  exists o,
    _generate_hls_playlist studio default_transcoder "./transcoded/v1"
                           [("4320p", "./transcoded/v1/4320p.mp4")] []
    = (Raise KeyError, o) /\
    writes o = [].
Proof.
  destruct (manifest_stage_rejects_unknown_labels
              studio default_transcoder "./transcoded/v1"
              [("4320p", "./transcoded/v1/4320p.mp4")] [] "4320p"
              default_catalog_ok)
    as (o & E & _ & _ & W).
  - simpl. auto.
  - reflexivity.
  - exists o. split; [exact E | exact W].
Defined.

(** ** The metadata, entry by entry *)

(** What lines 129-160 build when they raise nothing. *)
Lemma extract_metadata_inv env stdout md :
  extract_metadata env stdout = Ok md ->
  exists data streams video audio fmt d s b vpart apart,
    json_loads stdout = Ok data /\
    rbind (subscript data "streams") py_iter = Ok streams /\
    first_stream "video" streams = Ok video /\
    first_stream "audio" streams = Ok audio /\
    rbind (subscript data "format") as_dict = Ok fmt /\
    py_float (get_default fmt "duration" (PInt 0)) = Ok d /\
    py_int (get_default fmt "size" (PInt 0)) = Ok s /\
    py_int (get_default fmt "bit_rate" (PInt 0)) = Ok b /\
    md = ([("duration", PFloat d); ("size", PInt s); ("bitrate", PInt b);
           ("format", get_or_none fmt "format_name")] ++ vpart ++ apart)%list /\
    (if truthy video
     then exists vs w hg fps,
         video = PDict vs /\
         py_int (get_default vs "width" (PInt 0)) = Ok w /\
         py_int (get_default vs "height" (PInt 0)) = Ok hg /\
         eval_value env (get_default vs "r_frame_rate" (PStr "0/1")) = Ok fps /\
         vpart = [("width", PInt w); ("height", PInt hg);
                  ("codec", get_or_none vs "codec_name"); ("fps", fps)]
     else vpart = []) /\
    (if truthy audio
     then exists a,
         audio = PDict a /\
         apart = [("audio_codec", get_or_none a "codec_name");
                  ("audio_channels", get_or_none a "channels")]
     else apart = []).
Proof.
  unfold extract_metadata. intros H.
  rbind_step H data E0. rbind_step H streams E1.
  rbind_step H video_stream E2. rbind_step H audio_stream E3.
  rbind_step H fmt E4. rbind_step H duration E5. rbind_step H size E6.
  rbind_step H bit_rate E7. rbind_step H m1 E8. rbind_step H m2 E9.
  injection H as <-.
  exists data, streams, video_stream, audio_stream, fmt, duration, size, bit_rate.
  destruct (truthy video_stream).
  - unfold rmap in E8. rbind_step E8 fields F. injection E8 as <-.
    unfold video_fields in F.
    rbind_step F vs F0. rbind_step F w F1. rbind_step F ht F2.
    rbind_step F fps F3. injection F as <-.
    assert (V : video_stream = PDict vs)
      by (destruct video_stream; try discriminate; injection F0 as <-;
          reflexivity).
    destruct (truthy audio_stream).
    + unfold rmap in E9. rbind_step E9 a A. injection E9 as <-.
      assert (Au : audio_stream = PDict a)
        by (destruct audio_stream; try discriminate; injection A as <-;
            reflexivity).
      exists [("width", PInt w); ("height", PInt ht);
              ("codec", get_or_none vs "codec_name"); ("fps", fps)],
             [("audio_codec", get_or_none a "codec_name");
              ("audio_channels", get_or_none a "channels")].
      do 8 (split; [reflexivity || eassumption |]).
      split; [reflexivity |]. split.
      * exists vs, w, ht, fps. repeat split; reflexivity || assumption.
      * exists a. split; [exact Au | reflexivity].
    + injection E9 as <-.
      exists [("width", PInt w); ("height", PInt ht);
              ("codec", get_or_none vs "codec_name"); ("fps", fps)],
             [].
      do 8 (split; [reflexivity || eassumption |]).
      split; [reflexivity |]. split; [| reflexivity].
      exists vs, w, ht, fps. repeat split; reflexivity || assumption.
  - injection E8 as <-.
    destruct (truthy audio_stream).
    + unfold rmap in E9. rbind_step E9 a A. injection E9 as <-.
      assert (Au : audio_stream = PDict a)
        by (destruct audio_stream; try discriminate; injection A as <-;
            reflexivity).
      exists [],
             [("audio_codec", get_or_none a "codec_name");
              ("audio_channels", get_or_none a "channels")].
      do 8 (split; [reflexivity || eassumption |]).
      split; [reflexivity |]. split; [reflexivity |].
      exists a. split; [exact Au | reflexivity].
    + injection E9 as <-.
      exists [], []. do 8 (split; [reflexivity || eassumption |]).
      split; [reflexivity |]. split; reflexivity.
Qed.

(** X12. When the prober's output can be read, the metadata has the
    entries [duration] (a float), [size] and [bitrate] (integers) and
    [format], then [width], [height], [codec] and [fps] exactly when the
    output has a video stream, then [audio_codec] and [audio_channels]
    exactly when it has an audio stream, in this order.  What
    [_get_video_metadata] returns is either such a dictionary or the
    empty one. *)
Theorem metadata_has_a_fixed_shape :
  forall env,
    (forall stdout md,
        extract_metadata env stdout = Ok md ->
        exists data streams video audio,
          json_loads stdout = Ok data /\
          rbind (subscript data "streams") py_iter = Ok streams /\
          first_stream "video" streams = Ok video /\
          first_stream "audio" streams = Ok audio /\
          dict_keys md
          = (format_keys ++ (if truthy video then video_keys else [])
               ++ (if truthy audio then audio_keys else []))%list /\
          (exists d s b,
              dict_get md "duration" = Some (PFloat d) /\
              dict_get md "size" = Some (PInt s) /\
              dict_get md "bitrate" = Some (PInt b)) /\
          (truthy video = true ->
           exists w hg,
             dict_get md "width" = Some (PInt w) /\
             dict_get md "height" = Some (PInt hg))) /\
    (forall input_file h md o,
        _get_video_metadata env input_file h = (Ok md, o) ->
        md = [] \/
        extract_metadata env (respond env h (Ffprobe input_file)) = Ok md).
Proof.
  intros env. split.
  - intros stdout md H. apply extract_metadata_inv in H.
    destruct H as (data & streams & video & audio & fmt & d & s & b
                   & vpart & apart & E0 & E1 & E2 & E3 & _ & _ & _ & _
                   & -> & V & A).
    exists data, streams, video, audio.
    do 4 (split; [assumption |]).
    split; [| split].
    + unfold dict_keys. rewrite !map_app. cbn [map fst].
      unfold format_keys. f_equal.
      destruct (truthy video).
      * destruct V as (vs & w & hg & fps & _ & _ & _ & _ & ->).
        destruct (truthy audio).
        -- destruct A as (a & _ & ->). reflexivity.
        -- subst apart. reflexivity.
      * subst vpart. destruct (truthy audio).
        -- destruct A as (a & _ & ->). reflexivity.
        -- subst apart. reflexivity.
    + exists d, s, b. repeat split; reflexivity.
    + intros T. rewrite T in V.
      destruct V as (vs & w & hg & fps & _ & _ & _ & _ & ->).
      exists w, hg. split; reflexivity.
  - intros input_file h md o. rewrite get_video_metadata_eq. cbv zeta.
    destruct (succeeded _); [| intros [= <- _]; left; reflexivity].
    destruct (extract_metadata env _) as [md' | e].
    + intros [= <- _]. right. reflexivity.
    + destruct e; try discriminate. intros [= <- _]. left. reflexivity.
Qed.

(** At the prober's output in [studio]. *)
Lemma metadata_has_a_fixed_shape_witness :
  exists md o,
    _get_video_metadata studio "./uploads/a.mp4" [] = (Ok md, o) /\
    (md = [] \/
     extract_metadata studio
                      (respond studio [] (Ffprobe "./uploads/a.mp4")) = Ok md).
Proof.
  run_it.
  exact (proj2 (metadata_has_a_fixed_shape studio) _ _ _ _ E).
Defined.

(** ** Which stream is described *)

Lemma first_stream_skip kind pre vs post :
  Forall (other_kind kind) pre ->
  dict_get vs "codec_type" = Some (PStr kind) ->
  first_stream kind (pre ++ PDict vs :: post) = Ok (PDict vs).
Proof.
  intros F Hv. induction F as [| s pre (c & Hc & Hk) _ IH]; simpl.
  - rewrite Hv. simpl. rewrite String.eqb_refl. reflexivity.
  - rewrite Hc. simpl. rewrite Hk. exact IH.
Qed.

(** A stream that is found says of what kind it is. *)
Lemma first_stream_not_empty kind streams :
  first_stream kind streams <> Ok (PDict []).
Proof.
  induction streams as [| x streams IH]; simpl; [discriminate |].
  destruct x; try discriminate. simpl.
  destruct (dict_get d "codec_type") as [c |] eqn:C; [| discriminate].
  simpl. destruct (eq_str c kind); [| exact IH].
  intros [= ->]. discriminate.
Qed.

(** X13. The picture the metadata describes is that of the first video
    stream of the prober's output: its width, height, codec name and
    evaluated frame rate, whatever streams come after it -- further video
    streams are not looked at. *)
Theorem first_video_stream_describes_the_picture :
  forall env stdout md data pre vs post,
    json_loads stdout = Ok data ->
    subscript data "streams" = Ok (PList (pre ++ PDict vs :: post)) ->
    Forall (other_kind "video") pre ->
    dict_get vs "codec_type" = Some (PStr "video") ->
    extract_metadata env stdout = Ok md ->
    exists w hg fps,
      py_int (get_default vs "width" (PInt 0)) = Ok w /\
      py_int (get_default vs "height" (PInt 0)) = Ok hg /\
      eval_value env (get_default vs "r_frame_rate" (PStr "0/1")) = Ok fps /\
      dict_get md "width" = Some (PInt w) /\
      dict_get md "height" = Some (PInt hg) /\
      dict_get md "codec" = Some (get_or_none vs "codec_name") /\
      dict_get md "fps" = Some fps.
Proof.
  intros env stdout md data pre vs post Hd Hs Hp Hv H.
  apply extract_metadata_inv in H.
  destruct H as (data' & streams & video & audio & fmt & d & s & b
                 & vpart & apart & E0 & E1 & E2 & _ & _ & _ & _ & _
                 & -> & V & _).
  rewrite Hd in E0. injection E0 as <-.
  rewrite Hs in E1. simpl in E1. injection E1 as <-.
  rewrite (first_stream_skip _ _ _ _ Hp Hv) in E2. injection E2 as <-.
  assert (T : truthy (PDict vs) = true)
    by (destruct vs; [discriminate | reflexivity]).
  rewrite T in V. destruct V as (vs' & w & hg & fps & [= <-] & W & Hh & F & ->).
  exists w, hg, fps. repeat split; assumption || reflexivity.
Qed.

(** At a document with two video streams. *)
Lemma first_video_stream_describes_the_picture_witness :
  exists md,
    extract_metadata studio
      (mkCompleted 0
         (Some (PDict
                  [("streams",
                    PList ([PDict [("codec_type", PStr "audio")]]
                           ++ PDict [("codec_type", PStr "video");
                                     ("width", PInt 640)]
                           :: [PDict [("codec_type", PStr "video");
                                      ("width", PInt 1920)]]));
                   ("format", PDict [])]))) = Ok md /\
    dict_get md "width" = Some (PInt 640).
Proof.
  match goal with
  | |- exists md, ?t = Ok md /\ _ =>
      let v := eval vm_compute in t in
      match v with
      | Ok ?md => exists md; assert (E : t = Ok md) by (vm_compute; reflexivity)
      end
  end.
  split; [exact E |].
  assert (F : Forall (other_kind "video")
                      [PDict [("codec_type", PStr "audio")]]).
  { constructor; [| constructor]. exists (PStr "audio"). split; reflexivity. }
  match type of E with
  | extract_metadata _ (mkCompleted ?code (Some ?data)) = Ok ?md =>
      destruct (first_video_stream_describes_the_picture
                  studio (mkCompleted code (Some data)) md data
                  [PDict [("codec_type", PStr "audio")]]
                  [("codec_type", PStr "video"); ("width", PInt 640)]
                  [PDict [("codec_type", PStr "video"); ("width", PInt 1920)]]
                  eq_refl eq_refl F eq_refl E)
        as (w & hg & fps & W & _ & _ & Hw & _)
  end.
  rewrite Hw. vm_compute in W. injection W as <-. reflexivity.
Defined.

(** ** Entries the prober leaves out *)

(** X14. An entry missing from the prober's output is given a default
    (lines 142-153): a size and a bit rate of 0, no format name; for the
    video stream a width and a height of 0, no codec name, and the frame
    rate [0/1], which evaluates to the float 0. *)
Theorem missing_entries_get_defaults :
  forall env stdout md data fmt,
    json_loads stdout = Ok data ->
    subscript data "format" = Ok (PDict fmt) ->
    extract_metadata env stdout = Ok md ->
    (dict_get fmt "size" = None -> dict_get md "size" = Some (PInt 0)) /\
    (dict_get fmt "bit_rate" = None -> dict_get md "bitrate" = Some (PInt 0)) /\
    (dict_get fmt "format_name" = None -> dict_get md "format" = Some PNone) /\
    (forall streams vs,
        rbind (subscript data "streams") py_iter = Ok streams ->
        first_stream "video" streams = Ok (PDict vs) ->
        (dict_get vs "width" = None -> dict_get md "width" = Some (PInt 0)) /\
        (dict_get vs "height" = None -> dict_get md "height" = Some (PInt 0)) /\
        (dict_get vs "codec_name" = None -> dict_get md "codec" = Some PNone) /\
        (dict_get vs "r_frame_rate" = None ->
         dict_get md "fps" = Some (PFloat 0))).
Proof.
  intros env stdout md data fmt Hd Hf H.
  apply extract_metadata_inv in H.
  destruct H as (data' & streams & video & audio & fmt' & d & s & b
                 & vpart & apart & E0 & E1 & E2 & _ & E4 & _ & E6 & E7
                 & -> & V & _).
  rewrite Hd in E0. injection E0 as <-.
  rewrite Hf in E4. simpl in E4. injection E4 as <-.
  split; [| split; [| split]].
  - intros N. unfold get_default in E6. rewrite N in E6.
    injection E6 as <-. reflexivity.
  - intros N. unfold get_default in E7. rewrite N in E7.
    injection E7 as <-. reflexivity.
  - intros N. unfold get_or_none, get_default. rewrite N. reflexivity.
  - intros streams' vs Hs Hv. rewrite Hs in E1. injection E1 as <-.
    rewrite Hv in E2. injection E2 as <-.
    destruct (truthy (PDict vs)) eqn:T.
    + destruct V as (vs' & w & hg & fps & [= <-] & W & Hh & F & ->).
      repeat split; intros N.
      * unfold get_default in W. rewrite N in W. injection W as <-. reflexivity.
      * unfold get_default in Hh. rewrite N in Hh. injection Hh as <-.
        reflexivity.
      * unfold get_or_none, get_default. rewrite N. reflexivity.
      * unfold get_default in F. rewrite N in F. injection F as <-.
        reflexivity.
    + destruct vs; [| discriminate].
      exfalso. exact (first_stream_not_empty _ _ Hv).
Qed.

(** At a document that gives nothing but the kind of its one stream. *)
Lemma missing_entries_get_defaults_witness :
  exists md,
    extract_metadata studio
      (mkCompleted 0
         (Some (PDict [("streams", PList [PDict [("codec_type", PStr "video")]]);
                       ("format", PDict [])]))) = Ok md /\
    dict_get md "bitrate" = Some (PInt 0) /\
    dict_get md "fps" = Some (PFloat 0).
Proof.
  match goal with
  | |- exists md, ?t = Ok md /\ _ =>
      let v := eval vm_compute in t in
      match v with
      | Ok ?md => exists md; assert (E : t = Ok md) by (vm_compute; reflexivity)
      end
  end.
  split; [exact E |].
  match type of E with
  | extract_metadata _ (mkCompleted ?code (Some ?data)) = Ok ?md =>
      destruct (missing_entries_get_defaults
                  studio (mkCompleted code (Some data)) md data []
                  eq_refl eq_refl E)
        as (_ & B & _ & V)
  end.
  split; [exact (B eq_refl) |].
  exact (proj2 (proj2 (proj2 (V _ [("codec_type", PStr "video")]
                                eq_refl eq_refl))) eq_refl).
Defined.

(** ** A frame rate with denominator zero *)

Lemma py_eval_zero_denominator env a :
  py_eval env (fraction a 0) = Raise ZeroDivisionError.
Proof.
  unfold py_eval. rewrite fraction_is_arithmetic by lia.
  rewrite eval_arith_fraction by lia. reflexivity.
Qed.

(** An exception of the extraction that line 162 does not catch ends the
    run at the first probe. *)
Lemma unread_probe_ends_the_run env self input_file video_id resolutions h e :
  let probe := Ffprobe (input_path self input_file) in
  let h1 := (h ++ [start_message video_id])%list in
  let answer := respond env h1 probe in
  path_exists env (input_path self input_file) = true ->
  returncode answer = 0 ->
  extract_metadata env answer = Raise e ->
  e <> CalledProcessError ->
  transcode_video env self input_file video_id resolutions h
  = (Raise e, [start_message video_id; Ran probe answer]).
Proof.
  cbv zeta. intros P R X Ne. unfold transcode_video.
  fold (input_path self input_file). rewrite P.
  change (negb true) with false. cbv iota.
  unfold bind at 1. unfold log_info at 1, emit at 1.
  fold (start_message video_id).
  unfold bind at 1. rewrite get_video_metadata_eq. cbv zeta.
  unfold succeeded. rewrite R. simpl Z.eqb. cbv iota.
  rewrite X. destruct e; try reflexivity. congruence.
Qed.

(** X15. A frame rate whose denominator is zero, such as [0/0], makes
    [eval] divide by zero.  When the first video stream of the prober's
    output has such a frame rate, the metadata cannot be built and the
    run ends at the first probe with the exception raised, nothing
    encoded; that exception is [ZeroDivisionError] whenever the rest of
    the output can be read. *)
Theorem zero_denominator_frame_rate_aborts_the_run :
  forall env,
    (forall a, py_eval env (fraction a 0) = Raise ZeroDivisionError) /\
    (forall self input_file video_id resolutions h a,
        let probe := Ffprobe (input_path self input_file) in
        let h1 := (h ++ [start_message video_id])%list in
        let answer := respond env h1 probe in
        path_exists env (input_path self input_file) = true ->
        returncode answer = 0 ->
        video_frame_rate answer (fraction a 0) ->
        exists e,
          extract_metadata env answer = Raise e /\
          transcode_video env self input_file video_id resolutions h
          = (Raise e, [start_message video_id; Ran probe answer])) /\
    (forall stdout data streams vs audio fmt a,
        json_loads stdout = Ok data ->
        rbind (subscript data "streams") py_iter = Ok streams ->
        first_stream "video" streams = Ok (PDict vs) ->
        dict_get vs "r_frame_rate" = Some (PStr (fraction a 0)) ->
        first_stream "audio" streams = Ok audio ->
        rbind (subscript data "format") as_dict = Ok fmt ->
        is_ok (py_float (get_default fmt "duration" (PInt 0))) = true ->
        is_ok (py_int (get_default fmt "size" (PInt 0))) = true ->
        is_ok (py_int (get_default fmt "bit_rate" (PInt 0))) = true ->
        is_ok (py_int (get_default vs "width" (PInt 0))) = true ->
        is_ok (py_int (get_default vs "height" (PInt 0))) = true ->
        extract_metadata env stdout = Raise ZeroDivisionError).
Proof.
  intros env. split; [apply py_eval_zero_denominator |]. split.
  - intros self input_file video_id resolutions h a probe h1 answer P R
           (data & streams & vs & Hd & Hs & Hv & Hr).
    pose proof (extract_metadata_fps env answer data streams vs _ Hd Hs Hv Hr)
      as F.
    rewrite py_eval_zero_denominator in F.
    destruct (extract_metadata env answer) as [md | e] eqn:X.
    + destruct F as (v & F & _). discriminate.
    + exists e. split; [reflexivity |].
      apply unread_probe_ends_the_run; try assumption.
      intros ->. discriminate.
  - intros stdout data streams vs audio fmt a Hd Hs Hv Hr Ha Hf D S B W Hh.
    unfold extract_metadata. rewrite Hd. cbn [rbind].
    rewrite Hs. cbn [rbind]. rewrite Hv. cbn [rbind]. rewrite Ha. cbn [rbind].
    rewrite Hf. cbn [rbind].
    destruct (py_float _) as [d |]; [| discriminate]. cbn [rbind].
    destruct (py_int (get_default fmt "size" _)) as [s |]; [| discriminate].
    cbn [rbind].
    destruct (py_int (get_default fmt "bit_rate" _)) as [b |]; [| discriminate].
    cbn [rbind].
    assert (T : truthy (PDict vs) = true)
      by (destruct vs; [discriminate | reflexivity]).
    rewrite T. unfold video_fields. cbn [as_dict rbind].
    destruct (py_int (get_default vs "width" _)) as [w |]; [| discriminate].
    cbn [rbind].
    destruct (py_int (get_default vs "height" _)) as [hg |]; [| discriminate].
    cbn [rbind].
    unfold get_default at 1. rewrite Hr. cbn [eval_value].
    rewrite py_eval_zero_denominator. reflexivity.
Qed.

(** At a run on a clip whose frame rate the prober gives as [0/0]. *)
Lemma zero_denominator_frame_rate_aborts_the_run_witness :
  fst (transcode_video studio_unknown_rate default_transcoder "a.mp4" "v1"
                       None [])
  = Raise ZeroDivisionError.
Proof.
  destruct (proj1 (proj2 (zero_denominator_frame_rate_aborts_the_run
                            studio_unknown_rate))
                  default_transcoder "a.mp4" "v1" None [] 0)
    as (e & X & R).
  - reflexivity.
  - reflexivity.
  - do 3 eexists. repeat split; reflexivity.
  - rewrite R. vm_compute in X. injection X as <-. reflexivity.
Defined.

(* ================================================================== *)
(** * Properties of the uploader *)

(** ** Names of joined paths *)

Lemma split_on_nonempty c s : split_on c s <> [].
Proof.
  destruct s as [| a r]; simpl; [discriminate |].
  destruct (Ascii.eqb a c); [discriminate |].
  destruct (split_on c r); discriminate.
Qed.

Lemma split_on_app c a b :
  split_on c (a ++ String c b) = (split_on c a ++ split_on c b)%list.
Proof.
  induction a as [| x a IH]; simpl.
  - rewrite Ascii.eqb_refl. reflexivity.
  - destruct (Ascii.eqb x c); [rewrite IH; reflexivity |].
    rewrite IH. pose proof (split_on_nonempty c a) as N.
    destruct (split_on c a); [contradiction | reflexivity].
Qed.

Lemma split_on_no_char c s : no_char c s = true -> split_on c s = [s].
Proof.
  induction s as [| a r IH]; simpl; [reflexivity |].
  destruct (Ascii.eqb a c); [discriminate |]. simpl.
  intros H. rewrite (IH H). reflexivity.
Qed.

Lemma ends_with_slash_inv s :
  ends_with_slash s = true -> s = "" \/ exists p, s = p ++ "/".
Proof.
  unfold ends_with_slash. destruct s as [| a r]; [auto |]. intros H. right.
  revert a H. induction r as [| b r IH]; intros a H.
  - simpl in H. exists "". destruct (Ascii.eqb_spec a "/") as [E |];
      [subst a; reflexivity | discriminate].
  - destruct (IH b) as (p & E).
    + simpl in H. simpl. rewrite Nat.sub_0_r in *. exact H.
    + exists (String a p). simpl. rewrite E. reflexivity.
Qed.

Lemma last_filter_app {A} (p : A -> bool) l x d :
  p x = true -> last (filter p (l ++ [x])) d = x.
Proof.
  intros H. rewrite filter_app. simpl. rewrite H. apply last_last.
Qed.

(** The last component of a path ending in a plain file name is that
    name. *)
Lemma path_name_join dir name :
  no_char "/" name = true -> name <> "" -> name <> "." ->
  path_name (path_join dir name) = name.
Proof.
  intros Hs He Hd.
  assert (K : negb (String.eqb name "" || String.eqb name ".") = true).
  { apply negb_true_iff, orb_false_iff.
    split; apply String.eqb_neq; assumption. }
  assert (S : exists pre, split_on "/" (path_join dir name) = (pre ++ [name])%list).
  { unfold path_join.
    assert (E : match name with String "/"%char _ => name | _ =>
                  if ends_with_slash dir then dir ++ name else dir ++ "/" ++ name
                end = if ends_with_slash dir then dir ++ name
                      else dir ++ "/" ++ name).
    { destruct name as [| c r]; [reflexivity |].
      destruct c as [[|] [|] [|] [|] [|] [|] [|] [|]]; try reflexivity.
      simpl in Hs. discriminate. }
    rewrite E. destruct (ends_with_slash dir) eqn:Ed.
    - apply ends_with_slash_inv in Ed. destruct Ed as [-> | (p & ->)].
      + exists []. simpl. apply split_on_no_char. exact Hs.
      + exists (split_on "/" p). rewrite append_assoc. simpl.
        rewrite split_on_app, (split_on_no_char _ _ Hs). reflexivity.
    - exists (split_on "/" dir). simpl.
      rewrite split_on_app, (split_on_no_char _ _ Hs). reflexivity. }
  destruct S as (pre & S). unfold path_name. rewrite S.
  apply last_filter_app. exact K.
Qed.

Lemma after_last_app c p x :
  no_char c x = true -> after_last c (p ++ String c x) = Some x.
Proof.
  intros H.
  assert (N : after_last c x = None).
  { induction x as [| a r IH]; simpl in *; [reflexivity |].
    destruct (Ascii.eqb a c); [discriminate |]. simpl in H.
    rewrite (IH H). reflexivity. }
  induction p as [| a p IH]; simpl.
  - rewrite N, Ascii.eqb_refl. reflexivity.
  - rewrite IH. reflexivity.
Qed.

Lemma no_char_app c a b : no_char c (a ++ b) = no_char c a && no_char c b.
Proof.
  induction a as [| x a IH]; simpl; [reflexivity |].
  rewrite IH, andb_assoc. reflexivity.
Qed.

(** The suffix of [stem.x] in a directory is [.x]. *)
Lemma path_suffix_join dir stem x :
  plain_stem stem = true ->
  no_char "." x = true -> no_char "/" x = true -> x <> "" ->
  path_suffix (path_join dir (stem ++ String "." x)) = String "." x.
Proof.
  intros Hp Hd Hs Hx. destruct stem as [| a stem]; [discriminate |].
  simpl in Hp. apply andb_true_iff in Hp. destruct Hp as [Ha Hp].
  unfold path_suffix. rewrite path_name_join.
  - simpl. rewrite (after_last_app "." stem x Hd).
    destruct x; [congruence | reflexivity].
  - change (no_char "/" (String a stem ++ String "." x) = true).
    rewrite no_char_app. change (no_char "/" (String a stem))
      with (negb (Ascii.eqb a "/") && no_char "/" stem).
    rewrite Hp. simpl. exact Hs.
  - discriminate.
  - simpl. intros [= _ E]. destruct stem; discriminate.
Qed.

(** ** Content types *)

Lemma lower_char_dot c : Ascii.eqb (lower_char c) "." = Ascii.eqb c ".".
Proof. destruct c as [[|] [|] [|] [|] [|] [|] [|] [|]]; reflexivity. Qed.

Lemma lower_char_slash c : Ascii.eqb (lower_char c) "/" = Ascii.eqb c "/".
Proof. destruct c as [[|] [|] [|] [|] [|] [|] [|] [|]]; reflexivity. Qed.

Lemma no_char_lower_dot s : no_char "." (lower s) = no_char "." s.
Proof.
  induction s as [| c s IH]; simpl; [reflexivity |].
  rewrite lower_char_dot, IH. reflexivity.
Qed.

Lemma no_char_lower_slash s : no_char "/" (lower s) = no_char "/" s.
Proof.
  induction s as [| c s IH]; simpl; [reflexivity |].
  rewrite lower_char_slash, IH. reflexivity.
Qed.

(** Text that is an extension of the table once lowered is a dot followed
    by at least one character, none of them a dot or a slash. *)
Lemma extension_shape e ext ct :
  lower e = ext -> In (ext, ct) content_types ->
  exists x, e = String "." x /\ x <> "" /\
            no_char "." x = true /\ no_char "/" x = true.
Proof.
  intros L H.
  assert (S : exists y, ext = String "." y /\ y <> "" /\
                        no_char "." y = true /\ no_char "/" y = true).
  { simpl in H.
    repeat (destruct H as [[= <- _] | H];
            [eexists; split; [reflexivity |];
             split; [discriminate | split; reflexivity] |]).
    contradiction. }
  destruct S as (y & -> & Hy & Hd & Hs).
  destruct e as [| c x]; [discriminate |]. simpl in L.
  injection L as Lc Lx. exists x.
  assert (C : c = "."%char).
  { apply Ascii.eqb_eq. rewrite <- lower_char_dot, Lc. reflexivity. }
  subst c. split; [reflexivity |]. subst y.
  rewrite no_char_lower_dot in Hd. rewrite no_char_lower_slash in Hs.
  repeat split; try assumption.
  intros ->. apply Hy. reflexivity.
Qed.

Lemma get_default_in {V} (d : dict V) k default :
  get_default d k default = default \/ In (k, get_default d k default) d.
Proof.
  unfold get_default. destruct (dict_get d k) as [v |] eqn:E; [| auto].
  right. apply dict_get_In. exact E.
Qed.

(** The type of a file [stem.ext] whose extension is in the table, in
    any letter case. *)
Lemma content_type_of_extension dir stem e ext ct :
  plain_stem stem = true ->
  lower e = ext ->
  In (ext, ct) content_types ->
  _get_content_type (path_join dir (stem ++ e)) = ct.
Proof.
  intros Hp L H.
  destruct (extension_shape e ext ct L H) as (x & -> & Hx & Hd & Hs).
  unfold _get_content_type. cbv zeta.
  rewrite (path_suffix_join dir stem x Hp Hd Hs Hx), L.
  simpl in H.
  repeat (destruct H as [[= <- <-] | H]; [reflexivity |]). contradiction.
Qed.

(** X16. The content type of a file depends only on the suffix of its
    name, letter case aside.  A file [stem.ext] -- the stem not empty,
    without a slash and not starting with a dot -- whose extension is, in
    any mix of upper and lower case, one of [.mp4], [.m3u8], [.ts],
    [.jpg], [.png] gets the type the table gives for it; a name without a
    dot gets [application/octet-stream]; and no other type than these six
    is ever returned. *)
Theorem content_type_follows_the_extension :
  (forall dir stem e ext ct,
      plain_stem stem = true ->
      lower e = ext ->
      In (ext, ct) content_types ->
      _get_content_type (path_join dir (stem ++ e)) = ct) /\
  (forall dir name,
      name <> "" -> no_char "." name = true -> no_char "/" name = true ->
      _get_content_type (path_join dir name) = "application/octet-stream") /\
  (forall file_path,
      In (_get_content_type file_path)
         ["video/mp4"; "application/vnd.apple.mpegurl"; "video/mp2t";
          "image/jpeg"; "image/png"; "application/octet-stream"]).
Proof.
  split; [| split].
  - apply content_type_of_extension.
  - intros dir name He Hd Hs. unfold _get_content_type, path_suffix. cbv zeta.
    rewrite path_name_join; [| exact Hs | exact He |].
    + destruct name as [| a r]; [reflexivity |].
      simpl in Hd. apply andb_true_iff in Hd. destruct Hd as [_ Hd].
      assert (N : after_last "." r = None).
      { clear -Hd. induction r as [| b r IH]; simpl in *; [reflexivity |].
        destruct (Ascii.eqb b "."); [discriminate |]. simpl in Hd.
        rewrite (IH Hd). reflexivity. }
      rewrite N. reflexivity.
    + intros ->. discriminate.
  - intros file_path. unfold _get_content_type. cbv zeta.
    destruct (get_default_in content_types (lower (path_suffix file_path))
                             "application/octet-stream") as [-> | H].
    + simpl. tauto.
    + remember (get_default _ _ _) as ct. clear Heqct.
      remember (lower (path_suffix file_path)) as k. clear Heqk.
      simpl in H.
      repeat (destruct H as [[= <- <-] | H]; [simpl; tauto |]). contradiction.
Qed.

(** At a rendition whose extension is in capitals. *)
Lemma content_type_follows_the_extension_witness :
  _get_content_type "./transcoded/v1/720p.MP4" = "video/mp4".
Proof.
  refine (proj1 content_type_follows_the_extension
                "./transcoded/v1" "720p" ".MP4" ".mp4" "video/mp4" _ _ _).
  - reflexivity.
  - reflexivity.
  - simpl. auto.
Defined.

(** ** The loop over the files *)

Lemma uploads_app a b : uploads (a ++ b) = (uploads a ++ uploads b)%list.
Proof. apply flat_map_app. Qed.

Section Uploads.

Variable s3 : S3Env.
Variable self : uploader.
Variables video_id local_dir : string.

(** Different files are stored under different keys. *)
Lemma upload_of_inj a b :
  upload_of self video_id local_dir a = upload_of self video_id local_dir b ->
  a = b.
Proof.
  unfold upload_of, s3_key. intros [= _ K _].
  apply append_inj_l in K. injection K as K. exact K.
Qed.

Lemma upload_loop_inv paths : forall acc h res o,
  upload_loop s3 self video_id local_dir paths acc h = (res, o) ->
  let call := upload_of self video_id local_dir in
  let url rel := s3_url (bucket_name self) (s3_key video_id rel) in
  (forall uploaded,
      res = Ok uploaded ->
      map fst (uploads o) = map call (regular_files paths) /\
      Forall (fun c => snd c = Stored \/ snd c = RaisedClientError) (uploads o) /\
      (forall rel, dict_get acc rel = Some (url rel) ->
                   dict_get uploaded rel = Some (url rel)) /\
      (forall rel, In (call rel, Stored) (uploads o) ->
                   dict_get uploaded rel = Some (url rel)) /\
      (forall rel u, dict_get uploaded rel = Some u ->
                     dict_get acc rel = Some u \/
                     (u = url rel /\ In (call rel, Stored) (uploads o)))) /\
  (forall e,
      res = Raise e ->
      exists before rel,
        In (rel, true) paths /\
        uploads o = (before ++ [(call rel, RaisedOther e)])%list).
Proof.
  cbv zeta.
  induction paths as [| [rel' is_file] paths IH]; intros acc h res o H.
  - injection H as <- <-. split.
    + intros uploaded [= <-]. split; [reflexivity |]. split; [constructor |].
      split; [auto |]. split; [intros rel [] |].
      intros rel u Hu. left. exact Hu.
    + discriminate.
  - cbn [upload_loop] in H. destruct is_file.
    2:{ apply IH in H. destruct H as [Hok Hr]. split.
        - intros uploaded E. destruct (Hok uploaded E) as (A & B & C & D & F).
          repeat split; assumption.
        - intros e E. destruct (Hr e E) as (before & rel & Hin & U).
          exists before, rel. split; [right; exact Hin | exact U]. }
    cbv zeta in H.
    destruct (upload_file s3 h (upload_of self video_id local_dir rel'))
      as [| | e'] eqn:Eu.
    + destruct (upload_loop _ _ _ _ paths _ _) as [r o'] eqn:L.
      injection H as <- <-. apply IH in L. destruct L as [Hok Hr].
      split.
      * intros uploaded E. destruct (Hok uploaded E) as (A & B & C & D & F).
        cbn [app uploads flat_map upload_event_of]. fold (uploads o').
        split; [| split; [| split; [| split]]].
        -- unfold regular_files. simpl. f_equal. exact A.
        -- constructor; [left; reflexivity | exact B].
        -- intros rel Hacc. apply C. rewrite dict_get_set.
           destruct (String.eqb rel rel') eqn:Er; [| exact Hacc].
           apply String.eqb_eq in Er. subst rel'. reflexivity.
        -- intros rel [Hin | Hin].
           ++ apply (f_equal fst) in Hin. cbn [fst] in Hin.
              apply upload_of_inj in Hin. subst rel'.
              apply C. rewrite dict_get_set, String.eqb_refl. reflexivity.
           ++ apply D. exact Hin.
        -- intros rel u Hu. apply F in Hu. rewrite dict_get_set in Hu.
           destruct Hu as [Hu | [-> Hin]]; [| right; split; [| right]; auto].
           destruct (String.eqb rel rel') eqn:Er; [| left; exact Hu].
           apply String.eqb_eq in Er. subst rel'. injection Hu as <-.
           right. split; [reflexivity | left; reflexivity].
      * intros e E. destruct (Hr e E) as (before & rel & Hin & U).
        exists ((upload_of self video_id local_dir rel', Stored) :: before), rel.
        split; [right; exact Hin |].
        cbn [app uploads flat_map upload_event_of]. fold (uploads o').
        rewrite U. reflexivity.
    + destruct (upload_loop _ _ _ _ paths _ _) as [r o'] eqn:L.
      injection H as <- <-. apply IH in L. destruct L as [Hok Hr].
      split.
      * intros uploaded E. destruct (Hok uploaded E) as (A & B & C & D & F).
        cbn [app uploads flat_map upload_event_of]. fold (uploads o').
        split; [| split; [| split; [| split]]].
        -- unfold regular_files. simpl. f_equal. exact A.
        -- constructor; [right; reflexivity | exact B].
        -- exact C.
        -- intros rel [Hin | Hin]; [discriminate | apply D; exact Hin].
        -- intros rel u Hu. apply F in Hu.
           destruct Hu as [Hu | [-> Hin]]; [left; exact Hu |].
           right. split; [reflexivity | right; exact Hin].
      * intros e E. destruct (Hr e E) as (before & rel & Hin & U).
        exists ((upload_of self video_id local_dir rel', RaisedClientError)
                  :: before), rel.
        split; [right; exact Hin |].
        cbn [app uploads flat_map upload_event_of]. fold (uploads o').
        rewrite U. reflexivity.
    + injection H as <- <-. split; [discriminate |].
      intros e [= <-]. exists [], rel'. split; [left; reflexivity | reflexivity].
Qed.

(** The loop ends well when the client raises nothing but [ClientError]. *)
Lemma upload_loop_total paths :
  (forall h u e, upload_file s3 h u <> RaisedOther e) ->
  forall acc h, exists uploaded o,
    upload_loop s3 self video_id local_dir paths acc h = (Ok uploaded, o).
Proof.
  intros N. induction paths as [| [rel is_file] paths IH]; intros acc h.
  - eexists _, _. reflexivity.
  - cbn [upload_loop]. destruct is_file; [| apply IH]. cbv zeta.
    destruct (upload_file s3 h (upload_of self video_id local_dir rel))
      as [| | e] eqn:Eu.
    + edestruct IH as (uploaded & o & ->). eexists _, _. reflexivity.
    + edestruct IH as (uploaded & o & ->). eexists _, _. reflexivity.
    + exfalso. exact (N _ _ _ Eu).
Qed.

End Uploads.

(** X17. [upload_video_files] calls the client once for each regular
    file of the walk, in the order of the walk, never for a directory,
    with the bucket of the uploader, the key [videos/<video_id>/<path>]
    and the content type of the file.  When it returns, its dictionary
    maps exactly the paths whose upload was stored, each to
    [https://<bucket>.s3.amazonaws.com/<key>]; an upload on which the
    client raises [ClientError] is left out and the walk goes on.  It
    returns whenever the client raises nothing else; any other exception
    ends the walk at that file and comes out of the call. *)
Theorem uploads_report_what_was_stored :
  forall s3 self video_id local_dir h,
    let call := upload_of self video_id local_dir in
    let url rel := s3_url (bucket_name self) (s3_key video_id rel) in
    (forall uploaded o,
        upload_video_files s3 self video_id local_dir h = (Ok uploaded, o) ->
        map fst (uploads o) = map call (regular_files (rglob s3 local_dir)) /\
        Forall (fun c => snd c = Stored \/ snd c = RaisedClientError)
               (uploads o) /\
        forall rel u,
          dict_get uploaded rel = Some u <->
          u = url rel /\ In (call rel, Stored) (uploads o)) /\
    ((forall h' u e, upload_file s3 h' u <> RaisedOther e) ->
     exists uploaded o,
       upload_video_files s3 self video_id local_dir h = (Ok uploaded, o)) /\
    (forall e o,
        upload_video_files s3 self video_id local_dir h = (Raise e, o) ->
        exists before rel,
          In (rel, true) (rglob s3 local_dir) /\
          uploads o = (before ++ [(call rel, RaisedOther e)])%list).
Proof.
  intros s3 self video_id local_dir h. cbv zeta. unfold upload_video_files.
  split; [| split].
  - intros uploaded o H. apply upload_loop_inv in H. cbv zeta in H.
    destruct H as [Hok _].
    destruct (Hok uploaded eq_refl) as (A & B & _ & D & F).
    split; [exact A |]. split; [exact B |].
    intros rel u. split.
    + intros Hu. apply F in Hu. destruct Hu as [Hu | Hu]; [discriminate | exact Hu].
    + intros [-> Hin]. apply D. exact Hin.
  - intros N. apply upload_loop_total. exact N.
  - intros e o H. apply upload_loop_inv in H. cbv zeta in H.
    destruct H as [_ Hr]. apply Hr. reflexivity.
Qed.

(** At the sample bucket. *)
Lemma uploads_report_what_was_stored_witness :
  exists uploaded o,
    upload_video_files sample_s3 (mkUploader "my-video-bucket") "video_123"
                       "./transcoded/video_123" [] = (Ok uploaded, o) /\
    dict_get uploaded "720p.MP4"
    = Some "https://my-video-bucket.s3.amazonaws.com/videos/video_123/720p.MP4".
Proof.
  run_it.
  apply (proj1 (uploads_report_what_was_stored _ _ _ _ _) _ _ E).
  split; [reflexivity |]. vm_compute. tauto.
Defined.

(** ** The files of a run, uploaded *)

Lemma thumb_content_type dir i :
  1 <= i <= 10 -> _get_content_type (thumb_path dir i) = "image/jpeg".
Proof.
  intros Hi. unfold thumb_path.
  rewrite <- append_assoc.
  apply content_type_of_extension with (ext := ".jpg").
  - assert (C : i = 1 \/ i = 2 \/ i = 3 \/ i = 4 \/ i = 5 \/ i = 6 \/ i = 7
                \/ i = 8 \/ i = 9 \/ i = 10) by lia.
    repeat (destruct C as [-> | C]; [reflexivity |]). subst i. reflexivity.
  - reflexivity.
  - simpl. auto.
Qed.

(** X18. The files a run reports get the content types an upload of the
    video's directory needs: [video/mp4] for the renditions and the
    preview, [application/vnd.apple.mpegurl] for the master playlist and
    the variant playlists, [image/jpeg] for the thumbnails.  For the
    renditions and the variant playlists this holds for labels that can
    serve as the stem of a file name, as the five labels of the default
    catalog can. *)
Theorem transcoder_outputs_get_their_content_types :
  (forall env self input_file video_id resolutions h r o,
      transcode_video env self input_file video_id resolutions h = (Ok r, o) ->
      (forall l f,
          dict_get (r_resolutions r) l = Some f ->
          plain_stem l = true ->
          _get_content_type f = "video/mp4") /\
      _get_content_type (r_hls_playlist r) = "application/vnd.apple.mpegurl" /\
      (forall f video_file seg l answer,
          In (Ran (FfmpegHls video_file seg f l) answer) o ->
          plain_stem l = true ->
          _get_content_type f = "application/vnd.apple.mpegurl") /\
      (forall f, In f (r_thumbnails r) -> _get_content_type f = "image/jpeg") /\
      (forall f, r_preview r = Some f -> _get_content_type f = "video/mp4")) /\
  (forall l, In l (dict_keys (presets default_transcoder)) ->
             plain_stem l = true).
Proof.
  split.
  - intros env self input_file video_id resolutions h r o H.
    pose proof (run_encodes _ _ _ _ _ _ _ _ H) as (_ & _ & _ & G & _).
    pose proof (run_manifest _ _ _ _ _ _ _ _ H) as (Mp & _).
    pose proof (run_thumbnails _ _ _ _ _ _ _ _ H) as (_ & _ & _ & Th).
    pose proof (run_commands _ _ _ _ _ _ _ _ H) as C. cbv zeta in C.
    destruct C as (encodes & segments & stills & C & E & S & I & T & _ & _).
    apply transcode_video_inv in H. cbv zeta in H.
    destruct H as (_ & _ & h1 & o1 & h2 & o2 & h3 & o3 & h4 & o4 & h5 & o5
                   & _ & _ & _ & _ & H5 & _).
    split; [| split; [| split; [| split]]].
    + intros l f Hf Hl. apply G in Hf. subst f. unfold rendition_path.
      apply content_type_of_extension with (ext := ".mp4");
        [exact Hl | reflexivity | simpl; auto].
    + rewrite Mp. unfold master_path.
      apply (content_type_of_extension _ "master" ".m3u8" ".m3u8");
        [reflexivity | reflexivity | simpl; auto].
    + intros f video_file seg l answer Hin Hl.
      apply In_commands in Hin. rewrite C in Hin.
      assert (Hs : In (FfmpegHls video_file seg f l) segments).
      { destruct Hin as [Hin | Hin]; [discriminate |].
        apply in_app_or in Hin. destruct Hin as [Hin | Hin].
        { apply (stage_of_repeat _ _ _ _ E) in Hin. discriminate. }
        apply in_app_or in Hin. destruct Hin as [Hin | Hin]; [exact Hin |].
        destruct Hin as [Hin | Hin]; [discriminate |].
        apply in_app_or in Hin.
        destruct Hin as [Hin | [Hin | []]]; [| discriminate].
        rewrite Forall_forall in T. apply T in Hin.
        destruct Hin as (t & out & Hin). discriminate. }
      apply I in Hs. destruct Hs as (_ & _ & ->). unfold variant_path.
      apply content_type_of_extension with (ext := ".m3u8");
        [exact Hl | reflexivity | simpl; auto].
    + intros f Hf. apply Th in Hf. destruct Hf as (i & Hi & ->).
      apply thumb_content_type. exact Hi.
    + intros f Hf. rewrite generate_preview_eq in H5. cbv zeta in H5.
      destruct (succeeded _); injection H5 as E5 _; rewrite Hf in E5;
        [| discriminate].
      injection E5 as <-.
      apply (content_type_of_extension _ "preview" ".mp4" ".mp4");
        [reflexivity | reflexivity | simpl; auto].
  - intros l Hl. simpl in Hl.
    repeat (destruct Hl as [<- | Hl]; [reflexivity |]). contradiction.
Qed.

(** At a run in [studio]. *)
Lemma transcoder_outputs_get_their_content_types_witness :
  exists r o,
    transcode_video studio default_transcoder "a.mp4" "v1" (Some ["720p"]) []
    = (Ok r, o) /\
    _get_content_type (r_hls_playlist r) = "application/vnd.apple.mpegurl".
Proof.
  run_it.
  exact (proj1 (proj2 (proj1 transcoder_outputs_get_their_content_types
                             _ _ _ _ _ _ _ _ E))).
Defined.

(* ================================================================== *)
(** * More on the renditions *)

(** ** The order of the renditions *)

(** X19. A label requested more than once is handed to the encoder each
    time, but the renditions list it once: their keys are the labels
    that encoded successfully, in the order of their first success, and
    the segmenter is run once for each of them, in that order. *)
Theorem renditions_are_in_order_of_first_success :
  forall env self input_file video_id resolutions h r o,
    transcode_video env self input_file video_id resolutions h = (Ok r, o) ->
    map fst (encode_attempts o)
    = filter (known self) (requested self resolutions) /\
    dict_keys (r_resolutions r)
    = first_occurrences (successes (encode_attempts o)) /\
    map fst (hls_attempts o)
    = first_occurrences (successes (encode_attempts o)).
Proof.
  intros env self input_file video_id resolutions h r o H.
  pose proof (run_encodes _ _ _ _ _ _ _ _ H) as (A & _).
  pose proof (run_manifest _ _ _ _ _ _ _ _ H) as (_ & Hh & _).
  apply transcode_video_inv in H. cbv zeta in H.
  destruct H as (_ & _ & h1 & o1 & h2 & o2 & h3 & o3 & h4 & o4 & h5 & o5
                 & _ & H2 & _ & _ & _ & E & _).
  apply encode_loop_keys in H2. rewrite <- E in H2.
  split; [exact A |]. split; [exact H2 |]. rewrite Hh. exact H2.
Qed.

(** At a run asked for 720p twice. *)
Lemma renditions_are_in_order_of_first_success_witness :
  exists r o,
    transcode_video studio default_transcoder "a.mp4" "v1"
                    (Some ["720p"; "360p"; "720p"]) [] = (Ok r, o) /\
    map fst (encode_attempts o) = ["720p"; "360p"; "720p"] /\
    map fst (hls_attempts o) = ["720p"; "360p"].
Proof.
  run_it.
  destruct (renditions_are_in_order_of_first_success _ _ _ _ _ _ _ _ E)
    as (A & _ & S).
  split; [exact A |]. rewrite S. vm_compute. reflexivity.
Defined.

(** ** The command line of each encode *)

(** X20. Every encode of a run that returns reads the source, writes
    [<label>.mp4] in the video's directory, and is given the width, the
    height, the video and audio bit rates of the preset the catalog has
    for its label, with a buffer of twice the video bit rate. *)
Theorem renditions_are_encoded_with_their_presets :
  forall env self input_file video_id resolutions h r o,
    transcode_video env self input_file video_id resolutions h = (Ok r, o) ->
    forall i out l w hg vb buf ab answer,
      In (Ran (FfmpegEncode i out l w hg vb buf ab) answer) o ->
      i = input_path self input_file /\
      out = rendition_path (video_output_dir self video_id) l /\
      exists p kbps,
        dict_get (presets self) l = Some p /\
        bitrate_kbps p = Ok kbps /\
        w = width p /\ hg = height p /\ vb = bitrate p /\
        buf = py_str_int (kbps * 2) ++ "k" /\
        ab = audio_bitrate p.
Proof.
  intros env self input_file video_id resolutions h r o H
         i out l w hg vb buf ab answer Hin.
  apply run_commands in H. cbv zeta in H.
  destruct H as (encodes & segments & stills & C & E & S & I & T & _ & _ & F).
  apply In_commands in Hin. rewrite C in Hin.
  assert (He : In (FfmpegEncode i out l w hg vb buf ab) encodes).
  { destruct Hin as [Hin | Hin]; [discriminate |].
    apply in_app_or in Hin. destruct Hin as [Hin | Hin]; [exact Hin |].
    apply in_app_or in Hin. destruct Hin as [Hin | Hin].
    { apply (stage_of_repeat _ _ _ _ S) in Hin. discriminate. }
    destruct Hin as [Hin | Hin]; [discriminate |].
    apply in_app_or in Hin. destruct Hin as [Hin | [Hin | []]]; [| discriminate].
    rewrite Forall_forall in T. apply T in Hin.
    destruct Hin as (t & out' & Hin). discriminate. }
  rewrite Forall_forall in F. apply F in He.
  destruct He as (l' & p & kbps & Hp & Hk & Hc).
  unfold encode_command in Hc. injection Hc as -> -> -> -> -> -> -> ->.
  split; [reflexivity |]. split; [reflexivity |].
  exists p, kbps. repeat split; assumption.
Qed.

(** At a run in [studio]. *)
Lemma renditions_are_encoded_with_their_presets_witness :
  exists p kbps,
    dict_get (presets default_transcoder) "720p" = Some p /\
    bitrate_kbps p = Ok kbps /\
    1280 = width p /\ 720 = height p /\ "2500k" = bitrate p /\
    "5000k" = py_str_int (kbps * 2) ++ "k" /\
    "128k" = audio_bitrate p.
Proof.
  refine (proj2 (proj2 (renditions_are_encoded_with_their_presets
            studio default_transcoder "a.mp4" "v1" (Some ["720p"]) []
            (match fst (transcode_video studio default_transcoder "a.mp4" "v1"
                                        (Some ["720p"]) []) with
             | Ok r => r
             | Raise _ => mkResults "" [] [] [] None ""
             end)
            (snd (transcode_video studio default_transcoder "a.mp4" "v1"
                                  (Some ["720p"]) []))
            _
            "./uploads/a.mp4" "./transcoded/v1/720p.mp4" "720p" 1280 720
            "2500k" "5000k" "128k" (mkCompleted 0 None) _))).
  - vm_compute. reflexivity.
  - vm_compute. tauto.
Defined.

(** ** The manifest and the order of the request *)

(** X21. With the default catalog, the text of the master playlist
    depends only on which labels were segmented successfully: two runs
    that return, whatever their sources, requests and environments, have
    each written one file, with the same text, as soon as the same labels
    succeeded in both. *)
Theorem manifest_depends_only_on_what_was_segmented :
  forall env env' input_file input_file' video_id video_id'
         resolutions resolutions' h h' r r' o o',
    transcode_video env default_transcoder input_file video_id resolutions h
    = (Ok r, o) ->
    transcode_video env' default_transcoder input_file' video_id'
                    resolutions' h' = (Ok r', o') ->
    (forall l, In l (successes (hls_attempts o))
               <-> In l (successes (hls_attempts o'))) ->
    exists text,
      writes o = [(r_hls_playlist r, text)] /\
      writes o' = [(r_hls_playlist r', text)].
Proof.
  intros env env' input_file input_file' video_id video_id'
         resolutions resolutions' h h' r r' o o' H H' S.
  apply default_manifest in H. apply default_manifest in H'.
  destruct H as (vs & (body & B & W) & D & _ & St & L).
  destruct H' as (vs' & (body' & B' & W') & D' & _ & St' & L').
  assert (E : vs = vs').
  { apply (strictly_sorted_unique bandwidth_gt); try assumption.
    - unfold bandwidth_gt. intros a b. lia.
    - assert (Half : forall us us',
                 (forall v, In v us -> In v default_variants) ->
                 (forall v, In v us' -> In v default_variants) ->
                 (forall l, In l (map v_resolution us) ->
                            In l (map v_resolution us')) ->
                 forall x, In x us -> In x us').
      { intros us us' Du Du' Lu x Hx.
        assert (Hl : In (v_resolution x) (map v_resolution us'))
          by (apply Lu, in_map, Hx).
        apply in_map_iff in Hl. destruct Hl as (y & Ey & Hy).
        rewrite (default_variants_by_label x y); auto. }
      intros x. split; apply Half; try assumption.
      + intros l Hl. apply L', S, L, Hl.
      + intros l Hl. apply L, S, L', Hl. }
  subst vs'. rewrite B in B'. injection B' as <-.
  exists (header ++ body). split; assumption.
Qed.

(** At two runs in [studio] asked for the same labels in different
    orders. *)
Lemma manifest_depends_only_on_what_was_segmented_witness :
  exists text,
    writes (snd (transcode_video studio default_transcoder "a.mp4" "v1"
                                 (Some ["360p"; "720p"]) []))
    = [("./transcoded/v1/hls/master.m3u8", text)] /\
    writes (snd (transcode_video studio default_transcoder "b.mp4" "v2"
                                 (Some ["720p"; "360p"; "720p"]) []))
    = [("./transcoded/v2/hls/master.m3u8", text)].
Proof.
  match goal with
  | |- exists text, writes (snd ?t1) = _ /\ writes (snd ?t2) = _ =>
      let v1 := eval vm_compute in t1 in
      let v2 := eval vm_compute in t2 in
      match v1 with
      | (Ok ?r1, ?o1) =>
          match v2 with
          | (Ok ?r2, ?o2) =>
              assert (E1 : t1 = (Ok r1, o1)) by (vm_compute; reflexivity);
              assert (E2 : t2 = (Ok r2, o2)) by (vm_compute; reflexivity);
              rewrite E1, E2;
              refine (manifest_depends_only_on_what_was_segmented
                        _ _ _ _ _ _ _ _ _ _ r1 r2 o1 o2 E1 E2 _)
          end
      end
  end.
  intros l. vm_compute. tauto.
Defined.

(* ================================================================== *)
(** * The example program *)

(** X22. The example program looks the duration up in the metadata
    without a default (line 386).  When the prober exits non-zero at the
    first probe of an existing source, and answers readably when the
    thumbnail stage asks again, the run itself returns, with the four
    requested labels handed to the encoder -- and the program then ends
    with [KeyError], having printed its first two lines only. *)
Theorem example_program_needs_the_duration :
  forall env h,
    let source := input_path default_transcoder "sample_video.mp4" in
    let made := [MadeDir (input_dir default_transcoder);
                 MadeDir (output_dir default_transcoder)] in
    let h1 := ((h ++ made) ++ [start_message "video_123"])%list in
    path_exists env source = true ->
    returncode (respond env h1 (Ffprobe source)) <> 0 ->
    (forall h', is_ok (fst (_get_video_metadata env source h')) = true) ->
    exists r o,
      transcode_video env default_transcoder "sample_video.mp4" "video_123"
                      (Some example_resolutions) (h ++ made)%list = (Ok r, o) /\
      r_metadata r = [] /\
      map fst (encode_attempts o) = example_resolutions /\
      main env h = (Raise KeyError, (made ++ o)%list, first_lines r).
Proof.
  intros env h source made h1 P R M.
  destruct (run_returns env default_transcoder "sample_video.mp4" "video_123"
              (Some example_resolutions) (h ++ made)%list
              default_catalog_ok P M) as (r & o & E).
  exists r, o. split; [exact E |].
  pose proof (run_encodes _ _ _ _ _ _ _ _ E) as (A & _).
  pose proof (transcode_video_inv _ _ _ _ _ _ _ _ E) as I. cbv zeta in I.
  destruct I as (_ & _ & h1' & o1 & h2 & o2 & h3 & o3 & h4 & o4 & h5 & o5
                 & H1 & _ & _ & _ & _ & _ & _ & _ & _ & _ & _ & ->).
  rewrite get_video_metadata_eq in H1. cbv zeta in H1.
  fold source in H1. fold h1 in H1.
  assert (F : succeeded (respond env h1 (Ffprobe source)) = false)
    by (unfold succeeded; apply Z.eqb_neq; exact R).
  rewrite F in H1. injection H1 as H1 _.
  split; [symmetry; exact H1 |]. split; [exact A |].
  unfold main. cbv zeta. fold made. rewrite E. rewrite <- H1. reflexivity.
Qed.

(** At a run in which the prober exits with 1. *)
Lemma example_program_needs_the_duration_witness :
  exists r o,
    transcode_video studio_no_prober default_transcoder "sample_video.mp4"
                    "video_123" (Some example_resolutions)
                    ([] ++ [MadeDir "./uploads"; MadeDir "./transcoded"])%list
    = (Ok r, o) /\
    fst (fst (main studio_no_prober [])) = Raise KeyError.
Proof.
  destruct (example_program_needs_the_duration studio_no_prober [])
    as (r & o & E & _ & _ & K).
  - reflexivity.
  - simpl. discriminate.
  - intros h'. rewrite get_video_metadata_eq. reflexivity.
  - exists r, o. split; [exact E |]. rewrite K. reflexivity.
Defined.
